(** * eco_guardian: the unified per-state forecaster

    A shallow embedding of [eco_guardian/models/time_series_model.py]
    (class [UnifiedForecaster]) and of the training driver
    [eco_guardian/models/train_time_series.py], with the properties of the
    forecasting subsystem stated and settled against it.

    Modelling conventions.
    - A Python [dict] with string keys is a [gmap string pyval].
    - Python [int] is [Z].  A Python/NumPy [float] is a [float]: a rational,
      NaN or one of the two infinities, compared and combined as IEEE 754
      does; the sign of zero is not kept.
    - The projection of [predict] rounds every operation as float64 does:
      [rnd] gives the float64 nearest to an exact result, or an infinity on
      overflow.  The sums and quotients of the training frames are taken
      exactly; the statements about them (signs, order) do not depend on
      their last bit.
    - An annual timestamp [YYYY-01-01] is its year, a [Z]; what pandas
      accepts as a year is spelled out at [date_range] and
      [_validate_input_data].
    - A raised exception is a value of [exn]; a call that may raise returns
      [result A = exn + A].  Mutated objects ([self], the logger, the
      [initial_conditions] dict) are passed in and returned explicitly.
    - The file system holds the files written by [joblib.dump]; the log
      files of the two modules are not part of it.
    - The column statistics of scikit-learn's [StandardScaler] and Prophet's
      sampler and forecast are external numeric engines: they are the
      variables of [Section Forecaster]. *)

From Stdlib Require Import ZArith QArith Qround Qabs Lia Lqa Sorted Qpower.
From stdpp Require Import base gmap strings list.

Local Open Scope Z_scope.
Local Open Scope string_scope.

(** ** Python values and exceptions *)

(** A float64 value. *)
Inductive float : Type :=
| Fin (q : Q)
| NaN
| PInf
| NInf.

Coercion Fin : Q >-> float.

Inductive pyval : Type :=
| VInt (n : Z)
| VFloat (x : float)
| VStr (s : string)
| VNone.

Arguments VFloat x%_Q.

(** Every [raise] site of the two modules, and the library errors the code
    can meet.  Wrappers carry the exception they were raised from. *)
Inductive exn : Type :=
(* predict, _validate_inputs, _create_future_dataframe *)
| LastYearRequired                      (* ValueError, predict l.216 *)
| InputsMissing (missing : list string) (* ValueError, l.272 *)
| WrongType (key : string)              (* TypeError, l.288 and l.320 *)
| BelowMinimum (key : string)           (* ValueError, l.301 *)
| AboveMaximum (key : string)           (* ValueError, l.303 *)
| InvalidBiome                          (* ValueError, l.308 *)
| StateNotSeen (estado : pyval)         (* ValueError, l.313 *)
| InvalidHorizon                        (* ValueError, l.222 *)
| StateEncodingError (e : exn)          (* ValueError, l.326 *)
| PredictionFailure (e : exn)           (* RuntimeError ... from e, l.265 *)
(* preprocess_data, train *)
| MissingTarget                         (* ValueError, l.85 *)
| MissingColumns (missing : list string)(* ValueError, l.89 *)
| InvalidArea                           (* AssertionError, l.105 *)
| EncoderNotConfigured                  (* RuntimeError, l.116 *)
| StatesNotMapped (e : exn)             (* ValueError ... from e, l.121 *)
| ScalingFailure (e : exn)              (* RuntimeError, l.132 *)
| ColumnsMissingAfter (missing : list string) (* ValueError, l.193 *)
| TrainingFailure (e : exn)             (* RuntimeError, l.211 *)
(* save_model, load_model *)
| ModelNotTrained                       (* RuntimeError, l.381 *)
| ArtifactUnavailable (name : string)   (* ValueError, l.386 *)
| EncoderNotFound                       (* RuntimeError, l.428 *)
| PreprocessorNotFitted                 (* RuntimeError, l.435 *)
| ModelFileNotFound (path : string)     (* FileNotFoundError, l.439 *)
| LoadFailure (e : exn)                 (* RuntimeError, l.441 *)
(* train_time_series.py *)
| NaNAreas                              (* ValueError, driver l.40 *)
| NegativeAreas                         (* ValueError, driver l.43 *)
| InvalidDateFormat (e : exn)           (* ValueError, driver l.48 *)
| ZeroWeights                           (* ZeroDivisionError, np.average *)
(* interpreter and library errors *)
| PyKeyError (key : string)             (* KeyError: dict or column lookup *)
| NoAttribute (attr : string)           (* AttributeError: no such attribute *)
| OperandTypeError                      (* TypeError: unsupported operands *)
| PyZeroDivision                        (* ZeroDivisionError: division by zero *)
| IntTooLarge                           (* OverflowError: int too large for a float *)
| IntOfNaN                              (* ValueError: int() of a NaN *)
| IntOfInfinity                         (* OverflowError: int() of an infinity *)
| DateParseError (year : Z)             (* ValueError: pandas cannot read the date *)
| SkNotFitted                           (* sklearn NotFittedError *)
| UnseenLabel (label : pyval)           (* ValueError, LabelEncoder.transform *)
| SkShapeMismatch                       (* ValueError, wrong column count *)
| SkEmptyInput                          (* ValueError, zero samples *)
| SkNonNumeric (column : string)        (* ValueError, non-numeric column *)
| SkNonFinite                           (* ValueError, input contains infinity *)
| ProphetNotFit                         (* Exception: model has not been fit *)
| ProphetFitOnce                        (* Exception: can only be fit once *)
| ProphetRegressorAfterFit              (* Exception, add_regressor *)
| ProphetRegressorMissing (name : string) (* ValueError *)
| ProphetTooFewRows                     (* ValueError: less than 2 non-NaN rows *)
| ProphetInfY                           (* ValueError: infinity in column y *)
| ProphetNaN (name : string)            (* ValueError: NaN in a regressor *)
| ProphetFitFailed                      (* failure inside the sampler *)
| OsFileNotFound                        (* FileNotFoundError from joblib *)
| CorruptArtifact.                      (* any other joblib/pickle failure *)

Inductive pyclass : Type :=
| ValueError | TypeError | RuntimeError | AssertionError | AttributeError
| KeyError | NotFittedError | FileNotFoundError | ZeroDivisionError
| OverflowError | BaseExceptionClass.

Definition class_of (e : exn) : pyclass :=
  match e with
  | LastYearRequired | InputsMissing _ | BelowMinimum _ | AboveMaximum _
  | InvalidBiome | StateNotSeen _ | InvalidHorizon | StateEncodingError _
  | MissingTarget | MissingColumns _ | StatesNotMapped _
  | ColumnsMissingAfter _ | ArtifactUnavailable _ | UnseenLabel _
  | SkShapeMismatch | SkEmptyInput | SkNonNumeric _ | SkNonFinite
  | ProphetRegressorMissing _ | ProphetTooFewRows | ProphetInfY
  | ProphetNaN _ | NaNAreas | NegativeAreas | InvalidDateFormat _
  | IntOfNaN | DateParseError _ => ValueError
  | ZeroWeights | PyZeroDivision => ZeroDivisionError
  | IntTooLarge | IntOfInfinity => OverflowError
  | WrongType _ | OperandTypeError => TypeError
  | PredictionFailure _ | EncoderNotConfigured | ScalingFailure _
  | TrainingFailure _ | ModelNotTrained | EncoderNotFound
  | PreprocessorNotFitted | LoadFailure _ => RuntimeError
  | InvalidArea => AssertionError
  | PyKeyError _ => KeyError
  | NoAttribute _ => AttributeError
  | SkNotFitted => NotFittedError
  | ModelFileNotFound _ | OsFileNotFound => FileNotFoundError
  | ProphetNotFit | ProphetFitOnce | ProphetRegressorAfterFit
  | ProphetFitFailed | CorruptArtifact => BaseExceptionClass
  end.

(** [except ValueError] also catches sklearn's [NotFittedError], which
    derives from [ValueError]. *)
Definition is_ValueError (e : exn) : bool :=
  match class_of e with
  | ValueError | NotFittedError => true
  | _ => false
  end.

(** [__cause__]: set only by [raise ... from e]. *)
Definition cause_of (e : exn) : option exn :=
  match e with
  | PredictionFailure c | StatesNotMapped c => Some c
  | _ => None
  end.

(** [__context__]: the exception being handled when this one was raised;
    Python sets it on every [raise] inside an [except] block. *)
Definition context_of (e : exn) : option exn :=
  match e with
  | PredictionFailure c | StatesNotMapped c | StateEncodingError c
  | ScalingFailure c | TrainingFailure c | LoadFailure c
  | InvalidDateFormat c => Some c
  | _ => None
  end.

(** The lifecycle errors of the module: the only guard on [is_trained] is
    the one of [save_model] (l.380-381). *)
Definition is_state_error (e : exn) : bool :=
  match e with
  | ModelNotTrained => true
  | _ => false
  end.

Definition result (A : Type) : Type := exn + A.
Definition Ok {A : Type} (a : A) : result A := inr a.
Definition Raise {A : Type} (e : exn) : result A := inl e.

Definition rbind {A B : Type} (r : result A) (k : A -> result B) : result B :=
  match r with
  | inl e => inl e
  | inr a => k a
  end.

Notation "'do' x <- r ; k" := (rbind r (fun x => k))
  (at level 10, x name, r at level 100, k at level 200).
Notation "'guard' r ; k" := (rbind r (fun _ : unit => k))
  (at level 10, r at level 100, k at level 200).

(** [try: body except ValueError as e: raise wrap(e)] *)
Definition except_ValueError {A : Type} (r : result A) (wrap : exn -> exn) : result A :=
  match r with
  | inl e => if is_ValueError e then inl (wrap e) else inl e
  | inr a => inr a
  end.

(** [try: body except Exception as e: raise wrap(e)] *)
Definition except_Exception {A : Type} (r : result A) (wrap : exn -> exn) : result A :=
  match r with
  | inl e => inl (wrap e)
  | inr a => inr a
  end.

Fixpoint map_result {A B : Type} (f : A -> result B) (l : list A) : result (list B) :=
  match l with
  | [] => Ok []
  | a :: rest => do b <- f a; do bs <- map_result f rest; Ok (b :: bs)
  end.

(** ** Floats *)

Definition Qltb (a b : Q) : bool := negb (Qle_bool b a).

Definition is_nan (a : float) : bool :=
  match a with NaN => true | _ => false end.

Definition is_inf (a : float) : bool :=
  match a with PInf | NInf => true | _ => false end.

(** [a < b] and [a <= b]: false whenever an operand is NaN. *)
Definition flt (a b : float) : bool :=
  match a, b with
  | NaN, _ | _, NaN => false
  | Fin x, Fin y => Qltb x y
  | NInf, NInf => false
  | NInf, _ => true
  | _, NInf => false
  | PInf, _ => false
  | _, PInf => true
  end.

Definition fle (a b : float) : bool :=
  match a, b with
  | NaN, _ | _, NaN => false
  | Fin x, Fin y => Qle_bool x y
  | NInf, _ => true
  | _, PInf => true
  | _, _ => false
  end.

(** A rounding leaves an exact result as it is ([exact]), or takes it to
    the nearest float64. *)
Definition exact (q : Q) : float := Fin q.

Definition fneg (a : float) : float :=
  match a with
  | Fin x => Fin (- x)
  | NaN => NaN
  | PInf => NInf
  | NInf => PInf
  end.

Definition fadd (round : Q -> float) (a b : float) : float :=
  match a, b with
  | Fin x, Fin y => round (x + y)%Q
  | NaN, _ | _, NaN => NaN
  | PInf, NInf | NInf, PInf => NaN
  | PInf, _ | _, PInf => PInf
  | NInf, _ | _, NInf => NInf
  end.

Definition fsub (round : Q -> float) (a b : float) : float :=
  fadd round a (fneg b).

(** The infinity of the sign of [x] times the sign given. *)
Definition signed_inf (negative : bool) : float :=
  if negative then NInf else PInf.

Definition fmul (round : Q -> float) (a b : float) : float :=
  match a, b with
  | Fin x, Fin y => round (x * y)%Q
  | NaN, _ | _, NaN => NaN
  | Fin x, PInf | PInf, Fin x =>
      if Qeq_bool x 0 then NaN else signed_inf (Qltb x 0)
  | Fin x, NInf | NInf, Fin x =>
      if Qeq_bool x 0 then NaN else signed_inf (negb (Qltb x 0))
  | PInf, PInf | NInf, NInf => PInf
  | PInf, NInf | NInf, PInf => NInf
  end.

(** NumPy's division: a zero divisor gives an infinity or NaN, no error. *)
Definition fdiv (round : Q -> float) (a b : float) : float :=
  match a, b with
  | Fin x, Fin y =>
      if Qeq_bool y 0
      then (if Qeq_bool x 0 then NaN else signed_inf (Qltb x 0))
      else round (x / y)%Q
  | NaN, _ | _, NaN => NaN
  | Fin _, _ => Fin 0
  | PInf, Fin y => signed_inf (Qltb y 0)
  | NInf, Fin y => signed_inf (negb (Qltb y 0))
  | _, _ => NaN
  end.

(** [round half to even], as [np.rint] *)
Definition round_half_even (x : Q) : Z :=
  let f := Qfloor x in
  match Qcompare (x - inject_Z f)%Q (1 # 2)%Q with
  | Lt => f
  | Gt => f + 1
  | Eq => if Z.even f then f else f + 1
  end.

(** [series.sum()] of pandas skips NaN: one more value into a sum. *)
Definition nanadd (acc x : float) : float :=
  if is_nan x then acc else fadd exact acc x.

(** The finite values of a column. *)
Definition finite_values (col : list float) : list Q :=
  omap (fun x => match x with Fin q => Some q | _ => None end) col.

(** ** Dictionaries *)

Definition getitem (d : gmap string pyval) (k : string) : result pyval :=
  match d !! k with
  | Some v => Ok v
  | None => Raise (PyKeyError k)
  end.

Definition contains (d : gmap string pyval) (k : string) : bool :=
  match d !! k with
  | Some _ => true
  | None => false
  end.

(** [v in names] for a list of strings *)
Definition pyval_in (v : pyval) (names : list string) : bool :=
  match v with
  | VStr s => bool_decide (s ∈ names)
  | _ => false
  end.

(** ** The three collaborators *)

(** scikit-learn's [LabelEncoder]: [classes_] exists once fitted. *)
Record LabelEncoder : Type := { classes_ : option (list string) }.

Fixpoint index_of (s : string) (l : list string) : option nat :=
  match l with
  | [] => None
  | x :: rest => if bool_decide (x = s) then Some O else S <$> index_of s rest
  end.

(** [encoder.transform([v])[0]] *)
Definition LabelEncoder_transform (enc : LabelEncoder) (v : pyval) : result Z :=
  match classes_ enc with
  | None => Raise SkNotFitted
  | Some cs =>
      match v with
      | VStr s =>
          match index_of s cs with
          | Some i => Ok (Z.of_nat i)
          | None => Raise (UnseenLabel v)
          end
      | _ => Raise (UnseenLabel v)
      end
  end.

(** The [ColumnTransformer] holding one [StandardScaler] over the feature
    columns: after [fit] it owns, per column, the pair (mean, scale).  The
    fitted statistics live on the inner scaler; the [ColumnTransformer]
    object itself never has an attribute [mean_]. *)
Record ColumnTransformer : Type := { fitted : option (list (Q * Q)) }.

Definition has_mean_ (ct : ColumnTransformer) : bool := false.

(** One cell through the scaler: NaN stays NaN. *)
Definition scale_cell (p : Q * Q) (x : float) : float :=
  match x with
  | Fin q => Fin ((q - fst p) / snd p)%Q
  | other => other
  end.

Fixpoint standardize (params : list (Q * Q)) (row : list float) : result (list float) :=
  match params, row with
  | [], [] => Ok []
  | p :: ps, x :: xs =>
      do rest <- standardize ps xs; Ok (scale_cell p x :: rest)
  | _, _ => Raise SkShapeMismatch
  end.

(** The scaler accepts NaN and refuses an infinity. *)
Definition has_inf (X : list (list float)) : bool :=
  existsb (existsb is_inf) X.

(** [preprocessor.transform(X)]: fitted, then the number of columns, then
    the values. *)
Definition ColumnTransformer_transform (ct : ColumnTransformer) (X : list (list float))
  : result (list (list float)) :=
  match fitted ct with
  | None => Raise SkNotFitted
  | Some params =>
      do scaled <- map_result (standardize params) X;
      if has_inf X then Raise SkNonFinite else Ok scaled
  end.

(** Prophet: the registered regressors and, once fitted, the posterior. *)
Definition posterior : Type := list Q.

Record Prophet : Type := {
  extra_regressors : list string;
  history : option posterior
}.

(** ** The forecaster *)

Record UnifiedForecaster : Type := {
  model : option Prophet;
  feature_columns : list string;
  geo_columns : list string;
  preprocessor : option ColumnTransformer;
  is_trained : bool;
  encoder_estados : option LabelEncoder
}.

Definition __init__ : UnifiedForecaster := {|
  model := Some {| extra_regressors := []; history := None |};
  feature_columns :=
    ["area_fazenda_ha"; "area_floresta_ha"; "prop_floresta"; "estado_code"];
  geo_columns := ["Estado"; "bioma"];
  preprocessor := Some {| fitted := None |};
  is_trained := false;
  encoder_estados := None
|}.

Definition set_encoder (self : UnifiedForecaster) (enc : LabelEncoder) : UnifiedForecaster := {|
  model := model self;
  feature_columns := feature_columns self;
  geo_columns := geo_columns self;
  preprocessor := preprocessor self;
  is_trained := is_trained self;
  encoder_estados := Some enc
|}.

Definition set_is_trained (self : UnifiedForecaster) (b : bool) : UnifiedForecaster := {|
  model := model self;
  feature_columns := feature_columns self;
  geo_columns := geo_columns self;
  preprocessor := preprocessor self;
  is_trained := b;
  encoder_estados := encoder_estados self
|}.

Definition set_preprocessor (self : UnifiedForecaster) (ct : ColumnTransformer) : UnifiedForecaster := {|
  model := model self;
  feature_columns := feature_columns self;
  geo_columns := geo_columns self;
  preprocessor := Some ct;
  is_trained := is_trained self;
  encoder_estados := encoder_estados self
|}.

Definition set_model (self : UnifiedForecaster) (m : Prophet) : UnifiedForecaster := {|
  model := Some m;
  feature_columns := feature_columns self;
  geo_columns := geo_columns self;
  preprocessor := preprocessor self;
  is_trained := is_trained self;
  encoder_estados := encoder_estados self
|}.

(** ** Numbers of a mapping *)

(** [isinstance(v, (int, float, np.number))]; NaN and the infinities are
    floats. *)
Definition is_number (v : pyval) : bool :=
  match v with VInt _ | VFloat _ => true | _ => false end.

(** [isinstance(v, (int, np.integer))] *)
Definition is_int (v : pyval) : bool :=
  match v with VInt _ => true | _ => false end.

(** [isinstance(v, str)] *)
Definition is_str (v : pyval) : bool :=
  match v with VStr _ => true | _ => false end.

(** [int(v)] on a number (truncation toward zero for a float) *)
Definition as_int (v : pyval) : result Z :=
  match v with
  | VInt n => Ok n
  | VFloat (Fin q) => Ok (if Qle_bool 0 q then Qfloor q else Qceiling q)
  | VFloat NaN => Raise IntOfNaN
  | VFloat _ => Raise IntOfInfinity
  | _ => Raise OperandTypeError
  end.

(** [value < bound] and [value > bound] against an [int] bound: exact on
    an [int], IEEE on a float. *)
Definition py_lt (a : pyval) (bound : Q) : result bool :=
  match a with
  | VInt n => Ok (Qltb (inject_Z n) bound)
  | VFloat x => Ok (flt x (Fin bound))
  | _ => Raise OperandTypeError
  end.

Definition py_gt (a : pyval) (bound : Q) : result bool :=
  match a with
  | VInt n => Ok (Qltb bound (inject_Z n))
  | VFloat x => Ok (flt (Fin bound) x)
  | _ => Raise OperandTypeError
  end.

(** ** _validate_inputs (l.267-313) *)

Definition required_keys (self : UnifiedForecaster) : list string :=
  feature_columns self ++ geo_columns self ++ ["y"; "last_year"].

Definition missing_keys (self : UnifiedForecaster) (inputs : gmap string pyval) : list string :=
  List.filter (fun k => negb (contains inputs k)) (required_keys self).

Definition type_checks : list (string * (pyval -> bool)) :=
  [("y", is_number); ("area_fazenda_ha", is_number);
   ("area_floresta_ha", is_number); ("Estado", is_str); ("bioma", is_str);
   ("prop_floresta", is_number); ("estado_code", is_int);
   ("last_year", is_int)].

Fixpoint check_types (inputs : gmap string pyval)
    (checks : list (string * (pyval -> bool))) : result unit :=
  match checks with
  | [] => Ok tt
  | (key, valid) :: rest =>
      match inputs !! key with
      | Some v => if valid v then check_types inputs rest else Raise (WrongType key)
      | None => check_types inputs rest
      end
  end.

Definition numeric_checks : list (string * (option Q * option Q)) :=
  [("area_fazenda_ha", (Some 0%Q, None));
   ("area_floresta_ha", (Some 0%Q, None));
   ("prop_floresta", (Some 0%Q, Some 1%Q))].

Fixpoint check_ranges (inputs : gmap string pyval)
    (checks : list (string * (option Q * option Q))) : result unit :=
  match checks with
  | [] => Ok tt
  | (key, (min_val, max_val)) :: rest =>
      do value <- getitem inputs key;
      do below <- match min_val with
                  | Some lo => py_lt value lo
                  | None => Ok false
                  end;
      if below then Raise (BelowMinimum key) else
      do above <- match max_val with
                  | Some hi => py_gt value hi
                  | None => Ok false
                  end;
      if above then Raise (AboveMaximum key) else
      check_ranges inputs rest
  end.

Definition valid_biomas : list string :=
  ["Amazônia"; "Caatinga"; "Cerrado"; "Pantanal"; "Mata Atlântica"; "Pampa"].

Definition _validate_inputs (self : UnifiedForecaster) (inputs : gmap string pyval)
  : result unit :=
  match missing_keys self inputs with
  | (_ :: _) as missing => Raise (InputsMissing missing)
  | [] =>
      guard check_types inputs type_checks;
      guard check_ranges inputs numeric_checks;
      do bioma <- getitem inputs "bioma";
      if negb (pyval_in bioma valid_biomas) then Raise InvalidBiome else
      match encoder_estados self with
      | Some {| classes_ := Some cs |} =>
          do estado <- getitem inputs "Estado";
          if negb (pyval_in estado cs) then Raise (StateNotSeen estado) else Ok tt
      | _ => Ok tt
      end
  end.

(** ** Frames *)

(** One row of the frame built by [_create_future_dataframe] (l.340-349). *)
Record FutureRow : Type := {
  f_ds : Z;
  f_y : float;
  f_area_fazenda_ha : float;
  f_area_floresta_ha : float;
  f_prop_floresta : float;
  f_estado_code : Z;
  f_Estado : pyval;
  f_bioma : pyval
}.

Definition future_columns : list string :=
  ["ds"; "y"; "area_fazenda_ha"; "area_floresta_ha"; "prop_floresta";
   "estado_code"; "Estado"; "bioma"].

(** One row of Prophet's forecast, then of [predict]'s result. *)
Record ForecastRow : Type := {
  data : Z;
  Estado : pyval;
  bioma : pyval;
  conversao_ha_prevista : float;
  limite_inferior : float;
  limite_superior : float;
  area_floresta_projetada : float;
  area_fazenda_projetada : float
}.

Inductive log_record : Type :=
| LogError (estado : pyval) (e : exn).   (* logger.error, l.264 *)

Section Forecaster.

(** Float64 rounding of an exact result: the nearest float64 (ties to
    even), or an infinity when the result overflows. *)
Variable rnd : Q -> float.

(** Prophet's sampler on the training frame (regressor names, then rows of
    date, target and regressor values): the posterior, or a failure. *)
Variable prophet_sample : list string -> list (Z * Q * list Q) -> option posterior.

(** Prophet's forecast for one future row: [yhat], [yhat_lower],
    [yhat_upper]. *)
Variable prophet_forecast : posterior -> Z -> list (string * Q) -> Q * Q * Q.

(** What pandas makes of a start date that is no four-digit year within
    its bounds (see [date_range]). *)
Variable other_date_range : Z -> nat -> result (list Z).

(** *** Conversions and arithmetic of Python numbers *)

(** An [int] taken to float64: the nearest float, or [OverflowError]. *)
Definition int_to_float (n : Z) : result float :=
  match rnd (inject_Z n) with
  | Fin q => Ok (Fin q)
  | _ => Raise IntTooLarge
  end.

(** [float(v)] on a number *)
Definition as_float (v : pyval) : result float :=
  match v with
  | VInt n => int_to_float n
  | VFloat x => Ok x
  | _ => Raise OperandTypeError
  end.

(** Python's [a + b] and [a / b] on numbers. *)
Definition py_add (a b : pyval) : result pyval :=
  match a, b with
  | VInt x, VInt y => Ok (VInt (x + y))
  | _, _ => do x <- as_float a; do y <- as_float b; Ok (VFloat (fadd rnd x y))
  end.

Definition py_truediv (a b : pyval) : result pyval :=
  match a, b with
  | VInt x, VInt y =>
      if (y =? 0)%Z then Raise PyZeroDivision else
      match rnd (inject_Z x / inject_Z y)%Q with
      | Fin q => Ok (VFloat (Fin q))
      | _ => Raise IntTooLarge
      end
  | _, _ =>
      do x <- as_float a; do y <- as_float b;
      match y with
      | Fin d => if Qeq_bool d 0 then Raise PyZeroDivision
                 else Ok (VFloat (fdiv rnd x y))
      | _ => Ok (VFloat (fdiv rnd x y))
      end
  end.

(** NumPy's [round(x, 4)]: times 1e4, to the nearest integer (ties to
    even), divided by 1e4, each step in float64. *)
Definition round4 (x : float) : float :=
  match x with
  | Fin q =>
      match rnd (q * 10000)%Q with
      | Fin m => rnd (inject_Z (round_half_even m) / 10000)%Q
      | other => other
      end
  | other => other
  end.

(** [series.cumprod()] *)
Fixpoint cumprod_from (acc : float) (l : list float) : list float :=
  match l with
  | [] => []
  | x :: rest => fmul rnd acc x :: cumprod_from (fmul rnd acc x) rest
  end.

Definition cumprod (l : list float) : list float :=
  match l with
  | [] => []
  | x :: rest => x :: cumprod_from x rest
  end.

(** *** _create_future_dataframe (l.315-351) *)

(** [pd.date_range(start=f"{year}-01-01", periods=periods, freq='YS')], the
    year starts as years.  Pandas' nanosecond timestamps span 1677-09-21 to
    2262-04-11: a start from 1678 on whose periods end before 2262 gives the
    consecutive years.  A year of five digits or more is no date: the call
    raises.  Any other start (a shorter year such as [1-01-01], which pandas
    reads as a day of 2001; a negative one; a range that reaches 2262) is
    left to [other_date_range]. *)
Definition date_range (year : Z) (periods : nat) : result (list Z) :=
  if (1678 <=? year)%Z && (year + Z.of_nat periods <=? 2262)%Z
  then Ok (map (fun i => year + Z.of_nat i) (seq 0 periods))
  else if (10000 <=? year)%Z then Raise (DateParseError year)
  else other_date_range year periods.

Fixpoint check_numeric (initial : gmap string pyval) (cols : list string) : result unit :=
  match cols with
  | [] => Ok tt
  | col :: rest =>
      do v <- getitem initial col;
      if is_number v then check_numeric initial rest else Raise (WrongType col)
  end.

Definition encode_estado (self : UnifiedForecaster) (d : gmap string pyval) : result Z :=
  match encoder_estados self with
  | None => Raise (NoAttribute "transform")
  | Some enc => do estado <- getitem d "Estado"; LabelEncoder_transform enc estado
  end.

(** [predict] reaches this function with an [int] under [last_year]
    (l.283). *)
Definition _create_future_dataframe (self : UnifiedForecaster)
    (initial : gmap string pyval) (horizon : Z) : result (list FutureRow) :=
  guard check_numeric initial
    ["area_fazenda_ha"; "area_floresta_ha"; "prop_floresta"; "y"];
  do estado_code <- except_ValueError (encode_estado self initial) StateEncodingError;
  do last_year <- getitem initial "last_year";
  do start <- match last_year with
              | VInt n => Ok (n + 1)
              | _ => Raise OperandTypeError
              end;
  do dates <- date_range start (Z.to_nat (horizon + 1));
  let dates := firstn (Z.to_nat horizon) dates in
  do y <- rbind (getitem initial "y") as_float;
  do fazenda <- rbind (getitem initial "area_fazenda_ha") as_float;
  do floresta <- rbind (getitem initial "area_floresta_ha") as_float;
  do prop <- rbind (getitem initial "prop_floresta") as_float;
  do code <- rbind (getitem initial "estado_code") as_int;
  do estado <- getitem initial "Estado";
  do bioma <- getitem initial "bioma";
  Ok (map (fun d => {| f_ds := d; f_y := y; f_area_fazenda_ha := fazenda;
                       f_area_floresta_ha := floresta; f_prop_floresta := prop;
                       f_estado_code := code; f_Estado := estado;
                       f_bioma := bioma |}) dates).

(** The numeric cell of column [c], as the scaler reads it. *)
Definition future_cell (r : FutureRow) (c : string) : result float :=
  if bool_decide (c = "y") then Ok (f_y r)
  else if bool_decide (c = "area_fazenda_ha") then Ok (f_area_fazenda_ha r)
  else if bool_decide (c = "area_floresta_ha") then Ok (f_area_floresta_ha r)
  else if bool_decide (c = "prop_floresta") then Ok (f_prop_floresta r)
  else if bool_decide (c = "estado_code") then int_to_float (f_estado_code r)
  else if bool_decide (c ∈ future_columns) then Raise (SkNonNumeric c)
  else Raise (PyKeyError c).

(** *** predict (l.213-265) *)

(** l.221-222 *)
Definition check_horizon (horizon : pyval) : result Z :=
  match horizon with
  | VInt h => if (0 <? h)%Z then Ok h else Raise InvalidHorizon
  | _ => Raise InvalidHorizon
  end.

(** l.224-225 *)
Definition derive_estado_code (self : UnifiedForecaster) (ic : gmap string pyval)
  : result (gmap string pyval) :=
  if contains ic "estado_code" then Ok ic else
  do code <- encode_estado self ic;
  Ok (<["estado_code" := VInt code]> ic).

(** l.227-229 *)
Definition derive_prop_floresta (ic : gmap string pyval) : result (gmap string pyval) :=
  if contains ic "prop_floresta" then Ok ic else
  do fazenda <- getitem ic "area_fazenda_ha";
  do floresta <- getitem ic "area_floresta_ha";
  do total_area <- py_add fazenda floresta;
  do positive <- py_gt total_area 0;
  do prop <- (if positive then py_truediv floresta total_area else Ok (VFloat 0));
  Ok (<["prop_floresta" := prop]> ic).

(** [future[self.feature_columns]] *)
Definition select_features (cols : list string) (future : list FutureRow)
  : result (list (list float)) :=
  map_result (fun r => map_result (future_cell r) cols) future.

(** The value of a regressor in one row of the frame handed to Prophet:
    the frame holds [ds], [y] and the columns [cols]. *)
Definition regressor_cell (cols : list string) (y : float) (cells : list float)
    (name : string) : result float :=
  if bool_decide (name = "ds") then Raise (SkNonNumeric name)
  else if bool_decide (name = "y") then Ok y
  else match list_find (fun c => c = name) cols with
       | Some (j, _) => Ok (nth j cells NaN)
       | None => Raise (ProphetRegressorMissing name)
       end.

(** Prophet's [setup_dataframe] on the regressors, in the order of their
    registration: each must be a column and hold no NaN. *)
Fixpoint check_regressors (cols : list string) (frame : list (float * list float))
    (names : list string) : result unit :=
  match names with
  | [] => Ok tt
  | name :: rest =>
      if bool_decide (name ∉ "ds" :: "y" :: cols)
      then Raise (ProphetRegressorMissing name) else
      do column <- map_result (fun row => regressor_cell cols (fst row) (snd row) name)
                              frame;
      if existsb is_nan column then Raise (ProphetNaN name)
      else check_regressors cols frame rest
  end.

(** The regressors of one row as the engines take them. *)
Definition regressor_values (cols : list string) (names : list string)
    (y : float) (cells : list float) : result (list Q) :=
  map_result (fun name =>
                do x <- regressor_cell cols y cells name;
                match x with
                | Fin q => Ok q
                | _ => Raise ProphetFitFailed
                end) names.

(** [self.model.predict(future_processed)], one forecast row per frame row;
    the frame holds [ds], [y] and the scaled feature columns. *)
Definition Prophet_predict (m : Prophet) (cols : list string)
    (frame : list (Z * float * list float)) : result (list (Z * (Q * Q * Q))) :=
  match history m with
  | None => Raise ProphetNotFit
  | Some theta =>
      if existsb (fun row => is_inf (snd (fst row))) frame then Raise ProphetInfY else
      guard check_regressors cols (map (fun row => (snd (fst row), snd row)) frame)
                             (extra_regressors m);
      map_result (fun row =>
                    do xs <- regressor_values cols (extra_regressors m)
                                              (snd (fst row)) (snd row);
                    Ok (fst (fst row),
                        prophet_forecast theta (fst (fst row))
                                         (zip (extra_regressors m) xs)))
                 frame
  end.

(** [forecast.join(future[self.geo_columns])] followed by the selection of
    the columns [Estado] and [bioma] (l.241-243). *)
Definition check_geo (geo : list string) : result unit :=
  match List.filter (fun c => bool_decide (c ∉ future_columns)) geo with
  | c :: _ => Raise (PyKeyError c)
  | [] =>
      match List.filter (fun c => bool_decide (c ∉ geo)) ["Estado"; "bioma"] with
      | c :: _ => Raise (PyKeyError c)
      | [] => Ok tt
      end
  end.

(** l.250-261: projected areas, then [round(4)] on the numeric columns. *)
Definition project (initial_floresta initial_fazenda : float)
    (forecast : list (Z * (Q * Q * Q))) (future : list FutureRow) : list ForecastRow :=
  let rates := map (fun r => fst (fst (snd r))) forecast in
  let floresta := map (fun c => fmul rnd initial_floresta c)
                      (cumprod (map (fun y => fsub rnd (Fin 1) (Fin y)) rates)) in
  map (fun '(r, fl, fu) =>
         {| data := fst r;
            Estado := f_Estado fu;
            bioma := f_bioma fu;
            conversao_ha_prevista := round4 (Fin (fst (fst (snd r))));
            limite_inferior := round4 (Fin (snd (fst (snd r))));
            limite_superior := round4 (Fin (snd (snd r)));
            area_floresta_projetada := round4 fl;
            area_fazenda_projetada :=
              round4 (fadd rnd initial_fazenda (fsub rnd initial_floresta fl)) |})
      (zip (zip forecast floresta) future).

(** l.231-261 *)
Definition forecast_rows (self : UnifiedForecaster) (ic : gmap string pyval)
    (horizon : Z) : result (list ForecastRow) :=
  do future <- _create_future_dataframe self ic horizon;
  do ct <- match preprocessor self with
           | Some ct => Ok ct
           | None => Raise (NoAttribute "transform")
           end;
  do X <- select_features (feature_columns self) future;
  do scaled <- ColumnTransformer_transform ct X;
  do m <- match model self with
          | Some m => Ok m
          | None => Raise (NoAttribute "predict")
          end;
  do forecast <- Prophet_predict m (feature_columns self)
                   (zip (zip (map f_ds future) (map f_y future)) scaled);
  guard check_geo (geo_columns self);
  do initial_floresta <- rbind (getitem ic "area_floresta_ha") as_float;
  do initial_fazenda <- rbind (getitem ic "area_fazenda_ha") as_float;
  Ok (project initial_floresta initial_fazenda forecast future).

(** The body of the [try] block; the dictionary is updated in place. *)
Definition predict_try (self : UnifiedForecaster) (ic : gmap string pyval)
    (horizon : pyval) : result (list ForecastRow) * gmap string pyval :=
  match (guard _validate_inputs self ic; check_horizon horizon) with
  | inl e => (inl e, ic)
  | inr h =>
      match derive_estado_code self ic with
      | inl e => (inl e, ic)
      | inr ic1 =>
          match derive_prop_floresta ic1 with
          | inl e => (inl e, ic1)
          | inr ic2 => (forecast_rows self ic2 h, ic2)
          end
      end
  end.

(** [predict]: the result or the exception reaching the caller, the
    dictionary and the log after the call. *)
Definition predict (self : UnifiedForecaster) (initial_conditions : gmap string pyval)
    (horizon : pyval) (log : list log_record)
  : result (list ForecastRow) * gmap string pyval * list log_record :=
  if negb (contains initial_conditions "last_year")
  then (Raise LastYearRequired, initial_conditions, log)
  else
    match predict_try self initial_conditions horizon with
    | (inr rows, ic) => (Ok rows, ic, log)
    | (inl e, ic) =>
        let estado := default (VStr "Estado desconhecido") (ic !! "Estado") in
        (Raise (PredictionFailure e), ic, (log ++ [LogError estado e])%list)
    end.

(** *** Training frames and groupby *)

(** A [groupby([Estado, ds, bioma])] key; groups come out sorted by key. *)
Definition group_key : Type := string * Z * string.

Definition key_compare (a b : group_key) : comparison :=
  match String.compare (fst (fst a)) (fst (fst b)) with
  | Eq =>
      match Z.compare (snd (fst a)) (snd (fst b)) with
      | Eq => String.compare (snd a) (snd b)
      | c => c
      end
  | c => c
  end.

(** One pass of [groupby(...).agg(...)]: the row joins the group of its
    key, or opens a new group at the key's place in the order. *)
Fixpoint insert_group {A B : Type} (init : A -> B) (merge : B -> A -> B)
    (k : group_key) (r : A) (groups : list (group_key * B)) : list (group_key * B) :=
  match groups with
  | [] => [(k, init r)]
  | (k', acc) :: rest =>
      match key_compare k k' with
      | Eq => (k', merge acc r) :: rest
      | Lt => (k, init r) :: groups
      | Gt => (k', acc) :: insert_group init merge k r rest
      end
  end.

Definition groupby {A B : Type} (key : A -> group_key) (init : A -> B)
    (merge : B -> A -> B) (rows : list A) : list (group_key * B) :=
  fold_left (fun groups r => insert_group init merge (key r) r groups) rows [].

(** A row of the frame handed to [train]. *)
Record HistRow : Type := {
  h_ds : Z;
  h_y : float;
  h_Estado : string;
  h_bioma : string;
  h_area_fazenda_ha : float;
  h_area_floresta_ha : float
}.

Record DataFrame : Type := {
  columns : list string;
  rows : list HistRow
}.

(** A row of [df_grouped], then of [processed]. *)
Record GroupedRow : Type := {
  g_Estado : string;
  g_ds : Z;
  g_bioma : string;
  g_area_fazenda_ha : float;
  g_area_floresta_ha : float;
  g_y : float;
  g_prop_floresta : float;
  g_estado_code : float
}.

Definition col_order : list string :=
  ["ds"; "y"; "Estado"; "bioma"; "area_fazenda_ha"; "area_floresta_ha";
   "prop_floresta"; "estado_code"].

Definition grouped_cell (r : GroupedRow) (c : string) : result float :=
  if bool_decide (c = "y") then Ok (g_y r)
  else if bool_decide (c = "area_fazenda_ha") then Ok (g_area_fazenda_ha r)
  else if bool_decide (c = "area_floresta_ha") then Ok (g_area_floresta_ha r)
  else if bool_decide (c = "prop_floresta") then Ok (g_prop_floresta r)
  else if bool_decide (c = "estado_code") then Ok (g_estado_code r)
  else if bool_decide (c ∈ col_order) then Raise (SkNonNumeric c)
  else Raise (PyKeyError c).

Definition set_cell (r : GroupedRow) (c : string) (v : float) : GroupedRow := {|
  g_Estado := g_Estado r;
  g_ds := g_ds r;
  g_bioma := g_bioma r;
  g_area_fazenda_ha := if bool_decide (c = "area_fazenda_ha") then v else g_area_fazenda_ha r;
  g_area_floresta_ha := if bool_decide (c = "area_floresta_ha") then v else g_area_floresta_ha r;
  g_y := if bool_decide (c = "y") then v else g_y r;
  g_prop_floresta := if bool_decide (c = "prop_floresta") then v else g_prop_floresta r;
  g_estado_code := if bool_decide (c = "estado_code") then v else g_estado_code r
|}.

(** [processed[cols] = values], row by row *)
Definition set_cells (cols : list string) (r : GroupedRow) (values : list float) : GroupedRow :=
  fold_left (fun acc cv => set_cell acc (fst cv) (snd cv)) (zip cols values) r.

(** *** The scaler *)

(** [StandardScaler] statistics of one column, taken over its values that
    are not NaN: the mean and the scale (the standard deviation, or 1
    where that is zero). *)
Variable column_stats : list Q -> Q * Q.

Definition matrix_columns (n : nat) (X : list (list float)) : list (list float) :=
  map (fun j => map (fun row => nth j row NaN) X) (seq 0 n).

(** [preprocessor.fit_transform(features)] *)
Definition ColumnTransformer_fit_transform (cols : list string) (X : list (list float))
  : result (ColumnTransformer * list (list float)) :=
  match X with
  | [] => Raise SkEmptyInput
  | _ :: _ =>
      if has_inf X then Raise SkNonFinite else
      let params := map (fun col => column_stats (finite_values col))
                        (matrix_columns (length cols) X) in
      let ct := {| fitted := Some params |} in
      do scaled <- ColumnTransformer_transform ct X;
      Ok (ct, scaled)
  end.

(** *** preprocess_data (l.81-147) *)

Definition required_cols : list string :=
  ["ds"; "y"; "Estado"; "area_floresta_ha"; "area_fazenda_ha"; "bioma"].

(** l.94: infinities to NaN, NaN to 0 *)
Definition clean_y (y : float) : float :=
  match y with
  | Fin q => Fin q
  | _ => Fin 0
  end.

(** l.97-101: sum of the areas (NaN skipped), first rate *)
Definition group_rows (rs : list HistRow) : list (group_key * (float * float * float)) :=
  groupby (fun r => (h_Estado r, h_ds r, h_bioma r))
          (fun r => (nanadd (Fin 0) (h_area_fazenda_ha r),
                     nanadd (Fin 0) (h_area_floresta_ha r),
                     clean_y (h_y r)))
          (fun acc r => (nanadd (fst (fst acc)) (h_area_fazenda_ha r),
                         nanadd (snd (fst acc)) (h_area_floresta_ha r),
                         snd acc))
          rs.

(** l.104 *)
Definition total_area (g : group_key * (float * float * float)) : float :=
  fadd exact (fst (fst (snd g))) (snd (fst (snd g))).

(** l.105: the asserted condition *)
Definition areas_valid (groups : list (group_key * (float * float * float))) : bool :=
  negb (existsb (fun g => fle (total_area g) (Fin 0)) groups).

(** l.108-118: one grouped row with its proportion and state code *)
Definition derive_row (enc : LabelEncoder) (g : group_key * (float * float * float))
  : result GroupedRow :=
  do code <- LabelEncoder_transform enc (VStr (fst (fst (fst g))));
  Ok {| g_Estado := fst (fst (fst g));
        g_ds := snd (fst (fst g));
        g_bioma := snd (fst g);
        g_area_fazenda_ha := fst (fst (snd g));
        g_area_floresta_ha := snd (fst (snd g));
        g_y := snd (snd g);
        g_prop_floresta :=
          if flt (Fin 0) (total_area g)
          then fdiv exact (snd (fst (snd g))) (total_area g) else Fin 0;
        g_estado_code := Fin (inject_Z code) |}.

(** l.117-121 *)
Definition encode_states (enc : LabelEncoder)
    (groups : list (group_key * (float * float * float)))
  : result (list GroupedRow) :=
  match map_result (derive_row enc) groups with
  | inr rs => Ok rs
  | inl e =>
      if is_ValueError e then
        match classes_ enc with
        | Some _ => Raise (StatesNotMapped e)
        | None => Raise (NoAttribute "classes_")
        end
      else Raise e
  end.

(** l.124-132 *)
Definition scale_features (self : UnifiedForecaster) (grouped : list GroupedRow)
  : result (ColumnTransformer * list GroupedRow) :=
  except_Exception
    (do X <- map_result (fun r => map_result (grouped_cell r) (feature_columns self)) grouped;
     match preprocessor self with
     | None => Raise (NoAttribute "fit_transform")
     | Some ct =>
         do fit <- (if has_mean_ ct
                    then do scaled <- ColumnTransformer_transform ct X; Ok (ct, scaled)
                    else ColumnTransformer_fit_transform (feature_columns self) X);
         Ok (fst fit,
             map (fun rv => set_cells (feature_columns self) (fst rv) (snd rv))
                 (zip grouped (snd fit)))
     end)
    ScalingFailure.

Definition preprocess_data (self : UnifiedForecaster) (df : DataFrame)
  : result (list GroupedRow) * UnifiedForecaster :=
  if bool_decide ("y" ∉ columns df) then (Raise MissingTarget, self) else
  match List.filter (fun c => bool_decide (c ∉ columns df)) required_cols with
  | (_ :: _) as missing => (Raise (MissingColumns missing), self)
  | [] =>
      let groups := group_rows (rows df) in
      if negb (areas_valid groups) then (Raise InvalidArea, self) else
      match encoder_estados self with
      | None => (Raise EncoderNotConfigured, self)
      | Some enc =>
          match encode_states enc groups with
          | inl e => (inl e, self)
          | inr grouped =>
              match scale_features self grouped with
              | inl e => (inl e, self)
              | inr (ct, processed) => (Ok processed, set_preprocessor self ct)
              end
          end
      end
  end.

(** *** train (l.175-211) *)

(** [model.add_regressor(col)] *)
Definition Prophet_add_regressor (m : Prophet) (col : string) : result Prophet :=
  match history m with
  | Some _ => Raise ProphetRegressorAfterFit
  | None => Ok {| extra_regressors := extra_regressors m ++ [col];
                  history := history m |}
  end.

(** l.201-203 *)
Fixpoint add_regressors (m : Prophet) (cols : list string) : result Prophet :=
  match cols with
  | [] => Ok m
  | col :: rest =>
      if bool_decide (col ∈ extra_regressors m) then add_regressors m rest
      else do m' <- Prophet_add_regressor m col; add_regressors m' rest
  end.

(** The cells of a processed row under the columns [cols]. *)
Definition grouped_cells (cols : list string) (r : GroupedRow) : result (list float) :=
  map_result (grouped_cell r) cols.

(** [model.fit(frame)]; the frame has [ds], [y] and the columns [cols].
    Prophet drops the rows whose [y] is NaN, wants two rows at least and no
    infinite [y], checks the regressors, then samples. *)
Definition Prophet_fit (m : Prophet) (cols : list string) (frame : list GroupedRow)
  : result Prophet :=
  match history m with
  | Some _ => Raise ProphetFitOnce
  | None =>
      let hist := List.filter (fun r => negb (is_nan (g_y r))) frame in
      if (length hist <? 2)%nat then Raise ProphetTooFewRows else
      if existsb (fun r => is_inf (g_y r)) hist then Raise ProphetInfY else
      do cells <- map_result (fun r => do xs <- grouped_cells cols r; Ok (g_y r, xs)) hist;
      guard check_regressors cols cells (extra_regressors m);
      do data <- map_result (fun r =>
                   do xs <- grouped_cells cols r;
                   do vs <- regressor_values cols (extra_regressors m) (g_y r) xs;
                   match g_y r with
                   | Fin y => Ok (g_ds r, y, vs)
                   | _ => Raise ProphetFitFailed
                   end) hist;
      match prophet_sample (extra_regressors m) data with
      | Some theta => Ok {| extra_regressors := extra_regressors m;
                            history := Some theta |}
      | None => Raise ProphetFitFailed
      end
  end.

(** The body of the [try] block, with the instance as it stands when the
    block is left. *)
Definition train_try (self : UnifiedForecaster) (df : DataFrame)
  : result unit * UnifiedForecaster :=
  match preprocess_data self df with
  | (inl e, self1) => (inl e, self1)
  | (inr df_processed, self1) =>
      match List.filter (fun c => bool_decide (c ∉ col_order))
                   ("ds" :: "y" :: feature_columns self1) with
      | (_ :: _) as missing => (Raise (ColumnsMissingAfter missing), self1)
      | [] =>
          let feature_cols :=
            List.filter (fun c => bool_decide (c ∈ col_order)) (feature_columns self1) in
          match model self1 with
          | None => (Raise (NoAttribute "extra_regressors"), self1)
          | Some m =>
              match add_regressors m feature_cols with
              | inl e => (inl e, self1)
              | inr m1 =>
                  match Prophet_fit m1 feature_cols df_processed with
                  | inl e => (inl e, set_model self1 m1)
                  | inr m2 => (Ok tt, set_is_trained (set_model self1 m2) true)
                  end
              end
          end
      end
  end.

Definition train (self : UnifiedForecaster) (df : DataFrame)
  : result unit * UnifiedForecaster :=
  match train_try self df with
  | (inr tt, self') => (Ok tt, self')
  | (inl e, self') => (Raise (TrainingFailure e), set_is_trained self' false)
  end.

(** *** save_model and load_model (l.378-441) *)

(** The dictionary written by [joblib.dump]; [artifacts.get(k)] is [None]
    for a key the file does not hold. *)
Record Artifact : Type := {
  a_model : option Prophet;
  a_preprocessor : option ColumnTransformer;
  a_encoder_estados : option LabelEncoder;
  a_feature_columns : option (list string);
  a_geo_columns : option (list string);
  a_states_trained : list string
}.

Inductive file : Type :=
| Pickled (a : Artifact)
| Garbage.

Definition save_model (self : UnifiedForecaster) (output_path : string)
    (fs : gmap string file) : result unit * gmap string file :=
  if negb (is_trained self) then (Raise ModelNotTrained, fs) else
  match model self, preprocessor self, encoder_estados self with
  | None, _, _ => (Raise (ArtifactUnavailable "model"), fs)
  | _, None, _ => (Raise (ArtifactUnavailable "preprocessor"), fs)
  | _, _, None => (Raise (ArtifactUnavailable "encoder_estados"), fs)
  | Some m, Some ct, Some enc =>
      match classes_ enc with
      | None => (Raise (NoAttribute "classes_"), fs)
      | Some cs =>
          (Ok tt,
           <[output_path := Pickled {|
               a_model := Some m;
               a_preprocessor := Some ct;
               a_encoder_estados := Some enc;
               a_feature_columns := Some (feature_columns self);
               a_geo_columns := Some (geo_columns self);
               a_states_trained := cs |}]> fs)
      end
  end.

(** [joblib.load(model_path)] *)
Definition joblib_load (model_path : string) (fs : gmap string file) : result Artifact :=
  match fs !! model_path with
  | None => Raise OsFileNotFound
  | Some Garbage => Raise CorruptArtifact
  | Some (Pickled a) => Ok a
  end.

(** [hasattr(forecaster.preprocessor, 'transform')]: every
    [ColumnTransformer] has the method, fitted or not; [None] has not. *)
Definition has_transform (p : option ColumnTransformer) : bool :=
  match p with
  | Some _ => true
  | None => false
  end.

(** l.412-437, the body of the [try] block *)
Definition load_model_try (model_path : string) (fs : gmap string file)
  : result UnifiedForecaster :=
  do artifacts <- joblib_load model_path fs;
  let forecaster := {|
    model := a_model artifacts;
    feature_columns := default [] (a_feature_columns artifacts);
    geo_columns := default [] (a_geo_columns artifacts);
    preprocessor := a_preprocessor artifacts;
    is_trained := is_trained __init__;
    encoder_estados := a_encoder_estados artifacts |} in
  match encoder_estados forecaster with
  | None => Raise EncoderNotFound
  | Some _ =>
      if has_transform (preprocessor forecaster)
      then Ok (set_is_trained forecaster true)
      else Raise PreprocessorNotFitted
  end.

Definition load_model (model_path : string) (fs : gmap string file)
  : result UnifiedForecaster :=
  match load_model_try model_path fs with
  | inr forecaster => Ok forecaster
  | inl e =>
      match class_of e with
      | FileNotFoundError => Raise (ModelFileNotFound model_path)
      | _ => Raise (LoadFailure e)
      end
  end.

(** *** The training driver (train_time_series.py, main l.57-118) *)

(** A row of the land-use table. *)
Record LandUseRow : Type := {
  l_Estado : string;
  l_ano : Z;
  l_bioma : string;
  l_area_fazenda_ha : float;
  l_area_floresta_ha : float;
  l_taxa_conversao_anual : float
}.

(** [series.clip(lower=lo)]: NaN stays NaN. *)
Definition clip_lower (lo : Q) (x : float) : float :=
  if flt x (Fin lo) then Fin lo else x.

(** l.64-65 *)
Definition clip_areas (r : LandUseRow) : LandUseRow := {|
  l_Estado := l_Estado r;
  l_ano := l_ano r;
  l_bioma := l_bioma r;
  l_area_fazenda_ha := clip_lower (1 # 10000) (l_area_fazenda_ha r);
  l_area_floresta_ha := clip_lower (1 # 10000) (l_area_floresta_ha r);
  l_taxa_conversao_anual := l_taxa_conversao_anual r
|}.

(** What the aggregation of l.68-72 keeps of a group: the two sums of areas
    (NaN skipped), and for [np.average] the sum of the weights and the sum
    of the weighted rates (NaN not skipped). *)
Record LandUseSums : Type := {
  s_area_fazenda_ha : float;
  s_area_floresta_ha : float;
  s_weights : float;
  s_weighted : float
}.

Definition first_sums (r : LandUseRow) : LandUseSums := {|
  s_area_fazenda_ha := nanadd (Fin 0) (l_area_fazenda_ha r);
  s_area_floresta_ha := nanadd (Fin 0) (l_area_floresta_ha r);
  s_weights := l_area_fazenda_ha r;
  s_weighted := fmul exact (l_taxa_conversao_anual r) (l_area_fazenda_ha r)
|}.

Definition more_sums (acc : LandUseSums) (r : LandUseRow) : LandUseSums := {|
  s_area_fazenda_ha := nanadd (s_area_fazenda_ha acc) (l_area_fazenda_ha r);
  s_area_floresta_ha := nanadd (s_area_floresta_ha acc) (l_area_floresta_ha r);
  s_weights := fadd exact (s_weights acc) (l_area_fazenda_ha r);
  s_weighted := fadd exact (s_weighted acc)
                     (fmul exact (l_taxa_conversao_anual r) (l_area_fazenda_ha r))
|}.

(** l.68-72 *)
Definition group_landuse (rs : list LandUseRow) : list (group_key * LandUseSums) :=
  groupby (fun r => (l_Estado r, l_ano r, l_bioma r)) first_sums more_sums rs.

(** [np.average(x, weights=w)] on one group: an error when the weights
    sum to zero (a NaN sum does not compare equal to zero), else the
    quotient; then the renamed row. *)
Definition zero_weights (w : float) : bool :=
  match w with
  | Fin q => Qeq_bool q 0
  | _ => false
  end.

Definition aggregate_row (g : group_key * LandUseSums) : result HistRow :=
  if zero_weights (s_weights (snd g)) then Raise ZeroWeights else
  Ok {| h_ds := snd (fst (fst g));
        h_y := fdiv exact (s_weighted (snd g)) (s_weights (snd g));
        h_Estado := fst (fst (fst g));
        h_bioma := snd (fst g);
        h_area_fazenda_ha := s_area_fazenda_ha (snd g);
        h_area_floresta_ha := s_area_floresta_ha (snd g) |}.

Definition driver_columns : list string :=
  ["Estado"; "ds"; "bioma"; "area_fazenda_ha"; "area_floresta_ha"; "y"].

(** [pd.to_datetime(ds, format='%Y')] on a column of years: four digits,
    within the span of pandas' nanosecond timestamps. *)
Definition to_datetime_year (ano : Z) : result Z :=
  if (1678 <=? ano)%Z && (ano <=? 2262)%Z then Ok ano
  else Raise (DateParseError ano).

(** l.22-48 *)
Definition _validate_input_data (df : DataFrame) : result unit :=
  match List.filter (fun c => bool_decide (c ∉ columns df))
               ["ds"; "y"; "Estado"; "bioma"; "area_fazenda_ha"; "area_floresta_ha"] with
  | (_ :: _) as missing => Raise (MissingColumns missing)
  | [] =>
      if existsb (fun r => is_nan (h_area_floresta_ha r) || is_nan (h_area_fazenda_ha r))
                 (rows df)
      then Raise NaNAreas else
      if existsb (fun r => flt (h_area_floresta_ha r) (Fin 0)
                           || flt (h_area_fazenda_ha r) (Fin 0))
                 (rows df)
      then Raise NegativeAreas else
      match map_result (fun r => to_datetime_year (h_ds r)) (rows df) with
      | inl e => if is_ValueError e then Raise (InvalidDateFormat e) else Raise e
      | inr _ => Ok tt
      end
  end.

(** [sorted(set(names))], the classes of a fitted [LabelEncoder] *)
Fixpoint insert_sorted (s : string) (l : list string) : list string :=
  match l with
  | [] => [s]
  | x :: rest =>
      match String.compare s x with
      | Eq => l
      | Lt => s :: l
      | Gt => x :: insert_sorted s rest
      end
  end.

Definition LabelEncoder_fit (names : list string) : LabelEncoder :=
  {| classes_ := Some (fold_right insert_sorted [] names) |}.

(** [series.unique()]: first occurrences, in order *)
Fixpoint unique (l : list string) : list string :=
  match l with
  | [] => []
  | x :: rest => x :: List.filter (fun y => bool_decide (y ≠ x)) (unique rest)
  end.

Definition SIGLAS_ESTADOS : list (string * string) :=
  [("Acre", "AC"); ("Alagoas", "AL"); ("Amapá", "AP"); ("Amazonas", "AM");
   ("Bahia", "BA"); ("Ceará", "CE"); ("Distrito Federal", "DF");
   ("Espírito Santo", "ES"); ("Goiás", "GO"); ("Maranhão", "MA");
   ("Mato Grosso", "MT"); ("Mato Grosso do Sul", "MS"); ("Minas Gerais", "MG");
   ("Pará", "PA"); ("Paraíba", "PB"); ("Paraná", "PR"); ("Pernambuco", "PE");
   ("Piauí", "PI"); ("Rio de Janeiro", "RJ"); ("Rio Grande do Norte", "RN");
   ("Rio Grande do Sul", "RS"); ("Rondônia", "RO"); ("Roraima", "RR");
   ("Santa Catarina", "SC"); ("São Paulo", "SP"); ("Sergipe", "SE");
   ("Tocantins", "TO")].

Definition sigla_of (estado : string) : string :=
  default "XX" (snd <$> find (fun p => bool_decide (fst p = estado)) SIGLAS_ESTADOS).

(** l.64-78: the grouped, validated frame *)
Definition driver_frame (raw : list LandUseRow) : result DataFrame :=
  do rs <- map_result aggregate_row (group_landuse (map clip_areas raw));
  let df := {| columns := driver_columns; rows := rs |} in
  guard _validate_input_data df;
  Ok df.
(** l.103-104: the frame of one state, with its [estado_code] column *)
Definition state_frame (df : DataFrame) (estado : string) : DataFrame := {|
  columns := columns df ++ ["estado_code"];
  rows := List.filter (fun r => bool_decide (h_Estado r = estado)) (rows df)
|}.

(** The frames handed to [forecaster.train], state by state (l.95-106). *)
Definition training_frames (raw : list LandUseRow) : result (list (string * DataFrame)) :=
  do df <- driver_frame raw;
  Ok (map (fun estado => (estado, state_frame df estado))
          (unique (map h_Estado (rows df)))).

(** l.95-111: the loop; it stops at the first exception. *)
Fixpoint train_states (estado_encoder : LabelEncoder)
    (frames : list (string * DataFrame)) (fs : gmap string file)
  : result unit * gmap string file :=
  match frames with
  | [] => (Ok tt, fs)
  | (estado, df_estado) :: rest =>
      let forecaster := set_encoder __init__ estado_encoder in
      match LabelEncoder_transform estado_encoder (VStr estado) with
      | inl e => (inl e, fs)
      | inr _ =>
          match train forecaster df_estado with
          | (inl e, _) => (inl e, fs)
          | (inr _, forecaster') =>
              let output_path :=
                "eco_guardian/models/saved_models/unified_prophet_v4_"
                ++ sigla_of estado ++ ".pkl" in
              match save_model forecaster' output_path fs with
              | (inl e, fs') => (inl e, fs')
              | (inr _, fs') => train_states estado_encoder rest fs'
              end
          end
      end
  end.

(** [main]: the exit status and the files written. *)
Definition main (raw : list LandUseRow) (fs : gmap string file) : Z * gmap string file :=
  match training_frames raw with
  | inl _ => (1, fs)
  | inr frames =>
      let estado_encoder := LabelEncoder_fit (map fst frames) in
      match train_states estado_encoder frames fs with
      | (inl _, fs') => (1, fs')
      | (inr _, fs') => (0, fs')
      end
  end.

End Forecaster.
(** ** Further functions of the module *)

(** *** _validate_init (l.66-71), called at the end of [__init__] *)

Inductive init_error : Type :=
| FeaturesMissing (missing : list string).   (* ValueError, l.71 *)

Definition required_features : list string :=
  ["area_fazenda_ha"; "area_floresta_ha"; "prop_floresta"; "estado_code"].

Definition _validate_init (self : UnifiedForecaster) : init_error + unit :=
  match List.filter (fun f => bool_decide (f ∉ feature_columns self)) required_features with
  | [] => inr tt
  | (_ :: _) as missing => inl (FeaturesMissing missing)
  end.

(** ** A concrete instance

    Engines that compute, and a small history of the state of Acre; the
    examples below run the embedding on them. *)

(** The exponent [e] of a rational that is not zero:
    [2^e <= |x| < 2^(e+1)]. *)
Definition ilog2 (x : Q) : Z :=
  let e0 := Z.log2 (Z.abs (Qnum x)) - Z.log2 (Zpos (Qden x)) in
  if Qle_bool (2 ^ e0) (Qabs x) then e0 else e0 - 1.

(** Float64 rounding: 53 significant bits above the exponent -1022, the
    multiples of 2^-1074 below; ties to even; an infinity from 2^1024 on. *)
Definition binary64 (x : Q) : float :=
  if Qeq_bool x 0 then Fin 0 else
  let e := Z.max (ilog2 x) (-1022) in
  let quantum := (2 ^ (e - 52))%Q in
  let r := Qred (inject_Z (round_half_even (x / quantum)) * quantum) in
  if Qle_bool (2 ^ 1024) (Qabs r) then signed_inf (Qltb x 0) else Fin r.

(** The float64 written as the decimal [q]. *)
Definition float64 (q : Q) : Q :=
  match binary64 q with
  | Fin r => r
  | _ => 0%Q
  end.

(** A stand-in for pandas on short years: the year 1 read as 2001, any
    other start refused. *)
Definition short_years (year : Z) (periods : nat) : result (list Z) :=
  if (year =? 1)%Z then Ok (map (fun i => 2001 + Z.of_nat i) (seq 0 periods))
  else Raise (DateParseError year).

Definition mean_stats (col : list Q) : Q * Q :=
  (Qred (fold_right Qplus 0%Q col / inject_Z (Z.of_nat (length col))), 1%Q).

Definition sample_ok (names : list string) (data : list (Z * Q * list Q))
  : option posterior := Some [].

Definition sample_fails (names : list string) (data : list (Z * Q * list Q))
  : option posterior := None.

Definition forecast_one_percent (theta : posterior) (ds : Z)
    (regressors : list (string * Q)) : Q * Q * Q :=
  (float64 (1 # 100), float64 (-1 # 100), float64 (3 # 100)).

Definition two_states : LabelEncoder := LabelEncoder_fit ["Bahia"; "Acre"].

Definition acre_history : DataFrame := {|
  columns := driver_columns;
  rows := [ {| h_ds := 2022; h_y := Fin (1 # 100); h_Estado := "Acre";
               h_bioma := "Amazônia"; h_area_fazenda_ha := Fin 90000;
               h_area_floresta_ha := Fin 910000 |};
            {| h_ds := 2023; h_y := Fin (2 # 100); h_Estado := "Acre";
               h_bioma := "Amazônia"; h_area_fazenda_ha := Fin 100000;
               h_area_floresta_ha := Fin 900000 |} ]
|}.

Definition bahia_history : DataFrame := {|
  columns := driver_columns;
  rows := [ {| h_ds := 2023; h_y := Fin (3 # 100); h_Estado := "Bahia";
               h_bioma := "Cerrado"; h_area_fazenda_ha := Fin 500;
               h_area_floresta_ha := Fin 1500 |} ]
|}.

(** The forecaster after [train] on the history of Acre. *)
Definition acre_forecaster : UnifiedForecaster :=
  snd (train sample_ok mean_stats (set_encoder __init__ two_states) acre_history).

(** The six keys of the inference input contract. *)
Definition acre_six_keys : gmap string pyval :=
  list_to_map
    [("Estado", VStr "Acre"); ("bioma", VStr "Amazônia");
     ("area_fazenda_ha", VInt 100000); ("area_floresta_ha", VInt 900000);
     ("y", VFloat (float64 (1 # 100))); ("last_year", VInt 2023)].

(** The same with the two derived fields supplied by the caller. *)
Definition acre_conditions : gmap string pyval :=
  <["estado_code" := VInt 0]>
    (<["prop_floresta" := VFloat (float64 (9 # 10))]> acre_six_keys).

(** The forecast of the trained forecaster for two years. *)
Definition acre_rows : list ForecastRow :=
  match fst (fst (predict binary64 forecast_one_percent short_years
                          acre_forecaster acre_conditions (VInt 2) [])) with
  | inr rows => rows
  | inl _ => []
  end.

(** A land-use table with a municipality whose areas are both zero. *)
Definition landuse_sample : list LandUseRow :=
  [ {| l_Estado := "Acre"; l_ano := 2022; l_bioma := "Amazônia";
       l_area_fazenda_ha := Fin 0; l_area_floresta_ha := Fin 0;
       l_taxa_conversao_anual := Fin (1 # 100) |};
    {| l_Estado := "Acre"; l_ano := 2023; l_bioma := "Amazônia";
       l_area_fazenda_ha := Fin 10; l_area_floresta_ha := Fin 90;
       l_taxa_conversao_anual := Fin (2 # 100) |};
    {| l_Estado := "Bahia"; l_ano := 2022; l_bioma := "Cerrado";
       l_area_fazenda_ha := Fin 400; l_area_floresta_ha := Fin 1600;
       l_taxa_conversao_anual := Fin (1 # 100) |};
    {| l_Estado := "Bahia"; l_ano := 2023; l_bioma := "Cerrado";
       l_area_fazenda_ha := Fin 500; l_area_floresta_ha := Fin 1500;
       l_taxa_conversao_anual := NaN |} ].

Definition landuse_frames : list (string * DataFrame) :=
  match training_frames landuse_sample with
  | inr frames => frames
  | inl _ => []
  end.


(** An artifact file whose scaler was never fitted. *)
Definition unfitted_artifact : Artifact := {|
  a_model := model acre_forecaster;
  a_preprocessor := Some {| fitted := None |};
  a_encoder_estados := Some two_states;
  a_feature_columns := Some (feature_columns __init__);
  a_geo_columns := Some (geo_columns __init__);
  a_states_trained := ["Acre"; "Bahia"]
|}.

Definition models_dir : gmap string file :=
  {[ "unified_prophet_v4_AC.pkl" := Pickled unfitted_artifact ]}.

(** The forecaster left by a second [train] on the trained one. *)
Definition acre_retrained : UnifiedForecaster :=
  snd (train sample_ok mean_stats acre_forecaster acre_history).

(** The files after saving the trained forecaster, and after the driver. *)
Definition acre_saved : gmap string file :=
  snd (save_model acre_forecaster "acre.pkl" models_dir).

Definition landuse_run : gmap string file :=
  snd (main sample_ok mean_stats landuse_sample models_dir).

(** The conditions of Acre with the state replaced by Bahia. *)
Definition bahia_conditions : gmap string pyval :=
  <["Estado" := VStr "Bahia"]> acre_conditions.

(** Conditions that [_validate_inputs] accepts and [predict] cannot serve:
    a last year whose successor has five digits, and a forest area that is
    NaN. *)
Definition far_conditions : gmap string pyval :=
  <["last_year" := VInt 9999]> acre_conditions.

Definition nan_conditions : gmap string pyval :=
  <["area_floresta_ha" := VFloat NaN]> acre_conditions.

(** The conditions of Acre with a farmland of 2^60 ha, where one unit in
    the last place of a float64 is 256 ha. *)
Definition wide_conditions : gmap string pyval :=
  <["area_fazenda_ha" := VFloat 1152921504606846976]> acre_conditions.



(** The same forecast when no operation rounds. *)
Definition acre_rows_exact : list ForecastRow :=
  match fst (fst (predict exact forecast_one_percent short_years
                          acre_forecaster acre_conditions (VInt 2) [])) with
  | inr rows => rows
  | inl _ => []
  end.
(** ** Predicates of the statements *)

(** The components [predict] relies on are in place. *)
Definition operational (s : UnifiedForecaster) : Prop :=
  feature_columns s = feature_columns __init__ /\
  geo_columns s = geo_columns __init__ /\
  (exists cs, encoder_estados s = Some {| classes_ := Some cs |}) /\
  (exists params,
     preprocessor s = Some {| fitted := Some params |} /\ length params = 4%nat) /\
  (exists theta,
     model s = Some {| extra_regressors := feature_columns __init__;
                       history := Some theta |}).

(** The file at [path] is an artifact holding the encoder [enc], a
    preprocessor and a fitted model. *)
Definition holds_trained_artifact (enc : LabelEncoder) (fs : gmap string file)
    (path : string) : Prop :=
  exists a m theta,
    fs !! path = Some (Pickled a) /\
    a_encoder_estados a = Some enc /\
    a_preprocessor a <> None /\
    a_model a = Some m /\ history m = Some theta.

(** The path the driver saves the model of a state to (l.109). *)
Definition artifact_path (estado : string) : string :=
  "eco_guardian/models/saved_models/unified_prophet_v4_" ++ sigla_of estado ++ ".pkl".

(** Half the gap between a float64 and the next, relative to its size
    (2^-53), and half the smallest float64 (2^-1075). *)
Definition unit_roundoff : Q := 1 # 9007199254740992.
Definition tiniest : Q := (1 # 2) ^ 1075.

(** [rnd] rounds to a nearest float64: a finite result is within half a
    unit in the last place of the exact value. *)
Definition nearest_float (rnd : Q -> float) : Prop :=
  forall x r, rnd x = Fin r ->
    (Qabs (r - x) <= unit_roundoff * Qabs x + tiniest)%Q.

(** How far the two projected areas [f] and [g] of a row may be from the
    initial total [a + b]: the two roundings to four places, and the
    float64 roundings of the sums, which grow with the areas. *)
Definition conservation_tolerance (a b f g : Q) : Q :=
  ((1001 # 10000000)
   + (1 # 1125899906842624) * (Qabs a + Qabs b + Qabs f + Qabs g)
   + 16 * tiniest)%Q.

(** The share of the forest left after the years 0 to [i]: the product of
    [1 - rate] over those years, taken from the first year on. *)
Definition compounded (rnd : Q -> float) (rates : list Q) (i : nat) : float :=
  match map (fun y => fsub rnd (Fin 1) (Fin y)) (firstn (S i) rates) with
  | [] => NaN
  | x :: rest => fold_left (fmul rnd) rest x
  end.

(** A float that is not NaN and at least [lo]. *)
Definition at_least (lo : Q) (x : float) : Prop := fle (Fin lo) x = true.



(** Every cell of the regressor columns [names] is a finite number. *)
Definition regressors_finite (cols names : list string) (y : float) (cells : list float)
  : Prop :=
  forall name, In name names -> exists q, regressor_cell cols y cells name = Ok (Fin q).

(** The numeric inputs that pass [_validate_inputs] and still stop a
    prediction are excluded: an infinite [y] (refused by Prophet), a feature
    that is NaN (Prophet) or infinite (the scaler), a state code beyond
    float64. *)
Definition finite_conditions (rnd : Q -> float) (ic : gmap string pyval) : Prop :=
  (exists y, rbind (getitem ic "y") (as_float rnd) = Ok y /\ is_inf y = false) /\
  forall k, In k (feature_columns __init__) ->
    exists q, rbind (getitem ic k) (as_float rnd) = Ok (Fin q).

(** The years [date_range] is asked for lie within the bounds of pandas'
    timestamps: the [horizon + 1] years from [last_year + 1] on. *)
Definition years_in_range (ic : gmap string pyval) (h : Z) : Prop :=
  exists ly, ic !! "last_year" = Some (VInt ly) /\
             (1678 <= ly + 1)%Z /\ (ly + h + 2 <= 2262)%Z.

(** A number that no comparison finds below [lo] (above [hi]): an [int]
    or a float on the right side of the bound, an infinity included, or
    NaN, which every comparison lets through. *)
Definition not_below (lo : Q) (v : pyval) : Prop :=
  match v with
  | VInt n => (lo <= inject_Z n)%Q
  | VFloat x => is_nan x = true \/ fle (Fin lo) x = true
  | _ => False
  end.

Definition not_above (hi : Q) (v : pyval) : Prop :=
  match v with
  | VInt n => (inject_Z n <= hi)%Q
  | VFloat x => is_nan x = true \/ fle x (Fin hi) = true
  | _ => False
  end.




(** What the direction of the projection asks of the rounding, and
    rounding to nearest gives: it keeps the order, and leaves 0, 1 and its
    own results as they are. *)
Definition monotone_rounding (rnd : Q -> float) : Prop :=
  (forall x y, (x <= y)%Q -> fle (rnd x) (rnd y) = true) /\
  rnd 0%Q = Fin 0 /\ rnd 1%Q = Fin 1 /\
  (forall x r, rnd x = Fin r -> rnd r = Fin r).

(** A float64 between two bounds. *)
Definition float_between (rnd : Q -> float) (lo hi : Q) (x : float) : Prop :=
  exists q, x = Fin q /\ (lo <= q <= hi)%Q /\ rnd q = Fin q.
(** ** Properties *)

Section Properties.

Variable rnd : Q -> float.
Variable prophet_sample : list string -> list (Z * Q * list Q) -> option posterior.
Variable prophet_forecast : posterior -> Z -> list (string * Q) -> Q * Q * Q.
Variable other_date_range : Z -> nat -> result (list Z).
Variable column_stats : list Q -> Q * Q.

(** *** The wrapper of [predict] *)

Lemma predict_without_last_year self ic horizon log :
  contains ic "last_year" = false ->
  predict rnd prophet_forecast other_date_range self ic horizon log = (Raise LastYearRequired, ic, log).
Proof. intros H. unfold predict. rewrite H. reflexivity. Qed.

Lemma predict_with_last_year self ic horizon log :
  contains ic "last_year" = true ->
  predict rnd prophet_forecast other_date_range self ic horizon log =
    match predict_try rnd prophet_forecast other_date_range self ic horizon with
    | (inr rows, ic') => (Ok rows, ic', log)
    | (inl e, ic') =>
        (Raise (PredictionFailure e), ic',
         (log ++ [LogError (default (VStr "Estado desconhecido") (ic' !! "Estado")) e])%list)
    end.
Proof. intros H. unfold predict. rewrite H. reflexivity. Qed.

(** *** A fresh instance *)

Lemma fresh_future_frame_fails ic horizon :
  exists e, _create_future_dataframe rnd other_date_range __init__ ic horizon = inl e.
Proof.
  unfold _create_future_dataframe.
  destruct (check_numeric ic _) as [e|[]]; simpl; eauto.
Qed.

Lemma fresh_predict_try_fails ic horizon :
  exists e ic', predict_try rnd prophet_forecast other_date_range __init__ ic horizon = (inl e, ic').
Proof.
  unfold predict_try.
  destruct (rbind _ _) as [e|h]; [eauto|].
  destruct (derive_estado_code __init__ ic) as [e|ic1]; [eauto|].
  destruct (derive_prop_floresta rnd ic1) as [e|ic2]; [eauto|].
  unfold forecast_rows.
  destruct (fresh_future_frame_fails ic2 h) as [e He].
  rewrite He. simpl. eauto.
Qed.

(** C7 (as amended): on a freshly constructed forecaster [predict] never
    returns a forecast, whatever the inputs.  The exception is either the
    bare [ValueError] for a missing [last_year], or a [PredictionFailure]
    wrapping the first failure met (a validation failure, or the
    [AttributeError] of the unset encoder); it is never a lifecycle error. *)
Theorem fresh_predict_always_raises ic horizon log :
  exists e ic' log',
    predict rnd prophet_forecast other_date_range __init__ ic horizon log = (Raise e, ic', log') /\
    is_state_error e = false /\
    (e = LastYearRequired \/ exists e0, e = PredictionFailure e0).
Proof.
  destruct (contains ic "last_year") eqn:Hly.
  - rewrite predict_with_last_year by assumption.
    destruct (fresh_predict_try_fails ic horizon) as (e & ic' & He).
    rewrite He. do 3 eexists. split; [reflexivity|]. split; [reflexivity|].
    right. eauto.
  - rewrite predict_without_last_year by assumption.
    do 3 eexists. split; [reflexivity|]. split; [reflexivity|]. left. reflexivity.
Qed.

(** C8 (as amended): once [last_year] is present, every failure of
    [predict] (those of [_validate_inputs] included) reaches the caller as a
    [PredictionFailure] whose cause is the original exception, after one
    error record naming the region and that exception has been logged. *)
Theorem predict_failures_wrapped_and_logged self ic horizon log e ic' log' :
  contains ic "last_year" = true ->
  predict rnd prophet_forecast other_date_range self ic horizon log = (Raise e, ic', log') ->
  exists e0,
    predict_try rnd prophet_forecast other_date_range self ic horizon = (inl e0, ic') /\
    e = PredictionFailure e0 /\
    cause_of e = Some e0 /\
    log' = (log ++ [LogError (default (VStr "Estado desconhecido") (ic' !! "Estado")) e0])%list.
Proof.
  intros Hly H. rewrite predict_with_last_year in H by assumption.
  destruct (predict_try rnd prophet_forecast other_date_range self ic horizon) as [[e0|rows] ic2].
  - injection H as <- <- <-. exists e0. repeat split.
  - discriminate H.
Qed.

(** *** Validation *)

Lemma validate_ok_keys self ic :
  _validate_inputs self ic = Ok tt ->
  forall k, In k (required_keys self) -> contains ic k = true.
Proof.
  unfold _validate_inputs. intros H k Hk.
  destruct (missing_keys self ic) eqn:Hm; [|discriminate H].
  destruct (contains ic k) eqn:Hc; [reflexivity|].
  assert (Hin : In k (missing_keys self ic)).
  { apply List.filter_In. rewrite Hc. auto. }
  rewrite Hm in Hin. destruct Hin.
Qed.

(** A mapping without a derived field is stopped at l.270-272. *)
Lemma validate_requires_features self inputs k :
  In k (feature_columns self) ->
  contains inputs k = false ->
  exists missing,
    _validate_inputs self inputs = Raise (InputsMissing missing) /\ In k missing.
Proof.
  intros Hk Hc.
  assert (Hin : In k (missing_keys self inputs)).
  { apply List.filter_In. rewrite Hc. split; [|reflexivity].
    unfold required_keys. apply in_or_app. auto. }
  unfold _validate_inputs.
  destruct (missing_keys self inputs) as [|m ms]; [destruct Hin|].
  eexists. split; [reflexivity|assumption].
Qed.

(** Once validation has passed, l.224-229 change nothing: the branches
    that would derive [estado_code] and [prop_floresta] are not taken. *)
Lemma derived_fields_never_computed self ic :
  In "estado_code" (feature_columns self) ->
  In "prop_floresta" (feature_columns self) ->
  _validate_inputs self ic = Ok tt ->
  derive_estado_code self ic = Ok ic /\ derive_prop_floresta rnd ic = Ok ic.
Proof.
  intros H1 H2 Hv.
  unfold derive_estado_code, derive_prop_floresta.
  rewrite !(validate_ok_keys self ic Hv); [split; reflexivity| |];
    unfold required_keys; apply in_or_app; auto.
Qed.

(** *** train *)

Lemma preprocess_data_keeps_model self df :
  model (snd (preprocess_data column_stats self df)) = model self /\
  feature_columns (snd (preprocess_data column_stats self df)) = feature_columns self /\
  geo_columns (snd (preprocess_data column_stats self df)) = geo_columns self /\
  encoder_estados (snd (preprocess_data column_stats self df)) = encoder_estados self.
Proof.
  unfold preprocess_data.
  destruct (bool_decide _); [simpl; auto|].
  destruct (List.filter _ required_cols); [|simpl; auto].
  destruct (negb _); [simpl; auto|].
  destruct (encoder_estados self) as [enc|] eqn:Henc; [|simpl; auto].
  destruct (encode_states enc _) as [e|grouped]; [simpl; auto|].
  destruct (scale_features column_stats self grouped) as [e|[ct processed]];
    simpl; auto.
Qed.

(** What the [try] block of [train] never touches. *)
Lemma train_try_keeps_configuration self df :
  feature_columns (snd (train_try prophet_sample column_stats self df))
    = feature_columns self /\
  geo_columns (snd (train_try prophet_sample column_stats self df))
    = geo_columns self /\
  encoder_estados (snd (train_try prophet_sample column_stats self df))
    = encoder_estados self.
Proof.
  unfold train_try.
  pose proof (preprocess_data_keeps_model self df) as (_ & Hfc & Hgc & Henc).
  destruct (preprocess_data column_stats self df) as [[e|processed] self1];
    simpl in Hfc, Hgc, Henc; [simpl; auto|].
  destruct (List.filter _ ("ds" :: "y" :: feature_columns self1)); [|simpl; auto].
  destruct (model self1) as [m|]; [|simpl; auto].
  destruct (add_regressors m _) as [e|m1]; [simpl; auto|].
  destruct (Prophet_fit prophet_sample m1 _ processed) as [e|m2]; simpl; auto.
Qed.

(** C5 (as amended): whenever [train] raises, the instance is left with
    [is_trained] false and with the feature columns, geographic columns and
    encoder it had, and the exception is the [RuntimeError] built from the
    original one: its message embeds the original message, and the original
    exception is attached to it as its context only, l.211 having no
    [from e]: it has no cause.  Nothing is said of the scaler and of the
    model, which a failed call may have changed. *)
Theorem train_failure_leaves_untrained self df e self' :
  train prophet_sample column_stats self df = (Raise e, self') ->
  is_trained self' = false /\
  feature_columns self' = feature_columns self /\
  geo_columns self' = geo_columns self /\
  encoder_estados self' = encoder_estados self /\
  exists e0,
    fst (train_try prophet_sample column_stats self df) = Raise e0 /\
    e = TrainingFailure e0 /\
    class_of e = RuntimeError /\
    context_of e = Some e0 /\
    cause_of e = None.
Proof.
  unfold train.
  pose proof (train_try_keeps_configuration self df) as (Hfc & Hgc & Henc).
  destruct (train_try prophet_sample column_stats self df) as [[e0|[]] s]; intros H.
  - injection H as <- <-. simpl in *.
    split; [reflexivity|]. split; [assumption|]. split; [assumption|].
    split; [assumption|].
    exists e0. repeat split.
  - discriminate H.
Qed.

Lemma add_regressors_history cols : forall m m',
  add_regressors m cols = Ok m' -> history m' = history m.
Proof.
  induction cols as [|c cols IH]; intros m m' H; simpl in H.
  - injection H as <-. reflexivity.
  - destruct (bool_decide _); [eauto|].
    unfold Prophet_add_regressor in H.
    destruct (history m) eqn:Hh; [discriminate H|].
    simpl in H. apply IH in H. simpl in H. congruence.
Qed.

(** A model that has been fitted is never fitted again: the [try] block of
    [train] cannot complete. *)
Lemma train_try_fitted_fails self df m theta :
  model self = Some m ->
  history m = Some theta ->
  exists e self', train_try prophet_sample column_stats self df = (inl e, self').
Proof.
  intros Hm Hh. unfold train_try.
  pose proof (preprocess_data_keeps_model self df) as (Hmodel & _).
  destruct (preprocess_data column_stats self df) as [[e|processed] self1]; [eauto|].
  simpl in Hmodel.
  destruct (List.filter _ ("ds" :: "y" :: feature_columns self1)); [|eauto].
  rewrite Hmodel, Hm.
  destruct (add_regressors m _) as [e|m1] eqn:Ha; [eauto|].
  apply add_regressors_history in Ha.
  unfold Prophet_fit. rewrite Ha, Hh. eauto.
Qed.

(** C6 (as amended): [train] has no lifecycle guard.  On an instance whose
    model is already fitted the call never succeeds, but it is the engine's
    refusal (or an earlier failure) that surfaces, as a [TrainingFailure]
    and not as a state error, and the instance ends with [is_trained] false. *)
Theorem retrain_fails_as_training_failure self df m theta :
  model self = Some m ->
  history m = Some theta ->
  exists e0 self',
    train prophet_sample column_stats self df = (Raise (TrainingFailure e0), self') /\
    is_trained self' = false /\
    is_state_error (TrainingFailure e0) = false.
Proof.
  intros Hm Hh.
  destruct (train_try_fitted_fails self df m theta Hm Hh) as (e & s & He).
  unfold train. rewrite He. do 2 eexists. repeat split.
Qed.

(** A successful [train] marks the instance trained and leaves its model
    fitted, so the lemma above applies to it. *)
Lemma Prophet_fit_ok_inv m cols frame m2 :
  Prophet_fit prophet_sample m cols frame = inr m2 ->
  history m = None /\
  exists theta, m2 = {| extra_regressors := extra_regressors m; history := Some theta |}.
Proof.
  unfold Prophet_fit.
  destruct (history m); [discriminate|].
  destruct (_ <? 2)%nat; [discriminate|].
  destruct (existsb _ _); [discriminate|].
  destruct (map_result _ _) as [e|cells]; [discriminate|]. cbn [rbind].
  destruct (check_regressors _ cells _) as [e|[]]; [discriminate|]. cbn [rbind].
  destruct (map_result _ _) as [e|data]; [discriminate|]. cbn [rbind].
  destruct (prophet_sample _ data) as [theta|]; [|discriminate].
  intros H. injection H as <-. eauto.
Qed.

Lemma train_success_fits_model self df self' :
  train prophet_sample column_stats self df = (Ok tt, self') ->
  is_trained self' = true /\
  exists m theta, model self' = Some m /\ history m = Some theta.
Proof.
  unfold train, train_try.
  destruct (preprocess_data column_stats self df) as [[e|processed] self1];
    [discriminate|].
  destruct (List.filter _ ("ds" :: "y" :: feature_columns self1)); [|discriminate].
  destruct (model self1) as [m|]; [|discriminate].
  destruct (add_regressors m _) as [e|m1]; [discriminate|].
  destruct (Prophet_fit prophet_sample m1 _ processed) as [e|m2] eqn:Hfit;
    [discriminate|].
  apply Prophet_fit_ok_inv in Hfit as (_ & theta & ->).
  intros H. injection H as <-. simpl. eauto.
Qed.

(** *** load_model *)

Lemma load_without_encoder path fs a :
  fs !! path = Some (Pickled a) ->
  a_encoder_estados a = None ->
  load_model path fs = Raise (LoadFailure EncoderNotFound).
Proof.
  intros Hf He. unfold load_model, load_model_try, joblib_load.
  rewrite Hf. simpl. rewrite He. reflexivity.
Qed.

Lemma load_without_preprocessor path fs a enc :
  fs !! path = Some (Pickled a) ->
  a_encoder_estados a = Some enc ->
  a_preprocessor a = None ->
  load_model path fs = Raise (LoadFailure PreprocessorNotFitted).
Proof.
  intros Hf He Hp. unfold load_model, load_model_try, joblib_load.
  rewrite Hf. simpl. rewrite He, Hp. reflexivity.
Qed.

(** C9 (the code against the claim): an artifact whose scaler was never
    fitted is loaded without error and the instance is marked trained; the
    test of l.431 only asks whether the object has a [transform] method. *)
Theorem load_accepts_unfitted_scaler path fs a enc :
  fs !! path = Some (Pickled a) ->
  a_encoder_estados a = Some enc ->
  a_preprocessor a = Some {| fitted := None |} ->
  exists forecaster,
    load_model path fs = Ok forecaster /\
    is_trained forecaster = true /\
    preprocessor forecaster = Some {| fitted := None |}.
Proof.
  intros Hf He Hp. unfold load_model, load_model_try, joblib_load.
  rewrite Hf. simpl. rewrite He, Hp. simpl.
  eexists. split; [reflexivity|]. simpl. auto.
Qed.

(** *** Rounding and the projected areas *)

Lemma round_half_even_error (x : Q) :
  (Qabs (inject_Z (round_half_even x) - x) <= 1 # 2)%Q.
Proof.
  unfold round_half_even.
  pose proof (Qfloor_le x) as Hlo.
  pose proof (Qlt_floor x) as Hhi.
  rewrite inject_Z_plus in Hhi. change (inject_Z 1) with 1%Q in Hhi.
  apply Qabs_Qle_condition.
  destruct (Qcompare (x - inject_Z (Qfloor x)) (1 # 2)) eqn:Hc.
  - apply Qeq_alt in Hc.
    destruct (Z.even (Qfloor x));
      [|rewrite inject_Z_plus; change (inject_Z 1) with 1%Q]; split; lra.
  - apply Qlt_alt in Hc. split; lra.
  - apply Qgt_alt in Hc. rewrite inject_Z_plus.
    change (inject_Z 1) with 1%Q. split; lra.
Qed.

Lemma tiniest_nonneg : (0 <= tiniest)%Q.
Proof. vm_compute. discriminate. Qed.

(** The sign facts that turn an absolute value into linear constraints. *)
Lemma Qabs_bounds (x : Q) :
  (x <= Qabs x /\ - x <= Qabs x /\ (Qabs x <= x \/ Qabs x <= - x))%Q.
Proof.
  pose proof (Qle_Qabs x) as H1.
  pose proof (Qle_Qabs (- x)) as H2. rewrite Qabs_opp in H2.
  split; [assumption|]. split; [assumption|].
  destruct (Qlt_le_dec x 0) as [Hneg|Hpos].
  - right. rewrite (Qabs_neg x) by lra. lra.
  - left. rewrite (Qabs_pos x) by assumption. lra.
Qed.

Ltac qabs x :=
  let H1 := fresh "Habs" in
  let H2 := fresh "Habs" in
  let H3 := fresh "Habs" in
  destruct (Qabs_bounds x) as (H1 & H2 & [H3|H3]).

Ltac qabs_le x :=
  let H1 := fresh "Habs" in
  let H2 := fresh "Habs" in
  destruct (Qabs_bounds x) as (H1 & H2 & _).

Lemma round4_finite_inv x r :
  round4 rnd x = Fin r ->
  exists q m, x = Fin q /\ rnd (q * 10000)%Q = Fin m /\
              rnd (inject_Z (round_half_even m) / 10000)%Q = Fin r.
Proof.
  unfold round4. destruct x as [q| | |]; try discriminate.
  destruct (rnd (q * 10000)%Q) as [m| | |] eqn:Hm; try discriminate.
  intros H. exists q, m. auto.
Qed.

(** [round(4)] in float64: half of 1e-4, and the float roundings of the
    two scalings. *)
Lemma round4_error q r :
  nearest_float rnd ->
  round4 rnd (Fin q) = Fin r ->
  (Qabs (r - q) <= (1 # 19999) + 3 * unit_roundoff * Qabs q + 3 * tiniest)%Q.
Proof.
  intros Hn H.
  apply round4_finite_inv in H as (q' & m & [= <-] & Hm & Hr).
  pose proof (Hn _ _ Hm) as E1. pose proof (Hn _ _ Hr) as E2.
  pose proof (round_half_even_error m) as E3.
  pose proof tiniest_nonneg as Ht.
  set (k := inject_Z (round_half_even m)) in *.
  unfold unit_roundoff in *.
  unfold Qdiv in *. change (/ 10000)%Q with (1 # 10000)%Q in *.
  qabs_le (m - q * 10000)%Q. qabs_le (r - k * (1 # 10000))%Q. qabs_le (k - m)%Q.
  qabs (q * 10000)%Q; qabs (k * (1 # 10000))%Q; qabs q;
    apply Qabs_Qle_condition; split; lra.
Qed.
Ltac bind_inv H :=
  unfold Ok, Raise in H;
  repeat match type of H with
         | rbind ?r _ = inr _ =>
             let E := fresh "E" in
             destruct r eqn:E; simpl in H; [discriminate H|]
         end.

Lemma derive_estado_code_lookup self ic ic1 k :
  derive_estado_code self ic = Ok ic1 ->
  k <> "estado_code" -> ic1 !! k = ic !! k.
Proof.
  unfold derive_estado_code. intros H Hk.
  destruct (contains ic "estado_code").
  - injection H as <-. reflexivity.
  - bind_inv H. injection H as <-. rewrite lookup_insert_ne; auto.
Qed.

Lemma derive_prop_floresta_lookup ic ic1 k :
  derive_prop_floresta rnd ic = Ok ic1 ->
  k <> "prop_floresta" -> ic1 !! k = ic !! k.
Proof.
  unfold derive_prop_floresta. intros H Hk.
  destruct (contains ic "prop_floresta").
  - injection H as <-. reflexivity.
  - bind_inv H. injection H as <-. rewrite lookup_insert_ne; auto.
Qed.

Lemma getitem_after_derive self ic ic1 ic2 k :
  derive_estado_code self ic = Ok ic1 ->
  derive_prop_floresta rnd ic1 = Ok ic2 ->
  k <> "estado_code" -> k <> "prop_floresta" ->
  getitem ic2 k = getitem ic k.
Proof.
  intros H1 H2 Hk1 Hk2. unfold getitem.
  rewrite (derive_prop_floresta_lookup ic1 ic2 k H2 Hk2).
  rewrite (derive_estado_code_lookup self ic ic1 k H1 Hk1).
  reflexivity.
Qed.

Lemma predict_ok_inv self ic horizon log rows ic' log' :
  predict rnd prophet_forecast other_date_range self ic horizon log = (Ok rows, ic', log') ->
  exists h ic1,
    rbind (_validate_inputs self ic) (fun _ => check_horizon horizon) = Ok h /\
    derive_estado_code self ic = Ok ic1 /\
    derive_prop_floresta rnd ic1 = Ok ic' /\
    forecast_rows rnd prophet_forecast other_date_range self ic' h = Ok rows /\
    log' = log.
Proof.
  unfold predict. destruct (negb _); [discriminate|].
  destruct (predict_try rnd prophet_forecast other_date_range self ic horizon) as [[e|rows0] ic2] eqn:Ht;
    [discriminate|].
  intros H. injection H as <- <- <-.
  unfold predict_try in Ht.
  destruct (rbind (_validate_inputs self ic) _) as [e|h] eqn:Hv; [discriminate|].
  destruct (derive_estado_code self ic) as [e|ic1] eqn:H1; [discriminate|].
  destruct (derive_prop_floresta rnd ic1) as [e|ic3] eqn:H2; [discriminate|].
  injection Ht as Hf <-. exists h, ic1. repeat split; assumption.
Qed.

Lemma fadd_finite_inv round a b r :
  fadd round a b = Fin r ->
  exists x y, a = Fin x /\ b = Fin y /\ round (x + y)%Q = Fin r.
Proof.
  destruct a as [x| | |], b as [y| | |]; simpl; try discriminate. eauto.
Qed.

Lemma fsub_finite_inv round a b r :
  fsub round a b = Fin r ->
  exists x y, a = Fin x /\ b = Fin y /\ round (x + - y)%Q = Fin r.
Proof.
  unfold fsub. intros H. apply fadd_finite_inv in H as (x & y & -> & Hb & Hr).
  destruct b as [z| | |]; simpl in Hb; try discriminate.
  injection Hb as <-. eauto.
Qed.

(** The two projected areas of a row against the initial total. *)
Lemma project_row_conserves a b F f g :
  nearest_float rnd ->
  round4 rnd F = Fin f ->
  round4 rnd (fadd rnd (Fin a) (fsub rnd (Fin b) F)) = Fin g ->
  (Qabs (f + g - (a + b)) <= conservation_tolerance a b f g)%Q.
Proof.
  intros Hn Hf Hg.
  destruct (round4_finite_inv _ _ Hf) as (F' & _ & -> & _ & _).
  destruct (round4_finite_inv _ _ Hg) as (G' & _ & HG & _ & _).
  rewrite HG in Hg.
  apply fadd_finite_inv in HG as (a' & D' & [= <-] & HD & HG).
  apply fsub_finite_inv in HD as (b' & F'' & [= <-] & [= <-] & HD).
  pose proof (round4_error _ _ Hn Hf) as E1.
  pose proof (round4_error _ _ Hn Hg) as E2.
  pose proof (Hn _ _ HG) as E3. pose proof (Hn _ _ HD) as E4.
  pose proof tiniest_nonneg as Ht.
  unfold conservation_tolerance, unit_roundoff in *.
  qabs_le (f - F')%Q. qabs_le (g - G')%Q.
  qabs_le (G' - (a + D'))%Q. qabs_le (D' - (b + - F'))%Q.
  qabs_le a. qabs_le b. qabs_le f. qabs_le g.
  qabs F'; qabs G'; qabs (a + D')%Q; qabs (b + - F')%Q;
    apply Qabs_Qle_condition; split; lra.
Qed.

(** The running product of [cumprod] is the product of the prefix. *)
Lemma cumprod_from_lookup l : forall acc i x,
  l !! i = Some x ->
  cumprod_from rnd acc l !! i = Some (fold_left (fmul rnd) (firstn (S i) l) acc).
Proof.
  induction l as [|y l IH]; intros acc i x H; [discriminate H|].
  destruct i as [|i]; simpl.
  - reflexivity.
  - simpl in H. rewrite (IH _ _ _ H). reflexivity.
Qed.

Lemma cumprod_lookup l i x :
  l !! i = Some x ->
  cumprod rnd l !! i =
    match firstn (S i) l with
    | [] => None
    | y :: rest => Some (fold_left (fmul rnd) rest y)
    end.
Proof.
  destruct l as [|y l]; [discriminate|].
  destruct i as [|i]; simpl; [reflexivity|].
  intros H. rewrite (cumprod_from_lookup _ _ _ _ H). reflexivity.
Qed.

Lemma compounded_lookup rates i y :
  rates !! i = Some y ->
  cumprod rnd (map (fun y => fsub rnd (Fin 1) (Fin y)) rates) !! i
  = Some (compounded rnd rates i).
Proof.
  intros H.
  assert (Hf : map (fun y => fsub rnd (Fin 1) (Fin y)) rates !! i
               = Some (fsub rnd (Fin 1) (Fin y))).
  { change (map ?f ?l) with (f <$> l). rewrite list_lookup_fmap, H. reflexivity. }
  rewrite (cumprod_lookup _ _ _ Hf). unfold compounded.
  rewrite <- List.firstn_map.
  destruct (firstn (S i) (map _ rates)) as [|x rest] eqn:E; [|reflexivity].
  destruct rates; discriminate.
Qed.

(** What [project] puts in the row of year [i]. *)
Lemma project_lookup initial_floresta initial_fazenda forecast future i row :
  project rnd initial_floresta initial_fazenda forecast future !! i = Some row ->
  let rates := map (fun r => fst (fst (snd r))) forecast in
  let forest := fmul rnd initial_floresta (compounded rnd rates i) in
  (exists y, rates !! i = Some y /\ conversao_ha_prevista row = round4 rnd (Fin y)) /\
  area_floresta_projetada row = round4 rnd forest /\
  area_fazenda_projetada row =
    round4 rnd (fadd rnd initial_fazenda (fsub rnd initial_floresta forest)).
Proof.
  unfold project. intros H.
  change (map ?f ?l) with (f <$> l) in H at 1.
  rewrite list_lookup_fmap in H.
  destruct (zip (zip forecast _) future !! i) as [[[r fl] fu]|] eqn:Hz;
    [|discriminate H].
  injection H as <-.
  apply lookup_zip_with_Some in Hz as (rf & fu' & Heq & Hrf & _).
  injection Heq as <- <-.
  apply lookup_zip_with_Some in Hrf as (r' & fl' & Heq & Hr & Hfl).
  injection Heq as <- <-.
  assert (Hy : map (fun r => fst (fst (snd r))) forecast !! i
               = Some (fst (fst (snd r)))).
  { change (map ?f ?l) with (f <$> l). rewrite list_lookup_fmap, Hr. reflexivity. }
  change (map ?f (cumprod rnd ?l)) with (f <$> cumprod rnd l) in Hfl.
  rewrite list_lookup_fmap, (compounded_lookup _ _ _ Hy) in Hfl.
  injection Hfl as <-.
  cbn [conversao_ha_prevista area_floresta_projetada area_fazenda_projetada].
  split; [eauto|]. split; reflexivity.
Qed.

(** C3 (as amended): in a successful [predict] the row of year [i] holds,
    rounded to four places, the initial forest area times the product of
    [1 - rate] over the years up to [i], and the initial farmland plus the
    forest lost.  Their sum misses the initial total of the two areas by no
    more than the two roundings to four places and the float64 roundings of
    the sums, which grow with the areas. *)
Theorem projected_areas_conserved self ic horizon log rows ic' log' :
  nearest_float rnd ->
  predict rnd prophet_forecast other_date_range self ic horizon log = (Ok rows, ic', log') ->
  exists fazenda floresta rates,
    rbind (getitem ic "area_fazenda_ha") (as_float rnd) = Ok fazenda /\
    rbind (getitem ic "area_floresta_ha") (as_float rnd) = Ok floresta /\
    forall i row, rows !! i = Some row ->
      (exists y, rates !! i = Some y /\
                 conversao_ha_prevista row = round4 rnd (Fin y)) /\
      area_floresta_projetada row =
        round4 rnd (fmul rnd floresta (compounded rnd rates i)) /\
      area_fazenda_projetada row =
        round4 rnd (fadd rnd fazenda
                      (fsub rnd floresta (fmul rnd floresta (compounded rnd rates i)))) /\
      forall a b f g,
        fazenda = Fin a -> floresta = Fin b ->
        area_floresta_projetada row = Fin f ->
        area_fazenda_projetada row = Fin g ->
        (Qabs (f + g - (a + b)) <= conservation_tolerance a b f g)%Q.
Proof.
  intros Hn H.
  apply predict_ok_inv in H as (h & ic1 & _ & H1 & H2 & Hf & _).
  unfold forecast_rows in Hf. bind_inv Hf.
  injection Hf as <-.
  repeat match goal with
         | E : rbind (getitem ic' _) (as_float rnd) = _ |- _ =>
             rewrite (getitem_after_derive self ic ic1 ic') in E
               by (assumption || discriminate)
         end.
  do 3 eexists. split; [eassumption|]. split; [eassumption|].
  intros i row Hrow.
  apply project_lookup in Hrow as (Hy & Hfl & Hfa).
  split; [exact Hy|]. split; [exact Hfl|]. split; [exact Hfa|].
  intros a b f' g' -> -> Hf' Hg'.
  rewrite Hfl in Hf'. rewrite Hfa in Hg'.
  exact (project_row_conserves _ _ _ _ _ Hn Hf' Hg').
Qed.

(** *** groupby and the area floor of the driver *)

Lemma insert_group_Forall {A B : Type} (init : A -> B) (merge : B -> A -> B)
    (R : A -> Prop) (P : B -> Prop) (k : group_key) (r : A) :
  (forall a, R a -> P (init a)) ->
  (forall acc a, P acc -> R a -> P (merge acc a)) ->
  R r ->
  forall groups,
    Forall (fun g => P (snd g)) groups ->
    Forall (fun g => P (snd g)) (insert_group init merge k r groups).
Proof.
  intros Hinit Hmerge Hr groups. induction groups as [|[k' acc] rest IH]; intros HF.
  - simpl. constructor; [apply Hinit; assumption|constructor].
  - simpl. inversion HF as [|? ? Hacc Hrest]; subst.
    destruct (key_compare k k').
    + constructor; [apply Hmerge; assumption|assumption].
    + constructor; [apply Hinit; assumption|assumption].
    + constructor; [assumption|apply IH; assumption].
Qed.

Lemma groupby_Forall {A B : Type} (key : A -> group_key) (init : A -> B)
    (merge : B -> A -> B) (R : A -> Prop) (P : B -> Prop) :
  (forall a, R a -> P (init a)) ->
  (forall acc a, P acc -> R a -> P (merge acc a)) ->
  forall rs, Forall R rs -> Forall (fun g => P (snd g)) (groupby key init merge rs).
Proof.
  intros Hinit Hmerge rs HR. unfold groupby.
  assert (Hgen : forall groups,
    Forall (fun g => P (snd g)) groups ->
    Forall (fun g => P (snd g))
      (fold_left (fun groups r => insert_group init merge (key r) r groups) rs groups)).
  { induction HR as [|r rs Hr _ IH]; intros groups HF; simpl; [assumption|].
    apply IH. apply (insert_group_Forall init merge R P); assumption. }
  apply Hgen. constructor.
Qed.

Lemma map_result_In {A B : Type} (f : A -> result B) (l : list A) : forall bs,
  map_result f l = inr bs ->
  forall b, In b bs -> exists a, In a l /\ f a = inr b.
Proof.
  induction l as [|a l IH]; intros bs H b Hb; simpl in H.
  - injection H as <-. destruct Hb.
  - bind_inv H. injection H as <-. destruct Hb as [<-|Hb].
    + exists a. split; [left; reflexivity|assumption].
    + destruct (IH _ eq_refl b Hb) as (a' & Ha' & Hf).
      exists a'. split; [right; assumption|assumption].
Qed.

Lemma map_result_error {A B : Type} (f : A -> result B) (l : list A) e :
  map_result f l = inl e -> exists a, In a l /\ f a = inl e.
Proof.
  induction l as [|a l IH]; simpl; [discriminate|].
  destruct (f a) as [e'|b] eqn:Hf; simpl.
  - intros H. injection H as <-. exists a. auto.
  - destruct (map_result f l) as [e'|bs]; simpl; [|discriminate].
    intros H. injection H as <-.
    destruct (IH eq_refl) as (a' & Ha' & Hf'). exists a'. auto.
Qed.

(** *** Sums of areas *)

Lemma at_least_inv lo x :
  at_least lo x -> x = PInf \/ exists q, x = Fin q /\ (lo <= q)%Q.
Proof.
  unfold at_least. destruct x as [q| | |]; simpl; try discriminate; [|auto].
  intros H. right. exists q. split; [reflexivity|]. apply Qle_bool_iff. assumption.
Qed.

Lemma at_least_Fin lo q : (lo <= q)%Q -> at_least lo (Fin q).
Proof. intros H. apply Qle_bool_iff. assumption. Qed.

Lemma at_least_weaken lo lo' x : (lo' <= lo)%Q -> at_least lo x -> at_least lo' x.
Proof.
  intros Hle H. apply at_least_inv in H as [->|(q & -> & Hq)]; [reflexivity|].
  apply at_least_Fin. lra.
Qed.

Lemma at_least_not_nan lo x : at_least lo x -> is_nan x = false.
Proof. intros H. apply at_least_inv in H as [->|(q & -> & _)]; reflexivity. Qed.

Lemma fadd_at_least la lb a b :
  at_least la a -> at_least lb b -> at_least (la + lb) (fadd exact a b).
Proof.
  intros Ha Hb.
  apply at_least_inv in Ha as [->|(x & -> & Hx)];
    apply at_least_inv in Hb as [->|(y & -> & Hy)]; try reflexivity.
  simpl. apply at_least_Fin. lra.
Qed.

Lemma nanadd_at_least la lb acc x :
  at_least la acc -> at_least lb x -> at_least (la + lb) (nanadd acc x).
Proof.
  intros Ha Hx. unfold nanadd. rewrite (at_least_not_nan _ _ Hx).
  apply fadd_at_least; assumption.
Qed.

(** A sum keeps its floor when a NaN is skipped or a value that is not
    negative is added. *)
Lemma nanadd_keeps lo acc x :
  at_least lo acc -> is_nan x = true \/ at_least 0 x -> at_least lo (nanadd acc x).
Proof.
  intros Ha [Hx|Hx]; unfold nanadd.
  - rewrite Hx. assumption.
  - apply (at_least_weaken (lo + 0)); [lra|]. apply nanadd_at_least; assumption.
Qed.


Lemma clip_lower_class lo x :
  is_nan (clip_lower lo x) = is_nan x /\
  (is_nan x = false -> at_least lo (clip_lower lo x)).
Proof.
  unfold clip_lower. destruct x as [q| | |]; simpl; try (split; [reflexivity|]).
  - unfold Qltb. destruct (Qle_bool lo q) eqn:H; simpl; split; try reflexivity; intros _.
    + apply at_least_Fin. apply Qle_bool_iff. assumption.
    + apply at_least_Fin. apply Qle_refl.
  - discriminate.
  - intros _. reflexivity.
  - intros _. apply at_least_Fin. apply Qle_refl.
Qed.





Lemma weaken_floor z :
  is_nan z = true \/ at_least (1 # 10000) z -> is_nan z = true \/ at_least 0 z.
Proof.
  intros [Hz|Hz]; [left; assumption|right].
  apply (at_least_weaken (1 # 10000)); [lra|assumption].
Qed.


Lemma aggregate_row_areas g r :
  aggregate_row g = inr r ->
  h_area_fazenda_ha r = s_area_fazenda_ha (snd g) /\
  h_area_floresta_ha r = s_area_floresta_ha (snd g) /\
  h_Estado r = fst (fst (fst g)) /\ h_ds r = snd (fst (fst g)) /\
  h_bioma r = snd (fst g).
Proof.
  unfold aggregate_row. destruct (zero_weights _); [discriminate|].
  intros H. injection H as <-. repeat split.
Qed.







(** *** From a successful [train] to a forecaster that can predict *)

Lemma map_result_length {A B : Type} (f : A -> result B) (l : list A) : forall bs,
  map_result f l = inr bs -> length bs = length l.
Proof.
  induction l as [|a l IH]; intros bs H; simpl in H.
  - injection H as <-. reflexivity.
  - bind_inv H. injection H as <-. simpl. f_equal. apply IH. reflexivity.
Qed.

Lemma encode_states_fitted enc g groups grouped :
  encode_states enc (g :: groups) = inr grouped ->
  exists cs, classes_ enc = Some cs.
Proof.
  unfold encode_states. simpl.
  unfold derive_row at 1, LabelEncoder_transform.
  destruct (classes_ enc) as [cs|]; [eauto|].
  simpl. discriminate.
Qed.

Lemma default_columns_after :
  List.filter (fun c => bool_decide (c ∉ col_order))
              ("ds" :: "y" :: feature_columns __init__) = [].
Proof. vm_compute. reflexivity. Qed.

Lemma default_feature_cols :
  List.filter (fun c => bool_decide (c ∈ col_order)) (feature_columns __init__)
  = feature_columns __init__.
Proof. vm_compute. reflexivity. Qed.

Lemma default_add_regressors :
  add_regressors {| extra_regressors := []; history := None |}
                 (feature_columns __init__)
  = Ok {| extra_regressors := feature_columns __init__; history := None |}.
Proof. vm_compute. reflexivity. Qed.

Lemma default_check_geo : check_geo (geo_columns __init__) = Ok tt.
Proof. vm_compute. reflexivity. Qed.

Lemma fresh_train_operational enc df s :
  train prophet_sample column_stats (set_encoder __init__ enc) df = (Ok tt, s) ->
  is_trained s = true /\ operational s.
Proof.
  unfold train, train_try, preprocess_data.
  destruct (bool_decide _); [discriminate|].
  destruct (List.filter _ required_cols); [|discriminate].
  destruct (negb _); [discriminate|].
  cbn [encoder_estados set_encoder].
  destruct (encode_states enc _) as [e|grouped] eqn:Henc; [discriminate|].
  unfold scale_features.
  cbn [preprocessor feature_columns set_encoder __init__ has_mean_].
  destruct (map_result _ grouped) as [e|X] eqn:HX; [discriminate|].
  cbn [rbind except_Exception].
  unfold ColumnTransformer_fit_transform.
  destruct X as [|x X]; [discriminate|].
  destruct (has_inf (x :: X)); [discriminate|].
  destruct (ColumnTransformer_transform _ _) as [e|scaled]; [discriminate|].
  cbn [rbind Ok Raise except_Exception fst snd set_preprocessor feature_columns model
       geo_columns is_trained encoder_estados set_encoder __init__].
  change (List.filter _ ("ds" :: "y" :: _)) with
    (List.filter (fun c => bool_decide (c ∉ col_order))
                 ("ds" :: "y" :: feature_columns __init__)).
  rewrite default_columns_after.
  change (List.filter (fun c => bool_decide (c ∈ col_order)) _) with
    (List.filter (fun c => bool_decide (c ∈ col_order)) (feature_columns __init__)).
  rewrite default_feature_cols, default_add_regressors.
  cbn [Ok].
  match goal with
  | |- context [Prophet_fit ?ps ?m ?cols ?frame] =>
      destruct (Prophet_fit ps m cols frame) as [e|m2] eqn:Hfit; [discriminate|]
  end.
  intros H. injection H as <-.
  apply Prophet_fit_ok_inv in Hfit as (_ & theta & ->).
  split; [reflexivity|]. unfold operational.
  cbn [feature_columns geo_columns encoder_estados preprocessor model
       set_is_trained set_model set_preprocessor set_encoder __init__
       extra_regressors].
  split; [reflexivity|]. split; [reflexivity|].
  split; [|split].
  - apply map_result_length in HX.
    destruct grouped as [|g0 grouped]; [discriminate HX|].
    destruct (group_rows (rows df)) as [|g groups].
    + discriminate Henc.
    + destruct (encode_states_fitted enc g groups (g0 :: grouped) Henc) as [cs Hcs].
      exists cs. destruct enc as [c]. simpl in Hcs. subst c. reflexivity.
  - eexists. split; reflexivity.
  - eexists. reflexivity.
Qed.

(** What a mapping accepted by [_validate_inputs] holds. *)
Lemma validate_ok_inv self ic cs :
  feature_columns self = feature_columns __init__ ->
  geo_columns self = geo_columns __init__ ->
  encoder_estados self = Some {| classes_ := Some cs |} ->
  _validate_inputs self ic = Ok tt ->
  exists fa fl pr y code ly estado bioma,
    ic !! "area_fazenda_ha" = Some fa /\ is_number fa = true /\
    ic !! "area_floresta_ha" = Some fl /\ is_number fl = true /\
    ic !! "prop_floresta" = Some pr /\ is_number pr = true /\
    ic !! "y" = Some y /\ is_number y = true /\
    ic !! "estado_code" = Some (VInt code) /\
    ic !! "last_year" = Some (VInt ly) /\
    ic !! "Estado" = Some (VStr estado) /\ estado ∈ cs /\
    ic !! "bioma" = Some (VStr bioma).
Proof.
  intros Hfc Hgc Henc Hv.
  pose proof (validate_ok_keys self ic Hv) as Hk.
  unfold required_keys in Hk. rewrite Hfc, Hgc in Hk.
  assert (Hpresent : forall k,
            In k ["area_fazenda_ha"; "area_floresta_ha"; "prop_floresta";
                  "estado_code"; "Estado"; "bioma"; "y"; "last_year"] ->
            exists v, ic !! k = Some v).
  { intros k Hin. specialize (Hk k Hin). unfold contains in Hk.
    destruct (ic !! k) as [v|]; [eauto|discriminate]. }
  destruct (Hpresent "area_fazenda_ha") as [fa Hfa]; [simpl; auto 10|].
  destruct (Hpresent "area_floresta_ha") as [fl Hfl]; [simpl; auto 10|].
  destruct (Hpresent "prop_floresta") as [pr Hpr]; [simpl; auto 10|].
  destruct (Hpresent "estado_code") as [code Hcode]; [simpl; auto 10|].
  destruct (Hpresent "Estado") as [estado Hestado]; [simpl; auto 10|].
  destruct (Hpresent "bioma") as [bioma Hbioma]; [simpl; auto 10|].
  destruct (Hpresent "y") as [y Hy]; [simpl; auto 10|].
  destruct (Hpresent "last_year") as [ly Hly]; [simpl; auto 10|].
  clear Hk Hpresent.
  unfold _validate_inputs in Hv.
  destruct (missing_keys self ic); [|discriminate Hv].
  bind_inv Hv.
  destruct (negb (pyval_in _ valid_biomas)); [discriminate Hv|].
  rewrite Henc in Hv. bind_inv Hv.
  match type of Hv with
  | (if negb (pyval_in ?v cs) then _ else _) = _ =>
      destruct (pyval_in v cs) eqn:Hin; [|discriminate Hv]
  end.
  match goal with
  | E : check_types ic type_checks = inr _ |- _ =>
      unfold type_checks in E; cbn [check_types] in E;
      rewrite Hy, Hfa, Hfl, Hestado, Hbioma, Hpr, Hcode, Hly in E
  end.
  match goal with
  | E : getitem ic "Estado" = inr _ |- _ =>
      unfold getitem in E; rewrite Hestado in E; injection E as <-
  end.
  destruct (is_number y) eqn:Ny; [|discriminate].
  destruct (is_number fa) eqn:Nfa; [|discriminate].
  destruct (is_number fl) eqn:Nfl; [|discriminate].
  destruct estado as [| |estado|]; try discriminate.
  destruct bioma as [| |bioma|]; try discriminate.
  destruct (is_number pr) eqn:Npr; [|discriminate].
  destruct code as [code| | |]; try discriminate.
  destruct ly as [ly| | |]; try discriminate.
  simpl in Hin. apply bool_decide_eq_true in Hin.
  exists fa, fl, pr, y, code, ly, estado, bioma. repeat split; assumption.
Qed.

(** *** The success path of [predict] *)

Lemma map_result_total {A B : Type} (f : A -> result B) (g : A -> B) (l : list A) :
  (forall a, In a l -> f a = Ok (g a)) -> map_result f l = Ok (map g l).
Proof.
  induction l as [|a l IH]; intros H; simpl; [reflexivity|].
  rewrite H by (left; reflexivity).
  rewrite IH by (intros a' Ha'; apply H; right; assumption). reflexivity.
Qed.

Lemma map_result_exists {A B : Type} (f : A -> result B) (l : list A) :
  (forall a, In a l -> exists b, f a = Ok b) -> exists bs, map_result f l = Ok bs.
Proof.
  induction l as [|a l IH]; intros H; simpl; [eauto|].
  destruct (H a) as [b Hb]; [left; reflexivity|].
  destruct IH as [bs Hbs]; [intros a' Ha'; apply H; right; assumption|].
  rewrite Hb, Hbs. simpl. eauto.
Qed.

(** What [map_result] gives is made of results of [f]. *)
Lemma map_result_Forall {A B : Type} (f : A -> result B) (P : B -> Prop) (l : list A) :
  (forall a b, In a l -> f a = Ok b -> P b) ->
  forall bs, map_result f l = Ok bs -> Forall P bs.
Proof.
  induction l as [|a l IH]; intros H bs Hbs; simpl in Hbs.
  - injection Hbs as <-. constructor.
  - bind_inv Hbs. injection Hbs as <-. constructor.
    + apply (H a); [left; reflexivity|assumption].
    + apply IH; [|reflexivity]. intros a' b' Ha'. apply H. right. assumption.
Qed.

Lemma index_of_elem s cs : s ∈ cs -> exists i, index_of s cs = Some i.
Proof.
  induction cs as [|c cs IH]; intros H.
  - inversion H.
  - simpl. destruct (bool_decide (c = s)) eqn:Hc; [eauto|].
    apply bool_decide_eq_false in Hc.
    apply elem_of_cons in H as [->|H]; [congruence|].
    destruct (IH H) as [i Hi]. rewrite Hi. simpl. eauto.
Qed.

Lemma firstn_seq_succ n : forall s, firstn n (seq s (S n)) = seq s n.
Proof.
  induction n as [|n IH]; intros s; [reflexivity|].
  change (seq s (S (S n))) with (s :: seq (S s) (S n)).
  rewrite List.firstn_cons, IH. reflexivity.
Qed.

(** Within the years pandas can hold, [date_range] gives the years one
    after the other. *)
Lemma date_range_regular year periods :
  1678 <= year -> year + Z.of_nat periods <= 2262 ->
  date_range other_date_range year periods
  = Ok (map (fun i => year + Z.of_nat i) (seq 0 periods)).
Proof.
  intros H1 H2. unfold date_range.
  replace (1678 <=? year)%Z with true by (symmetry; apply Z.leb_le; assumption).
  replace (year + Z.of_nat periods <=? 2262)%Z with true
    by (symmetry; apply Z.leb_le; assumption).
  reflexivity.
Qed.

Lemma cumprod_from_length l : forall acc, length (cumprod_from rnd acc l) = length l.
Proof. induction l as [|x l IH]; intros acc; simpl; [reflexivity|]. rewrite IH. reflexivity. Qed.

Lemma cumprod_length l : length (cumprod rnd l) = length l.
Proof. destruct l; simpl; [reflexivity|]. rewrite cumprod_from_length. reflexivity. Qed.

Lemma zip3_map_first {A B C D : Type} (f : A * B * C -> D) (g : A -> D) :
  (forall a b c, f (a, b, c) = g a) ->
  forall (la : list A) (lb : list B) (lc : list C),
    length lb = length la -> length lc = length la ->
    map f (zip (zip la lb) lc) = map g la.
Proof.
  intros Hfg. induction la as [|a la IH]; intros [|b lb] [|c lc] Hb Hc;
    try discriminate; simpl; [reflexivity|].
  rewrite Hfg. f_equal. apply IH; simpl in *; lia.
Qed.

(** The rows of [project] carry the dates of the forecast, one for one. *)
Lemma project_dates initial_floresta initial_fazenda forecast future :
  length future = length forecast ->
  map data (project rnd initial_floresta initial_fazenda forecast future)
  = map fst forecast.
Proof.
  intros Hlen. unfold project. rewrite List.map_map.
  apply zip3_map_first.
  - intros a b c. reflexivity.
  - rewrite !length_map, cumprod_length, !length_map. reflexivity.
  - assumption.
Qed.

Lemma project_length initial_floresta initial_fazenda forecast future :
  length future = length forecast ->
  length (project rnd initial_floresta initial_fazenda forecast future) = length forecast.
Proof.
  intros Hlen. rewrite <- (length_map data), project_dates by assumption.
  apply length_map.
Qed.

(** *** Regressors without a gap *)

Lemma finite_column {A : Type} (f : A -> result float) (l : list A) :
  (forall a, In a l -> exists q, f a = Ok (Fin q)) ->
  exists column, map_result f l = Ok column /\ existsb is_nan column = false.
Proof.
  induction l as [|a l IH]; intros H; simpl; [eauto|].
  destruct (H a) as [q Hq]; [left; reflexivity|].
  destruct IH as (column & Hc & Hn); [intros a' Ha'; apply H; right; assumption|].
  rewrite Hq, Hc. simpl. eexists. split; [reflexivity|]. simpl. assumption.
Qed.

Lemma check_regressors_finite cols frame names :
  (forall name, In name names -> name ∈ "ds" :: "y" :: cols) ->
  (forall row, In row frame -> regressors_finite cols names (fst row) (snd row)) ->
  check_regressors cols frame names = Ok tt.
Proof.
  induction names as [|name names IH]; intros Hin Hfin; simpl; [reflexivity|].
  rewrite bool_decide_eq_false_2
    by (intros Hn; apply Hn, Hin; left; reflexivity).
  destruct (finite_column
              (fun row => regressor_cell cols (fst row) (snd row) name) frame)
    as (column & Hc & Hn).
  { intros row Hrow. apply (Hfin row Hrow). left. reflexivity. }
  rewrite Hc. cbn [rbind Ok]. rewrite Hn.
  apply IH.
  - intros n Hn'. apply Hin. right. assumption.
  - intros row Hrow n Hn'. apply (Hfin row Hrow). right. assumption.
Qed.

Lemma regressor_values_finite cols names y cells :
  regressors_finite cols names y cells ->
  exists vs, regressor_values cols names y cells = Ok vs.
Proof.
  intros H. unfold regressor_values. apply map_result_exists.
  intros name Hname. destruct (H name Hname) as [q Hq].
  rewrite Hq. simpl. eauto.
Qed.

(** Four finite cells under the default feature columns. *)
Lemma default_regressors_finite y a b c d :
  regressors_finite (feature_columns __init__) (feature_columns __init__) y
                    [Fin a; Fin b; Fin c; Fin d].
Proof.
  intros name Hname. simpl in Hname.
  destruct Hname as [<-|[<-|[<-|[<-|[]]]]]; vm_compute; eauto.
Qed.

Lemma default_regressors_known name :
  In name (feature_columns __init__) ->
  name ∈ "ds" :: "y" :: feature_columns __init__.
Proof.
  intros H. do 2 apply list_elem_of_further. apply list_elem_of_In. exact H.
Qed.

Lemma standardize_four params a b c d :
  length params = 4%nat ->
  exists a' b' c' d',
    standardize params [Fin a; Fin b; Fin c; Fin d] = Ok [Fin a'; Fin b'; Fin c'; Fin d'].
Proof.
  destruct params as [|[m1 s1] [|[m2 s2] [|[m3 s3] [|[m4 s4] [|? ?]]]]];
    try discriminate.
  intros _. simpl. eauto 10.
Qed.

(** The forecast has a row per row of the frame, with its date. *)
Lemma map_result_keys {A B K : Type} (key : A -> K) (key' : B -> K)
    (f : A -> result B) (l : list A) :
  (forall a b, f a = Ok b -> key' b = key a) ->
  forall bs, map_result f l = Ok bs -> map key' bs = map key l.
Proof.
  intros Hk. induction l as [|a l IH]; intros bs H; simpl in H.
  - injection H as <-. reflexivity.
  - bind_inv H. injection H as <-. simpl. f_equal; [apply Hk; assumption|].
    apply IH. reflexivity.
Qed.

(** The numeric inputs of [ic] hold no infinity, and the four features are
    finite numbers. *)
Lemma operational_future_frame self ic h cs fa fl pr y code ly estado bioma
    xfa xfl xpr xy :
  encoder_estados self = Some {| classes_ := Some cs |} ->
  ic !! "area_fazenda_ha" = Some fa -> is_number fa = true ->
  ic !! "area_floresta_ha" = Some fl -> is_number fl = true ->
  ic !! "prop_floresta" = Some pr -> is_number pr = true ->
  ic !! "y" = Some y -> is_number y = true ->
  ic !! "estado_code" = Some (VInt code) ->
  ic !! "last_year" = Some (VInt ly) ->
  ic !! "Estado" = Some (VStr estado) -> estado ∈ cs ->
  ic !! "bioma" = Some (VStr bioma) ->
  as_float rnd fa = Ok xfa -> as_float rnd fl = Ok xfl ->
  as_float rnd pr = Ok xpr -> as_float rnd y = Ok xy ->
  0 < h -> 1678 <= ly + 1 -> ly + h + 2 <= 2262 ->
  _create_future_dataframe rnd other_date_range self ic h
  = Ok (map (fun d => {| f_ds := d; f_y := xy; f_area_fazenda_ha := xfa;
                         f_area_floresta_ha := xfl; f_prop_floresta := xpr;
                         f_estado_code := code; f_Estado := VStr estado;
                         f_bioma := VStr bioma |})
            (map (fun i => ly + 1 + Z.of_nat i) (seq 0 (Z.to_nat h)))).
Proof.
  intros Henc Hfa Nfa Hfl Nfl Hpr Npr Hy Ny Hcode Hly Hestado Hin Hbioma
         Qfa Qfl Qpr Qy Hh Hlo Hhi.
  destruct (index_of_elem _ _ Hin) as [i Hi].
  unfold _create_future_dataframe, check_numeric, encode_estado, getitem,
    LabelEncoder_transform.
  rewrite Henc, Hfa, Hfl, Hpr, Hy, Hcode, Hly, Hestado, Hbioma.
  cbn [rbind Ok Raise classes_ except_ValueError as_int].
  rewrite Nfa, Nfl, Npr, Ny, Hi.
  cbn [rbind Ok Raise classes_ except_ValueError as_int].
  rewrite date_range_regular by (try rewrite Z2Nat.id; lia).
  cbn [rbind Ok Raise].
  rewrite Qfa, Qfl, Qpr, Qy.
  cbn [rbind Ok Raise].
  unfold Ok. do 2 f_equal.
  replace (h + 1) with (Z.succ h) by lia.
  rewrite Z2Nat.inj_succ by lia.
  rewrite List.firstn_map, firstn_seq_succ. reflexivity.
Qed.

Lemma operational_predict self ic h log :
  operational self ->
  _validate_inputs self ic = Ok tt ->
  0 < h ->
  years_in_range ic h ->
  finite_conditions rnd ic ->
  exists rows ly,
    ic !! "last_year" = Some (VInt ly) /\
    predict rnd prophet_forecast other_date_range self ic (VInt h) log
    = (Ok rows, ic, log) /\
    length rows = Z.to_nat h /\
    map data rows = map (fun i => ly + 1 + Z.of_nat i) (seq 0 (Z.to_nat h)).
Proof.
  intros (Hfc & Hgc & [cs Henc] & (params & Hct & Hlen) & [theta Hm]) Hv Hh
         (ly' & Hly' & Hlo & Hhi) ((xy & Qy & Iy) & Hfin).
  destruct (validate_ok_inv self ic cs Hfc Hgc Henc Hv)
    as (fa & fl & pr & y & code & ly & estado & bioma & Hfa & Nfa & Hfl & Nfl
        & Hpr & Npr & Hy & Ny & Hcode & Hly & Hestado & Hin & Hbioma).
  rewrite Hly in Hly'. injection Hly' as <-.
  destruct (Hfin "area_fazenda_ha") as [qfa Qfa]; [simpl; auto|].
  destruct (Hfin "area_floresta_ha") as [qfl Qfl]; [simpl; auto|].
  destruct (Hfin "prop_floresta") as [qpr Qpr]; [simpl; auto|].
  destruct (Hfin "estado_code") as [qcode Qcode]; [simpl; auto|].
  clear Hfin.
  unfold getitem in Qy, Qfa, Qfl, Qpr, Qcode.
  rewrite Hy in Qy. rewrite Hfa in Qfa. rewrite Hfl in Qfl.
  rewrite Hpr in Qpr. rewrite Hcode in Qcode.
  cbn [rbind Ok] in Qy, Qfa, Qfl, Qpr, Qcode.
  pose proof (operational_future_frame self ic h cs fa fl pr y code ly estado bioma
                _ _ _ _ Henc Hfa Nfa Hfl Nfl Hpr Npr Hy Ny Hcode Hly Hestado Hin
                Hbioma Qfa Qfl Qpr Qy Hh Hlo Hhi) as Hfuture.
  set (dates := map (fun i => ly + 1 + Z.of_nat i) (seq 0 (Z.to_nat h))) in *.
  set (future := map _ dates) in Hfuture.
  destruct (derived_fields_never_computed self ic) as [Hd1 Hd2];
    [rewrite Hfc; simpl; auto | rewrite Hfc; simpl; auto | assumption |].
  assert (Hlend : length dates = Z.to_nat h).
  { unfold dates. rewrite length_map, length_seq. reflexivity. }
  assert (Hlenf : length future = Z.to_nat h).
  { unfold future. rewrite length_map. assumption. }
  assert (Hds : map f_ds future = dates).
  { unfold future. rewrite List.map_map. cbn [f_ds]. apply List.map_id. }
  assert (Hys : map f_y future = map (fun _ => xy) dates).
  { unfold future. rewrite List.map_map. reflexivity. }
  (* the features selected *)
  assert (HX : select_features rnd (feature_columns __init__) future
               = Ok (map (fun _ => [Fin qfa; Fin qfl; Fin qpr; Fin qcode]) future)).
  { unfold select_features. apply map_result_total. intros r Hr.
    unfold future in Hr. apply List.in_map_iff in Hr as (d & <- & _).
    cbn -[int_to_float]. unfold future_cell.
    cbn -[int_to_float]. simpl in Qcode. rewrite Qcode. reflexivity. }
  destruct (standardize_four params qfa qfl qpr qcode Hlen)
    as (a' & b' & c' & d' & Hst).
  assert (Hscaled : ColumnTransformer_transform {| fitted := Some params |}
                      (map (fun _ => [Fin qfa; Fin qfl; Fin qpr; Fin qcode]) future)
                    = Ok (map (fun _ => [Fin a'; Fin b'; Fin c'; Fin d']) future)).
  { unfold ColumnTransformer_transform. cbn [fitted].
    rewrite (map_result_total _ (fun _ => [Fin a'; Fin b'; Fin c'; Fin d']))
      by (intros row Hrow; apply List.in_map_iff in Hrow as (r & <- & _); exact Hst).
    cbn [rbind Ok]. rewrite List.map_map.
    replace (has_inf _) with false; [reflexivity|].
    symmetry. unfold has_inf. apply not_true_is_false. intros Hex.
    apply List.existsb_exists in Hex as (row & Hrow & Hex).
    apply List.in_map_iff in Hrow as (r & <- & _). discriminate Hex. }
  set (scaled := map (fun _ => [Fin a'; Fin b'; Fin c'; Fin d']) future) in *.
  set (frame := zip (zip (map f_ds future) (map f_y future)) scaled).
  assert (Hframe : forall row, In row frame ->
            snd (fst row) = xy /\ snd row = [Fin a'; Fin b'; Fin c'; Fin d']).
  { intros [[d yv] cells] Hrow. unfold frame in Hrow.
    apply list_elem_of_In, elem_of_zip_with in Hrow as (dy & cells' & Heq & Hdy & Hcells).
    injection Heq as <- <-.
    apply elem_of_zip_with in Hdy as (d0 & y' & Heq & _ & Hy').
    injection Heq as -> ->. cbn [fst snd].
    rewrite Hys in Hy'. apply list_elem_of_In, List.in_map_iff in Hy' as (? & <- & _).
    unfold scaled in Hcells.
    apply list_elem_of_In, List.in_map_iff in Hcells as (? & <- & _).
    split; reflexivity. }
  assert (Hlenframe : length frame = Z.to_nat h).
  { unfold frame, scaled. rewrite !length_zip, !length_map. lia. }
  assert (Hfst : map (fun row : Z * float * list float => fst (fst row)) frame = dates).
  { unfold frame. rewrite <- (List.map_map fst fst).
    rewrite fst_zip by (unfold scaled; rewrite length_zip, !length_map; lia).
    rewrite fst_zip by (rewrite !length_map; lia). exact Hds. }
  destruct (map_result_exists
              (fun row : Z * float * list float =>
                 do xs <- regressor_values (feature_columns __init__)
                            (feature_columns __init__) (snd (fst row)) (snd row);
                 Ok (fst (fst row),
                     prophet_forecast theta (fst (fst row))
                       (zip (feature_columns __init__) xs)))
              frame) as [forecast Hforecast].
  { intros row Hrow. destruct (Hframe row Hrow) as [_ ->].
    destruct (regressor_values_finite (feature_columns __init__)
                (feature_columns __init__) (snd (fst row))
                [Fin a'; Fin b'; Fin c'; Fin d']) as [vs Hvs];
      [apply default_regressors_finite|].
    rewrite Hvs. cbn [rbind Ok]. eauto. }
  assert (Hpp : Prophet_predict prophet_forecast
                  {| extra_regressors := feature_columns __init__;
                     history := Some theta |}
                  (feature_columns __init__) frame = Ok forecast).
  { unfold Prophet_predict. cbn [history extra_regressors].
    replace (existsb _ frame) with false.
    2:{ symmetry. apply not_true_is_false. intros Hex.
        apply List.existsb_exists in Hex as (row & Hrow & Hex).
        destruct (Hframe row Hrow) as [Hyrow _]. rewrite Hyrow in Hex. congruence. }
    rewrite check_regressors_finite.
    - cbn [rbind Ok]. exact Hforecast.
    - apply default_regressors_known.
    - intros row Hrow. apply List.in_map_iff in Hrow as (row' & <- & Hrow').
      cbn [fst snd]. destruct (Hframe row' Hrow') as [_ ->].
      apply default_regressors_finite. }
  assert (Hfdates : map fst forecast = dates).
  { rewrite <- Hfst.
    refine (map_result_keys (fun row : Z * float * list float => fst (fst row)) fst
              _ frame _ forecast Hforecast).
    intros row b Hb. bind_inv Hb. injection Hb as <-. reflexivity. }
  assert (Hlenfc : length forecast = length future).
  { rewrite <- (length_map fst), Hfdates. lia. }
  exists (project rnd (Fin qfl) (Fin qfa) forecast future), ly.
  split; [assumption|].
  split; [|split].
  - unfold predict, contains. rewrite Hly. cbn [negb].
    unfold predict_try. rewrite Hv. cbn [rbind Ok check_horizon].
    replace (0 <? h)%Z with true by (symmetry; apply Z.ltb_lt; assumption).
    rewrite Hd1. cbn [Ok]. rewrite Hd2. cbn [Ok].
    unfold forecast_rows.
    rewrite Hfuture. cbn [rbind Ok]. rewrite Hct. cbn [rbind Ok].
    rewrite Hfc, HX. cbn [rbind Ok].
    rewrite Hscaled. cbn [rbind Ok]. rewrite Hm. cbn [rbind Ok].
    fold frame. rewrite Hpp. cbn [rbind Ok].
    rewrite Hgc, default_check_geo. cbn [rbind Ok].
    unfold getitem. rewrite Hfa, Hfl. cbn [rbind Ok].
    rewrite Qfa, Qfl. reflexivity.
  - rewrite project_length by (symmetry; exact Hlenfc). lia.
  - rewrite project_dates by (symmetry; exact Hlenfc). exact Hfdates.
Qed.

(** C2 (as amended): after a successful [train] of a fresh forecaster,
    [predict] on a mapping accepted by [_validate_inputs] and a positive
    integer horizon returns exactly [horizon] rows, dated year by year from
    the year after [last_year], provided that the years asked of pandas lie
    within its bounds (from 1678, ending before 2262) and that the numeric
    inputs hold no infinity and the features no NaN. *)
Theorem predict_rows_after_train enc df self ic h log :
  train prophet_sample column_stats (set_encoder __init__ enc) df = (Ok tt, self) ->
  _validate_inputs self ic = Ok tt ->
  0 < h ->
  years_in_range ic h ->
  finite_conditions rnd ic ->
  is_trained self = true /\
  exists rows ly,
    ic !! "last_year" = Some (VInt ly) /\
    predict rnd prophet_forecast other_date_range self ic (VInt h) log
    = (Ok rows, ic, log) /\
    length rows = Z.to_nat h /\
    map data rows = map (fun i => ly + 1 + Z.of_nat i) (seq 0 (Z.to_nat h)).
Proof.
  intros Htrain Hv Hh Hyears Hfin.
  destruct (fresh_train_operational enc df self Htrain) as [Ht Hop].
  split; [assumption|].
  exact (operational_predict self ic h log Hop Hv Hh Hyears Hfin).
Qed.

(** *** The scaler in [preprocess_data] *)

(** Whatever scaler the instance holds, fitted or not, [preprocess_data]
    gives the same result: the test of l.127 is false on every
    [ColumnTransformer], so l.130 fits anew on the frame at hand. *)
Lemma preprocess_data_ignores_fitted_scaler self ct ct' df :
  fst (preprocess_data column_stats (set_preprocessor self ct) df)
  = fst (preprocess_data column_stats (set_preprocessor self ct') df).
Proof.
  unfold preprocess_data, scale_features.
  cbn [encoder_estados feature_columns preprocessor set_preprocessor has_mean_].
  destruct (bool_decide _); [reflexivity|].
  destruct (List.filter _ required_cols); [|reflexivity].
  destruct (negb _); [reflexivity|].
  destruct (encoder_estados self) as [enc|]; [|reflexivity].
  destruct (encode_states enc _) as [e|grouped]; [reflexivity|].
  destruct (except_Exception _ _) as [e|[ct2 processed]]; reflexivity.
Qed.

End Properties.

(** ** The properties on the concrete instance *)

(** *** Float64 rounding is a rounding to nearest *)

Lemma ilog2_lower (x : Q) : ~ (x == 0)%Q -> (2 ^ ilog2 x <= Qabs x)%Q.
Proof.
  intros Hx. unfold ilog2.
  set (n := Z.abs (Qnum x)). set (d := Zpos (Qden x)).
  destruct (Qle_bool (2 ^ (Z.log2 n - Z.log2 d)) (Qabs x)) eqn:Ht.
  - apply Qle_bool_iff. assumption.
  - clear Ht.
    assert (Hn : 0 < n).
    { unfold n. destruct x as [[|p|p] den]; simpl; try lia.
      exfalso. apply Hx. reflexivity. }
    assert (Hd : 0 < d) by (unfold d; lia).
    assert (Habs : (Qabs x == inject_Z n / inject_Z d)%Q).
    { destruct x as [num den]. unfold n, d. simpl. apply Qmake_Qdiv. }
    destruct (Z.log2_spec n Hn) as [Hn1 _].
    destruct (Z.log2_spec d Hd) as [_ Hd2].
    pose proof (Z.log2_nonneg n) as Ln. pose proof (Z.log2_nonneg d) as Ld.
    rewrite Zle_Qle, Zpower_Qpower in Hn1 by assumption.
    rewrite Zlt_Qlt, Zpower_Qpower in Hd2 by lia.
    change (inject_Z 2) with 2%Q in *.
    replace (Z.log2 n - Z.log2 d - 1) with (Z.log2 n - Z.succ (Z.log2 d)) by lia.
    rewrite Qpower_minus by discriminate.
    rewrite Habs.
    assert (HB : (0 < 2 ^ Z.succ (Z.log2 d))%Q) by (apply Qpower_0_lt; reflexivity).
    assert (HA : (0 < 2 ^ Z.log2 n)%Q) by (apply Qpower_0_lt; reflexivity).
    assert (Hdq : (inject_Z 0 < inject_Z d)%Q) by (rewrite <- Zlt_Qlt; assumption).
    change (inject_Z 0) with 0%Q in Hdq.
    apply Qle_shift_div_l; [assumption|].
    unfold Qdiv. rewrite <- Qmult_assoc, (Qmult_comm (/ _)), Qmult_assoc.
    apply Qle_shift_div_r; [assumption|].
    apply Qle_trans with (inject_Z n * inject_Z d)%Q.
    + apply Qmult_le_compat_r; [assumption|]. apply Qlt_le_weak. assumption.
    + apply Qmult_le_l; [lra|]. apply Qlt_le_weak. assumption.
Qed.

Lemma half_quantum (e : Z) : (2 ^ (e - 52) * (1 # 2) == 2 ^ e * unit_roundoff)%Q.
Proof.
  rewrite Qpower_minus by discriminate.
  unfold Qdiv. rewrite <- Qmult_assoc.
  assert (H : (/ 2 ^ 52 * (1 # 2) == unit_roundoff)%Q) by (vm_compute; reflexivity).
  rewrite H. reflexivity.
Qed.

Lemma binary64_nearest : nearest_float binary64.
Proof.
  intros x r. unfold binary64.
  pose proof tiniest_nonneg as Ht.
  destruct (Qeq_bool x 0) eqn:Hz.
  - intros [= <-]. apply Qeq_bool_iff in Hz.
    unfold unit_roundoff.
    destruct (Qabs_bounds (0 - x)) as (A1 & A2 & [A3|A3]);
      destruct (Qabs_bounds x) as (B1 & B2 & _); lra.
  - cbv zeta. set (e := Z.max (ilog2 x) (-1022)).
    set (q := (2 ^ (e - 52))%Q).
    destruct (Qle_bool _ _); [destruct (Qltb x 0); discriminate|].
    intros [= <-]. rewrite Qred_correct.
    assert (Hx : ~ (x == 0)%Q).
    { intros H. apply Qeq_bool_iff in H. congruence. }
    assert (Hq : (0 < q)%Q) by (apply Qpower_0_lt; reflexivity).
    pose proof (round_half_even_error (x / q)) as Herr.
    set (k := inject_Z (round_half_even (x / q))) in *.
    assert (Hxq : (x == x / q * q)%Q).
    { field. lra. }
    assert (Hdiff : (Qabs (k * q - x) <= q * (1 # 2))%Q).
    { assert (Heq : (k * q - x == (k - x / q) * q)%Q) by (field; lra).
      rewrite Heq, Qabs_Qmult, (Qabs_pos q) by lra.
      rewrite (Qmult_comm q). apply Qmult_le_compat_r; [assumption|lra]. }
    eapply Qle_trans; [exact Hdiff|].
    unfold q. rewrite half_quantum.
    destruct (Z.max_spec (ilog2 x) (-1022)) as [[Hlt He]|[Hle He]]; unfold e; rewrite He.
    + assert (Heq : (2 ^ (-1022) * unit_roundoff == tiniest)%Q)
        by (vm_compute; reflexivity).
      rewrite Heq.
      assert (0 <= unit_roundoff * Qabs x)%Q.
      { apply Qmult_le_0_compat; [vm_compute; discriminate|apply Qabs_nonneg]. }
      lra.
    + pose proof (ilog2_lower x Hx) as Hl.
      assert (2 ^ ilog2 x * unit_roundoff <= unit_roundoff * Qabs x)%Q.
      { rewrite (Qmult_comm unit_roundoff).
        apply Qmult_le_compat_r; [assumption|vm_compute; discriminate]. }
      lra.
Qed.

(** C1 (the code against the claim): a trained forecaster given exactly the
    six keys of the inference contract stops in [_validate_inputs]:
    [prop_floresta] and [estado_code] are reported missing, and l.224-229,
    which would derive them, are never reached. *)
Theorem predict_six_keys_missing_fields :
  predict binary64 forecast_one_percent short_years acre_forecaster acre_six_keys
          (VInt 5) [] =
    (Raise (PredictionFailure (InputsMissing ["prop_floresta"; "estado_code"])),
     acre_six_keys,
     [LogError (VStr "Acre") (InputsMissing ["prop_floresta"; "estado_code"])]).
Proof. vm_compute. reflexivity. Qed.

(** C4 (the code against the claim): the forecaster trained on the history
    of Acre holds the column means of that history; one later call of
    [preprocess_data] on another frame replaces them by the means of that
    frame: the scaler is fitted again. *)
Theorem preprocess_after_training_refits_scaler :
  is_trained acre_forecaster = true /\
  preprocessor acre_forecaster =
    Some {| fitted := Some [(95000, 1); (905000, 1); (181 # 200, 1); (0, 1)]%Q |} /\
  preprocessor (snd (preprocess_data mean_stats acre_forecaster bahia_history)) =
    Some {| fitted := Some [(500, 1); (1500, 1); (3 # 4, 1); (1, 1)]%Q |}.
Proof. vm_compute. repeat split; reflexivity. Qed.

(** C2, as stated, fails on inputs that [_validate_inputs] accepts: with
    [last_year] 9999 the start date of l.333 has a year of five digits and
    pandas refuses it; with a forest area that is NaN, which no comparison
    of l.298-303 rejects, Prophet refuses the regressor.  Both calls raise
    and return no row. *)
Lemma valid_inputs_without_forecast :
  _validate_inputs acre_forecaster far_conditions = Ok tt /\
  fst (fst (predict binary64 forecast_one_percent short_years acre_forecaster
                    far_conditions (VInt 5) []))
  = Raise (PredictionFailure (DateParseError 10000)) /\
  _validate_inputs acre_forecaster nan_conditions = Ok tt /\
  fst (fst (predict binary64 forecast_one_percent short_years acre_forecaster
                    nan_conditions (VInt 5) []))
  = Raise (PredictionFailure (ProphetNaN "area_floresta_ha")).
Proof. vm_compute. repeat split; reflexivity. Qed.

(** C3, as stated, fails in float64 when an area is large: with a farmland
    of 2^60 ha and a forest of 900000 ha the row of the first year holds
    891000 and 2^60 + 8960, which miss the initial total by 40 ha: the 9000
    ha of forest lost are added to the farmland in steps of 256 ha. *)
Lemma wide_areas_not_conserved :
  exists row,
    fst (fst (predict binary64 forecast_one_percent short_years acre_forecaster
                      wide_conditions (VInt 1) [])) = Ok [row] /\
    area_floresta_projetada row = Fin 891000 /\
    area_fazenda_projetada row = Fin 1152921504606855936 /\
    (891000 + 1152921504606855936 - (1152921504606846976 + 900000) == -40)%Q.
Proof. eexists. vm_compute. repeat split; reflexivity. Qed.

(** C5, as stated, fails on "never partially trained": [train] on a
    history of one row fails in Prophet's fit, after the scaler has been
    fitted on that row (l.130) and the four regressors registered (l.203);
    the instance keeps both.  The error has the original one as context and
    no cause. *)
Lemma failed_train_keeps_scaler_and_regressors :
  preprocessor (set_encoder __init__ two_states) = Some {| fitted := None |} /\
  (extra_regressors <$> model (set_encoder __init__ two_states)) = Some [] /\
  fst (train sample_ok mean_stats (set_encoder __init__ two_states) bahia_history)
  = Raise (TrainingFailure ProphetTooFewRows) /\
  preprocessor (snd (train sample_ok mean_stats (set_encoder __init__ two_states)
                           bahia_history))
  = Some {| fitted := Some [(500, 1); (1500, 1); (3 # 4, 1); (1, 1)]%Q |} /\
  (extra_regressors <$>
     model (snd (train sample_ok mean_stats (set_encoder __init__ two_states)
                       bahia_history)))
  = Some (feature_columns __init__) /\
  cause_of (TrainingFailure ProphetTooFewRows) = None /\
  context_of (TrainingFailure ProphetTooFewRows) = Some ProphetTooFewRows.
Proof. vm_compute. repeat split; reflexivity. Qed.

(** C6, as stated, fails: [train] on the trained forecaster is refused by
    the engine, the failure is a [TrainingFailure] and no state error, and
    the instance, trained before the call, is untrained after it. *)
Lemma retrain_is_not_a_state_error :
  is_trained acre_forecaster = true /\
  train sample_ok mean_stats acre_forecaster acre_history =
    (Raise (TrainingFailure ProphetFitOnce), set_is_trained acre_forecaster false) /\
  is_state_error (TrainingFailure ProphetFitOnce) = false.
Proof. vm_compute. repeat split; reflexivity. Qed.

(** C7, as stated, fails: a fresh forecaster given complete, valid inputs
    raises the wrapped [AttributeError] of its unset encoder. *)
Lemma fresh_predict_is_not_a_state_error :
  fst (fst (predict binary64 forecast_one_percent short_years __init__
                    acre_conditions (VInt 5) [])) =
    Raise (PredictionFailure (NoAttribute "transform")) /\
  is_state_error (PredictionFailure (NoAttribute "transform")) = false.
Proof. vm_compute. split; reflexivity. Qed.

(** C8, as stated, fails: without [last_year] the failure is a bare
    [ValueError], raised before the [try] block: not wrapped, not logged. *)
Lemma missing_last_year_is_not_wrapped :
  predict binary64 forecast_one_percent short_years acre_forecaster
          (delete "last_year" acre_conditions) (VInt 5) [] =
    (Raise LastYearRequired, delete "last_year" acre_conditions, []) /\
  class_of LastYearRequired = ValueError /\
  cause_of LastYearRequired = None.
Proof. vm_compute. repeat split; reflexivity. Qed.


(** *** Instances of the theorems *)

Lemma predict_rows_after_train_acre :
  is_trained acre_forecaster = true /\
  exists rows ly,
    acre_conditions !! "last_year" = Some (VInt ly) /\
    predict binary64 forecast_one_percent short_years acre_forecaster acre_conditions
            (VInt 5) [] =
      (Ok rows, acre_conditions, []) /\
    length rows = Z.to_nat 5 /\
    map data rows = map (fun i => ly + 1 + Z.of_nat i) (seq 0 (Z.to_nat 5)).
Proof.
  apply (predict_rows_after_train binary64 sample_ok forecast_one_percent short_years
           mean_stats two_states acre_history acre_forecaster acre_conditions 5 []).
  - vm_compute. reflexivity.
  - vm_compute. reflexivity.
  - lia.
  - exists 2023. split; [vm_compute; reflexivity|]. lia.
  - split.
    + eexists. split; [vm_compute; reflexivity|]. reflexivity.
    + intros k Hk. simpl in Hk.
      destruct Hk as [<-|[<-|[<-|[<-|[]]]]]; eexists; vm_compute; reflexivity.
Defined.

Lemma projected_areas_conserved_acre :
  exists fazenda floresta rates,
    rbind (getitem acre_conditions "area_fazenda_ha") (as_float binary64) = Ok fazenda /\
    rbind (getitem acre_conditions "area_floresta_ha") (as_float binary64) = Ok floresta /\
    forall i row, acre_rows !! i = Some row ->
      (exists y, rates !! i = Some y /\
                 conversao_ha_prevista row = round4 binary64 (Fin y)) /\
      area_floresta_projetada row =
        round4 binary64 (fmul binary64 floresta (compounded binary64 rates i)) /\
      area_fazenda_projetada row =
        round4 binary64
          (fadd binary64 fazenda
             (fsub binary64 floresta
                (fmul binary64 floresta (compounded binary64 rates i)))) /\
      forall a b f g,
        fazenda = Fin a -> floresta = Fin b ->
        area_floresta_projetada row = Fin f ->
        area_fazenda_projetada row = Fin g ->
        (Qabs (f + g - (a + b)) <= conservation_tolerance a b f g)%Q.
Proof.
  apply (projected_areas_conserved binary64 forecast_one_percent short_years
           acre_forecaster acre_conditions (VInt 2) [] acre_rows acre_conditions []).
  - exact binary64_nearest.
  - vm_compute. reflexivity.
Defined.

Lemma train_failure_leaves_untrained_fresh :
  is_trained (set_is_trained __init__ false) = false /\
  feature_columns (set_is_trained __init__ false) = feature_columns __init__ /\
  geo_columns (set_is_trained __init__ false) = geo_columns __init__ /\
  encoder_estados (set_is_trained __init__ false) = encoder_estados __init__ /\
  exists e0,
    fst (train_try sample_ok mean_stats __init__ acre_history) = Raise e0 /\
    TrainingFailure EncoderNotConfigured = TrainingFailure e0 /\
    class_of (TrainingFailure EncoderNotConfigured) = RuntimeError /\
    context_of (TrainingFailure EncoderNotConfigured) = Some e0 /\
    cause_of (TrainingFailure EncoderNotConfigured) = None.
Proof.
  apply (train_failure_leaves_untrained sample_ok mean_stats __init__ acre_history
           (TrainingFailure EncoderNotConfigured) (set_is_trained __init__ false)).
  vm_compute. reflexivity.
Defined.

Lemma retrain_fails_as_training_failure_acre :
  exists e0 self',
    train sample_ok mean_stats acre_forecaster bahia_history =
      (Raise (TrainingFailure e0), self') /\
    is_trained self' = false /\
    is_state_error (TrainingFailure e0) = false.
Proof.
  apply (retrain_fails_as_training_failure sample_ok mean_stats acre_forecaster
           bahia_history
           {| extra_regressors := feature_columns __init__; history := Some [] |}
           []).
  - vm_compute. reflexivity.
  - reflexivity.
Defined.

Lemma predict_failures_wrapped_and_logged_acre :
  exists e0,
    predict_try binary64 forecast_one_percent short_years acre_forecaster
                acre_six_keys (VInt 5) =
      (inl e0, acre_six_keys) /\
    PredictionFailure (InputsMissing ["prop_floresta"; "estado_code"]) =
      PredictionFailure e0 /\
    cause_of (PredictionFailure (InputsMissing ["prop_floresta"; "estado_code"])) =
      Some e0 /\
    [LogError (VStr "Acre") (InputsMissing ["prop_floresta"; "estado_code"])] =
      ([] ++ [LogError (default (VStr "Estado desconhecido") (acre_six_keys !! "Estado")) e0])%list.
Proof.
  apply (predict_failures_wrapped_and_logged binary64 forecast_one_percent short_years
           acre_forecaster acre_six_keys (VInt 5) []
           (PredictionFailure (InputsMissing ["prop_floresta"; "estado_code"]))
           acre_six_keys
           [LogError (VStr "Acre") (InputsMissing ["prop_floresta"; "estado_code"])]).
  - vm_compute. reflexivity.
  - vm_compute. reflexivity.
Defined.

Lemma load_accepts_unfitted_scaler_acre :
  exists forecaster,
    load_model "unified_prophet_v4_AC.pkl" models_dir = Ok forecaster /\
    is_trained forecaster = true /\
    preprocessor forecaster = Some {| fitted := None |}.
Proof.
  apply (load_accepts_unfitted_scaler "unified_prophet_v4_AC.pkl" models_dir
           unfitted_artifact two_states).
  - vm_compute. reflexivity.
  - reflexivity.
  - reflexivity.
Defined.


(** ** Further properties of the module *)

Section MoreProperties.

Variable rnd : Q -> float.
Variable prophet_sample : list string -> list (Z * Q * list Q) -> option posterior.
Variable prophet_forecast : posterior -> Z -> list (string * Q) -> Q * Q * Q.
Variable other_date_range : Z -> nat -> result (list Z).
Variable column_stats : list Q -> Q * Q.

Local Set Default Proof Using "Type".

Ltac bind_inv H :=
  unfold Ok, Raise in H;
  repeat match type of H with
         | rbind ?r _ = inr _ =>
             let E := fresh "E" in
             destruct r eqn:E; simpl in H; [discriminate H|]
         end.

(** *** Persistence *)

(** X1: what [save_model] writes, [load_model] reads back: loading the
    path just saved returns the very forecaster that was saved, and the
    save touches no other path. *)
Theorem save_then_load self path fs fs' :
  save_model self path fs = (Ok tt, fs') ->
  load_model path fs' = Ok self /\
  forall other, other <> path -> fs' !! other = fs !! other.
Proof.
  unfold save_model.
  destruct (is_trained self) eqn:Ht; [|discriminate].
  destruct (model self) as [m|] eqn:Hm; [|discriminate].
  destruct (preprocessor self) as [ct|] eqn:Hp; [|discriminate].
  destruct (encoder_estados self) as [enc|] eqn:He; [|discriminate].
  destruct (classes_ enc) as [cs|] eqn:Hcs; [|discriminate].
  simpl. intros H. injection H as <-. split.
  - unfold load_model, load_model_try, joblib_load.
    rewrite lookup_insert_eq. simpl.
    destruct self as [m0 fc gc p0 t0 e0]. simpl in *. subst. reflexivity.
  - intros other Hne. rewrite lookup_insert_ne by congruence. reflexivity.
Qed.

(** X2: a forecaster whose [train] has raised cannot be saved: [save_model]
    refuses it as not trained and writes nothing. *)
Theorem failed_train_is_not_saved self df e self' path fs :
  train prophet_sample column_stats self df = (Raise e, self') ->
  save_model self' path fs = (Raise ModelNotTrained, fs).
Proof.
  unfold train.
  destruct (train_try prophet_sample column_stats self df) as [[e0|[]] s]; intros H.
  - injection H as _ <-. reflexivity.
  - discriminate H.
Qed.

(** X3: the outcomes of [load_model].  A returned instance is marked
    trained and holds an encoder and a preprocessor; the only
    [FileNotFoundError] is the one for a path that holds no file; every other
    failure, an absent encoder included, surfaces as the [RuntimeError] of
    l.441 wrapping it. *)
Theorem load_model_outcomes path fs :
  match load_model path fs with
  | inr forecaster =>
      is_trained forecaster = true /\
      encoder_estados forecaster <> None /\
      preprocessor forecaster <> None /\
      exists a, fs !! path = Some (Pickled a)
  | inl e =>
      (fs !! path = None /\ e = ModelFileNotFound path) \/
      (fs !! path <> None /\ exists e0, e = LoadFailure e0 /\ class_of e = RuntimeError)
  end.
Proof.
  unfold load_model, load_model_try, joblib_load.
  destruct (fs !! path) as [[a|]|] eqn:Hf; simpl.
  - destruct (a_encoder_estados a) as [enc|] eqn:He.
    + destruct (a_preprocessor a) as [ct|] eqn:Hp; simpl.
      * repeat split; try discriminate. eauto.
      * right. split; [discriminate|]. eauto.
    + simpl. right. split; [discriminate|]. eauto.
  - right. split; [discriminate|]. eauto.
  - left. auto.
Qed.

(** *** Validation and the guards of [predict] *)

Lemma Qltb_false_le (x lo : Q) : Qltb x lo = false -> (lo <= x)%Q.
Proof.
  unfold Qltb. intros H. apply negb_false_iff in H.
  apply Qle_bool_iff. assumption.
Qed.

Lemma py_lt_false value lo : py_lt value lo = inr false -> not_below lo value.
Proof.
  destruct value as [n|x| |]; simpl; try discriminate.
  - intros [= H]. apply Qltb_false_le. assumption.
  - intros [= H].
    destruct x as [q| | |]; simpl in *; try discriminate;
      try (left; reflexivity); try (right; reflexivity).
    right. apply Qle_bool_iff. apply Qltb_false_le. assumption.
Qed.

Lemma py_gt_false value hi : py_gt value hi = inr false -> not_above hi value.
Proof.
  destruct value as [n|x| |]; simpl; try discriminate.
  - intros [= H]. apply Qltb_false_le. assumption.
  - intros [= H].
    destruct x as [q| | |]; simpl in *; try discriminate;
      try (left; reflexivity); try (right; reflexivity).
    right. apply Qle_bool_iff. apply Qltb_false_le. assumption.
Qed.

Lemma check_range_min inputs key lo hi rest :
  check_ranges inputs ((key, (Some lo, hi)) :: rest) = inr tt ->
  exists value, inputs !! key = Some value /\ not_below lo value /\
                (forall h, hi = Some h -> not_above h value) /\
                check_ranges inputs rest = inr tt.
Proof.
  cbn [check_ranges]. unfold getitem. intros H.
  destruct (inputs !! key) as [value|]; [|discriminate H].
  cbn [rbind Ok] in H.
  destruct (py_lt value lo) as [e|[]] eqn:Hlo; try discriminate H.
  cbn [rbind] in H.
  exists value. split; [reflexivity|]. split; [apply py_lt_false; assumption|].
  destruct hi as [h|].
  - destruct (py_gt value h) as [e|[]] eqn:Hhi; try discriminate H.
    cbn [rbind] in H.
    split; [|destruct (check_ranges inputs rest) as [e|[]]; [discriminate H|reflexivity]].
    intros h' Hh'. injection Hh' as <-. apply py_gt_false. assumption.
  - cbn [rbind Ok] in H.
    split; [intros h' Hh'; discriminate Hh'|].
    destruct (check_ranges inputs rest) as [e|[]]; [discriminate H|reflexivity].
Qed.

(** X4: what [_validate_inputs] guarantees, on any forecaster: an accepted
    mapping has farmland and forest areas that are numbers not below 0, a
    forest proportion that is a number not below 0 and not above 1, a biome
    among the six known names, and the keys [y] and [last_year].  A float
    NaN is such a number: no comparison rejects it. *)
Theorem validated_inputs_are_in_range self ic :
  _validate_inputs self ic = Ok tt ->
  exists fazenda floresta prop b,
    ic !! "area_fazenda_ha" = Some fazenda /\ not_below 0 fazenda /\
    ic !! "area_floresta_ha" = Some floresta /\ not_below 0 floresta /\
    ic !! "prop_floresta" = Some prop /\ not_below 0 prop /\ not_above 1 prop /\
    ic !! "bioma" = Some (VStr b) /\ In b valid_biomas /\
    contains ic "y" = true /\ contains ic "last_year" = true.
Proof.
  intros Hv.
  pose proof (validate_ok_keys self ic Hv) as Hk.
  unfold _validate_inputs in Hv.
  destruct (missing_keys self ic); [|discriminate Hv].
  destruct (check_types ic type_checks) as [e|[]]; [discriminate Hv|].
  cbn [rbind] in Hv.
  destruct (check_ranges ic numeric_checks) as [e|[]] eqn:E; [discriminate Hv|].
  cbn [rbind] in Hv.
  unfold numeric_checks in E.
  apply check_range_min in E as (fa & Hfa & Hfa0 & _ & E).
  apply check_range_min in E as (fl & Hfl & Hfl0 & _ & E).
  apply check_range_min in E as (pr & Hpr & Hpr0 & Hpr1 & _).
  unfold getitem in Hv at 1.
  destruct (ic !! "bioma") as [v|] eqn:Hbio; [|discriminate Hv].
  cbn [rbind Ok] in Hv.
  destruct (pyval_in v valid_biomas) eqn:Hb; [|discriminate Hv].
  destruct v as [| |b|]; try discriminate Hb.
  simpl in Hb. apply bool_decide_eq_true in Hb.
  exists fa, fl, pr, b.
  repeat split; try assumption.
  - apply Hpr1. reflexivity.
  - apply list_elem_of_In. assumption.
  - apply Hk. unfold required_keys. rewrite !in_app_iff. simpl. auto 10.
  - apply Hk. unfold required_keys. rewrite !in_app_iff. simpl. auto 10.
Qed.

Lemma contains_insert_value (ic : gmap string pyval) key v v' k :
  contains (<[key := v]> ic) k = contains (<[key := v']> ic) k.
Proof.
  unfold contains. destruct (decide (key = k)) as [->|Hne].
  - rewrite !lookup_insert_eq. reflexivity.
  - rewrite !lookup_insert_ne by assumption. reflexivity.
Qed.

(** X5: the historical rate [y] is not constrained by its value: changing
    one number for another under the key [y] never changes the verdict of
    [_validate_inputs]. *)
Theorem validation_ignores_rate_value self ic v v' :
  is_number v = true ->
  is_number v' = true ->
  _validate_inputs self (<["y" := v]> ic) = _validate_inputs self (<["y" := v']> ic).
Proof.
  intros Nv Nv'. unfold _validate_inputs.
  assert (Hm : missing_keys self (<["y" := v]> ic) = missing_keys self (<["y" := v']> ic)).
  { unfold missing_keys. apply List.filter_ext. intros k.
    f_equal. apply contains_insert_value. }
  rewrite Hm. destruct (missing_keys self (<["y" := v']> ic)); [|reflexivity].
  unfold type_checks, numeric_checks. cbn [check_types check_ranges].
  unfold getitem.
  rewrite !lookup_insert_eq.
  rewrite !lookup_insert_ne by discriminate.
  rewrite Nv, Nv'. reflexivity.
Qed.

(** X6: once the inputs are accepted, a horizon that is not a positive
    integer makes [predict] fail with the wrapped "horizon deve ser um
    inteiro positivo", logged for the region; nothing is forecast and the
    mapping is left as it was. *)
Theorem invalid_horizon_is_rejected self ic horizon log :
  _validate_inputs self ic = Ok tt ->
  (forall h, horizon = VInt h -> h <= 0) ->
  predict rnd prophet_forecast other_date_range self ic horizon log =
    (Raise (PredictionFailure InvalidHorizon), ic,
     (log ++ [LogError (default (VStr "Estado desconhecido") (ic !! "Estado"))
                       InvalidHorizon])%list).
Proof.
  intros Hv Hh.
  assert (Hly : contains ic "last_year" = true).
  { apply (validate_ok_keys self ic Hv). unfold required_keys.
    rewrite !in_app_iff. simpl. auto 10. }
  assert (Hc : check_horizon horizon = Raise InvalidHorizon).
  { destruct horizon as [h| | |]; try reflexivity.
    simpl. destruct (0 <? h)%Z eqn:Hpos; [|reflexivity].
    apply Z.ltb_lt in Hpos. specialize (Hh h eq_refl). lia. }
  unfold predict, predict_try. rewrite Hly, Hv. cbn [negb rbind Ok].
  rewrite Hc. reflexivity.
Qed.

(** X7: on a forecaster that passes [_validate_init] (every constructed
    one does), [predict] never changes the caller's mapping, whether it
    returns or raises: the two assignments of l.225 and l.229 are dead. *)
Theorem predict_leaves_mapping_unchanged self ic horizon log r ic' log' :
  _validate_init self = inr tt ->
  predict rnd prophet_forecast other_date_range self ic horizon log = (r, ic', log') ->
  ic' = ic.
Proof.
  intros Hinit H.
  assert (Hfeat : forall f, In f required_features -> In f (feature_columns self)).
  { intros f Hf. unfold _validate_init in Hinit.
    destruct (List.filter _ required_features) as [|x l] eqn:Hfl; [|discriminate Hinit].
    destruct (bool_decide (f ∉ feature_columns self)) eqn:Hd.
    - assert (Hin : In f (List.filter (fun f => bool_decide (f ∉ feature_columns self))
                                   required_features)).
      { apply List.filter_In. auto. }
      rewrite Hfl in Hin. destruct Hin.
    - apply bool_decide_eq_false in Hd. apply list_elem_of_In.
      destruct (decide (f ∈ feature_columns self)); [assumption|contradiction]. }
  unfold predict in H.
  destruct (negb (contains ic "last_year")); [injection H as _ <- _; reflexivity|].
  unfold predict_try in H.
  destruct (_validate_inputs self ic) as [e|[]] eqn:Hv.
  - cbn [rbind] in H. injection H as _ <- _. reflexivity.
  - destruct (derived_fields_never_computed rnd self ic) as [Hd1 Hd2];
      [apply Hfeat; simpl; auto 10 | apply Hfeat; simpl; auto 10 | assumption |].
    cbn [rbind] in H.
    destruct (check_horizon horizon) as [e|h]; [injection H as _ <- _; reflexivity|].
    rewrite Hd1 in H. cbn [Ok] in H. rewrite Hd2 in H. cbn [Ok] in H.
    destruct (forecast_rows rnd prophet_forecast other_date_range self ic h);
      injection H as _ <- _; reflexivity.
Qed.

(** *** Every successful [predict] *)

Ltac bind_step H :=
  match type of H with
  | rbind ?r _ = _ =>
      let E := fresh "E" in
      destruct r eqn:E; cbn [rbind] in H; [discriminate H|]
  end.

Lemma index_of_In s cs i : index_of s cs = Some i -> In s cs.
Proof.
  revert i. induction cs as [|c cs IH]; intros i H; simpl in H; [discriminate|].
  destruct (bool_decide (c = s)) eqn:Hc.
  - apply bool_decide_eq_true in Hc. left. assumption.
  - destruct (index_of s cs) as [j|]; [|discriminate]. right. eapply IH. reflexivity.
Qed.

Lemma encode_estado_inv self d code :
  encode_estado self d = inr code ->
  exists enc cs estado,
    encoder_estados self = Some enc /\ classes_ enc = Some cs /\
    d !! "Estado" = Some (VStr estado) /\ In estado cs.
Proof.
  unfold encode_estado, getitem, LabelEncoder_transform. intros H.
  destruct (encoder_estados self) as [enc|]; [|discriminate H].
  destruct (d !! "Estado") as [v|]; [|discriminate H].
  cbn [rbind Ok] in H.
  destruct (classes_ enc) as [cs|] eqn:Hcs; [|discriminate H].
  destruct v as [| |estado|]; try discriminate H.
  destruct (index_of estado cs) as [i|] eqn:Hi; [|discriminate H].
  exists enc, cs, estado. repeat split; try assumption.
  eapply index_of_In. eassumption.
Qed.

Lemma future_frame_inv self initial h future :
  _create_future_dataframe rnd other_date_range self initial h = inr future ->
  exists ly enc cs estado dates,
    initial !! "last_year" = Some (VInt ly) /\
    encoder_estados self = Some enc /\ classes_ enc = Some cs /\
    initial !! "Estado" = Some (VStr estado) /\ In estado cs /\
    date_range other_date_range (ly + 1) (Z.to_nat (h + 1)) = Ok dates /\
    map f_ds future = firstn (Z.to_nat h) dates /\
    Forall (fun r => f_Estado r = VStr estado) future.
Proof.
  unfold _create_future_dataframe. intros H.
  bind_step H.
  destruct (encode_estado self initial) as [e|code] eqn:Henc.
  { unfold except_ValueError in H. destruct (is_ValueError e); discriminate H. }
  cbn [except_ValueError rbind] in H.
  destruct (encode_estado_inv self initial code Henc)
    as (enc & cs & estado & He & Hcs & Hest & Hin).
  unfold getitem in H at 1.
  destruct (initial !! "last_year") as [v|] eqn:Hly; [|discriminate H].
  cbn [rbind Ok] in H.
  destruct v as [ly| | |]; try discriminate H.
  cbn [rbind Ok] in H.
  destruct (date_range other_date_range (ly + 1) (Z.to_nat (h + 1)))
    as [e|dates] eqn:Hdates; [discriminate H|].
  cbn [rbind] in H.
  repeat bind_step H.
  match goal with
  | E : getitem initial "Estado" = inr ?v |- _ =>
      unfold getitem in E; rewrite Hest in E; injection E as <-
  end.
  injection H as <-.
  exists ly, enc, cs, estado, dates. repeat split; try assumption.
  - rewrite List.map_map. cbn [f_ds]. apply List.map_id.
  - apply List.Forall_forall. intros r Hr.
    apply List.in_map_iff in Hr as (d & <- & _). reflexivity.
Qed.

Lemma project_estado initial_floresta initial_fazenda forecast future v :
  Forall (fun r => f_Estado r = v) future ->
  Forall (fun r => Estado r = v)
         (project rnd initial_floresta initial_fazenda forecast future).
Proof.
  intros HF. unfold project. apply List.Forall_forall. intros row Hin.
  apply List.in_map_iff in Hin as ([[r fl] fu] & <- & Hz).
  cbn [Estado]. rewrite List.Forall_forall in HF. apply HF.
  apply list_elem_of_In. apply list_elem_of_In in Hz.
  eapply elem_of_zip_r. eassumption.
Qed.

Lemma check_horizon_inv horizon h :
  check_horizon horizon = inr h -> horizon = VInt h /\ 0 < h.
Proof.
  destruct horizon as [n| | |]; simpl; try discriminate.
  destruct (0 <? n)%Z eqn:Hn; [|discriminate].
  intros H. injection H as <-. apply Z.ltb_lt in Hn. auto.
Qed.

Lemma transform_length ct X scaled :
  ColumnTransformer_transform ct X = inr scaled -> length scaled = length X.
Proof.
  unfold ColumnTransformer_transform.
  destruct (fitted ct); [|discriminate].
  destruct (map_result _ X) as [e|s] eqn:Hs; [discriminate|]. cbn [rbind].
  destruct (has_inf X); [discriminate|]. intros [= <-].
  apply map_result_length in Hs. assumption.
Qed.

(** Prophet's forecast has the dates of its frame, row by row. *)
Lemma Prophet_predict_dates m cols frame forecast :
  Prophet_predict prophet_forecast m cols frame = inr forecast ->
  map fst forecast = map (fun row => fst (fst row)) frame.
Proof.
  unfold Prophet_predict.
  destruct (history m) as [theta|]; [|discriminate].
  destruct (existsb _ frame); [discriminate|].
  destruct (check_regressors _ _ _) as [e|[]]; [discriminate|]. cbn [rbind].
  intros H.
  refine (map_result_keys (fun row : Z * float * list float => fst (fst row)) fst
            _ frame _ forecast H).
  intros row b Hb. bind_inv Hb. injection Hb as <-. reflexivity.
Qed.

(** X8: whenever [predict] returns, on any forecaster (trained here or
    loaded), the horizon was a positive integer [h], pandas has given the
    dates of [h + 1] years from the year after [last_year], and the rows are
    dated by the first [h] of them, in order: when those years lie within
    pandas' bounds there are exactly [h] rows, dated [last_year + 1],
    [last_year + 2], ...  The region is one the encoder was fitted on and
    every row carries it; nothing is logged. *)
Theorem predict_ok_shape self ic horizon log rows ic' log' :
  predict rnd prophet_forecast other_date_range self ic horizon log
  = (Ok rows, ic', log') ->
  exists h ly enc cs estado dates,
    horizon = VInt h /\ 0 < h /\
    ic !! "last_year" = Some (VInt ly) /\
    date_range other_date_range (ly + 1) (Z.to_nat (h + 1)) = Ok dates /\
    map data rows = firstn (Z.to_nat h) dates /\
    (1678 <= ly + 1 -> ly + h + 2 <= 2262 ->
     length rows = Z.to_nat h /\
     map data rows = map (fun i => ly + 1 + Z.of_nat i) (seq 0 (Z.to_nat h))) /\
    encoder_estados self = Some enc /\ classes_ enc = Some cs /\
    ic !! "Estado" = Some (VStr estado) /\ In estado cs /\
    Forall (fun r => Estado r = VStr estado) rows /\
    log' = log.
Proof.
  intros H.
  apply predict_ok_inv in H as (h & ic1 & Hvh & H1 & H2 & Hf & ->).
  destruct (_validate_inputs self ic) as [e|[]]; [discriminate Hvh|].
  cbn [rbind] in Hvh. apply check_horizon_inv in Hvh as [-> Hh].
  unfold forecast_rows in Hf.
  destruct (_create_future_dataframe rnd other_date_range self ic' h)
    as [e|future] eqn:Hfut; [discriminate Hf|].
  cbn [rbind] in Hf.
  destruct (future_frame_inv self ic' h future Hfut)
    as (ly & enc & cs & estado & dates & Hly & He & Hcs & Hest & Hin & Hdr & Hds & HE).
  rewrite (derive_prop_floresta_lookup rnd ic1 ic' "last_year" H2) in Hly by discriminate.
  rewrite (derive_estado_code_lookup self ic ic1 "last_year" H1) in Hly by discriminate.
  rewrite (derive_prop_floresta_lookup rnd ic1 ic' "Estado" H2) in Hest by discriminate.
  rewrite (derive_estado_code_lookup self ic ic1 "Estado" H1) in Hest by discriminate.
  bind_step Hf.
  destruct (select_features rnd (feature_columns self) future) as [e|X] eqn:HX;
    [discriminate Hf|].
  cbn [rbind] in Hf.
  destruct (ColumnTransformer_transform c X) as [e|scaled] eqn:Hsc;
    [discriminate Hf|].
  cbn [rbind] in Hf.
  bind_step Hf.
  match type of Hf with
  | rbind (Prophet_predict ?pf ?m ?cols ?frame) _ = _ =>
      destruct (Prophet_predict pf m cols frame) as [e|forecast] eqn:Hp;
        [discriminate Hf|]
  end.
  cbn [rbind] in Hf.
  repeat bind_step Hf.
  injection Hf as <-.
  assert (HlenX : length X = length future).
  { unfold select_features in HX. apply map_result_length in HX. assumption. }
  assert (Hlens : length scaled = length future).
  { rewrite (transform_length _ _ _ Hsc). assumption. }
  assert (Hfd : map fst forecast = map f_ds future).
  { rewrite (Prophet_predict_dates _ _ _ _ Hp).
    rewrite <- (List.map_map fst fst).
    rewrite fst_zip by (rewrite length_zip, !length_map; lia).
    apply fst_zip. rewrite !length_map. lia. }
  assert (Hlenf : length future = length forecast).
  { rewrite <- (length_map fst forecast), Hfd, length_map. reflexivity. }
  match goal with
  | |- context [project rnd ?a ?b forecast future] =>
      assert (Hdata : map data (project rnd a b forecast future)
                      = firstn (Z.to_nat h) dates)
        by (rewrite (project_dates rnd) by assumption; rewrite Hfd; exact Hds)
  end.
  exists h, ly, enc, cs, estado, dates.
  split; [reflexivity|]. split; [assumption|]. split; [assumption|].
  split; [assumption|]. split; [exact Hdata|]. split.
  { intros Hlo Hhi.
    rewrite date_range_regular in Hdr by (try rewrite Z2Nat.id; lia).
    injection Hdr as <-.
    assert (Hfirst : firstn (Z.to_nat h)
                       (map (fun i => ly + 1 + Z.of_nat i) (seq 0 (Z.to_nat (h + 1))))
                     = map (fun i => ly + 1 + Z.of_nat i) (seq 0 (Z.to_nat h))).
    { replace (h + 1) with (Z.succ h) by lia.
      rewrite Z2Nat.inj_succ by lia.
      rewrite List.firstn_map, firstn_seq_succ. reflexivity. }
    rewrite Hfirst in Hdata. split; [|exact Hdata].
    rewrite <- (length_map data), Hdata, length_map, length_seq. reflexivity. }
  repeat split; try assumption.
  apply project_estado. assumption.
Qed.

(** *** Registering the regressors *)

Lemma NoDup_snoc (l : list string) c :
  List.NoDup l -> ~ In c l -> List.NoDup (l ++ [c]).
Proof.
  induction l as [|x l IH]; intros Hl Hc; simpl.
  - constructor; [intros []|constructor].
  - inversion Hl as [|? ? Hx Hl']; subst. constructor.
    + rewrite in_app_iff. simpl. intros [H|[H|[]]]; [auto|].
      subst. apply Hc. left. reflexivity.
    + apply IH; [assumption|]. intros H. apply Hc. right. assumption.
Qed.

(** X9: the registration loop of [train] (l.201-203) never registers a
    name twice: starting from a model without duplicate regressors it ends
    with one without duplicates, holding the old names and the requested
    ones, even if the request repeats a name or names one already there. *)
Theorem add_regressors_registers_once cols : forall m m',
  List.NoDup (extra_regressors m) ->
  add_regressors m cols = Ok m' ->
  List.NoDup (extra_regressors m') /\
  forall c, In c (extra_regressors m') <-> In c (extra_regressors m) \/ In c cols.
Proof.
  clear prophet_sample.
  induction cols as [|col cols IH]; intros m m' Hnd H; simpl in H.
  - injection H as <-. split; [assumption|]. intros c. simpl. tauto.
  - destruct (bool_decide (col ∈ extra_regressors m)) eqn:Hin.
    + apply bool_decide_eq_true in Hin. apply list_elem_of_In in Hin.
      destruct (IH m m' Hnd H) as [Hnd' Hiff]. split; [assumption|].
      intros c. rewrite Hiff. simpl. split; [tauto|].
      intros [Hc|[<-|Hc]]; auto.
    + apply bool_decide_eq_false in Hin.
      unfold Prophet_add_regressor in H.
      destruct (history m); [discriminate H|]. cbn [rbind Ok] in H.
      assert (Hnot : ~ In col (extra_regressors m)).
      { intros Hc. apply Hin. apply list_elem_of_In. assumption. }
      destruct (IH {| extra_regressors := extra_regressors m ++ [col];
                      history := None |} m'
                   (NoDup_snoc _ _ Hnd Hnot) H) as [Hnd' Hiff].
      split; [assumption|].
      intros c. rewrite Hiff. cbn [extra_regressors].
      rewrite in_app_iff. simpl. tauto.
Qed.

(** *** The training driver *)

Lemma unique_In x l : In x (unique l) <-> In x l.
Proof.
  clear prophet_sample.
  induction l as [|y l IH]; simpl; [tauto|].
  rewrite List.filter_In, IH.
  destruct (decide (x = y)) as [->|Hne]; [tauto|].
  split.
  - intros [H|[H _]]; auto.
  - intros [H|H]; [auto|]. right. split; [assumption|].
    apply bool_decide_eq_true. assumption.
Qed.

Lemma unique_NoDup l : List.NoDup (unique l).
Proof.
  induction l as [|y l IH]; simpl; constructor.
  - rewrite List.filter_In. intros [_ H].
    apply bool_decide_eq_true in H. congruence.
  - apply List.NoDup_filter. assumption.
Qed.

(** The frame of a state in the loop of the driver is the selection of its
    rows, and the state occurs in the grouped table. *)
Lemma training_frames_inv raw frames :
  training_frames raw = Ok frames ->
  exists full,
    driver_frame raw = Ok full /\
    frames = map (fun estado => (estado, state_frame full estado))
                 (unique (map h_Estado (rows full))).
Proof.
  unfold training_frames. intros H.
  destruct (driver_frame raw) as [e|full] eqn:Hd; [discriminate H|].
  cbn [rbind Ok] in H. injection H as <-. eauto.
Qed.

Lemma state_frame_rows full estado df :
  In (estado, df)
     (map (fun estado => (estado, state_frame full estado))
          (unique (map h_Estado (rows full)))) ->
  rows df <> [] /\ Forall (fun r => h_Estado r = estado) (rows df).
Proof.
  intros Hin.
  apply List.in_map_iff in Hin as (estado' & Heq & Hu).
  injection Heq as -> <-. split.
  - apply (proj1 (unique_In _ _)) in Hu.
    apply List.in_map_iff in Hu as (r & Hr & Hin).
    intros Hempty.
    assert (Hr' : In r (rows (state_frame full estado))).
    { cbn [rows state_frame]. apply List.filter_In. split; [assumption|].
      apply bool_decide_eq_true. assumption. }
    rewrite Hempty in Hr'. destruct Hr'.
  - apply List.Forall_forall. intros r Hr.
    cbn [rows state_frame] in Hr. apply List.filter_In in Hr as [_ Hr].
    apply bool_decide_eq_true in Hr. assumption.
Qed.

(** X10: the driver trains one model per state (l.95-106): the frames it
    hands to [train] carry distinct state names, none is empty, each holds
    only rows of its own state, and every row of the grouped table lies in
    the frame of its state. *)
Theorem training_frames_by_state raw frames :
  training_frames raw = Ok frames ->
  List.NoDup (map fst frames) /\
  (forall estado df, In (estado, df) frames ->
     rows df <> [] /\ Forall (fun r => h_Estado r = estado) (rows df)) /\
  exists full,
    driver_frame raw = Ok full /\
    forall r, In r (rows full) ->
      exists df, In (h_Estado r, df) frames /\ In r (rows df).
Proof.
  intros H. destruct (training_frames_inv raw frames H) as (full & Hd & ->).
  split; [|split].
  - rewrite List.map_map. cbn [fst]. rewrite List.map_id. apply unique_NoDup.
  - intros estado df Hin. exact (state_frame_rows full estado df Hin).
  - exists full. split; [assumption|]. intros r Hr.
    exists (state_frame full (h_Estado r)). split.
    + apply List.in_map_iff. exists (h_Estado r). split; [reflexivity|].
      apply (proj2 (unique_In _ _)). apply List.in_map_iff. eauto.
    + cbn [rows state_frame]. apply List.filter_In. split; [assumption|].
      apply bool_decide_eq_true. reflexivity.
Qed.

(** What the clipping gives whatever the table: an area is missing or
    reaches the floor. *)
Lemma clipped_areas_floor r :
  (is_nan (l_area_fazenda_ha (clip_areas r)) = true
   \/ at_least (1 # 10000) (l_area_fazenda_ha (clip_areas r))) /\
  (is_nan (l_area_floresta_ha (clip_areas r)) = true
   \/ at_least (1 # 10000) (l_area_floresta_ha (clip_areas r))).
Proof.
  cbn [clip_areas l_area_fazenda_ha l_area_floresta_ha].
  destruct (clip_lower_class (1 # 10000) (l_area_fazenda_ha r)) as [N1 F1].
  destruct (clip_lower_class (1 # 10000) (l_area_floresta_ha r)) as [N2 F2].
  rewrite N1, N2. split.
  - destruct (is_nan (l_area_fazenda_ha r)); auto.
  - destruct (is_nan (l_area_floresta_ha r)); auto.
Qed.

Lemma fadd_weights acc x :
  is_nan acc = true \/ at_least (1 # 10000) acc ->
  is_nan x = true \/ at_least (1 # 10000) x ->
  is_nan (fadd exact acc x) = true \/ at_least (1 # 10000) (fadd exact acc x).
Proof.
  intros [Ha|Ha] [Hx|Hx].
  - left. destruct acc; try discriminate Ha. reflexivity.
  - left. destruct acc; try discriminate Ha. reflexivity.
  - left. destruct x; try discriminate Hx. destruct acc; reflexivity.
  - right. apply (at_least_weaken ((1 # 10000) + (1 # 10000))); [lra|].
    apply fadd_at_least; assumption.
Qed.

(** The sums of a group of the clipped table: the summed areas, NaN
    skipped, are never negative, and the weights sum to NaN or reach the
    floor. *)
Lemma group_landuse_weights (raw : list LandUseRow) :
  Forall (fun g => at_least 0 (s_area_fazenda_ha (snd g)) /\
                   at_least 0 (s_area_floresta_ha (snd g)) /\
                   (is_nan (s_weights (snd g)) = true
                    \/ at_least (1 # 10000) (s_weights (snd g))))
         (group_landuse (map clip_areas raw)).
Proof.
  unfold group_landuse.
  assert (H0 : at_least 0 (Fin 0)) by (apply at_least_Fin; lra).
  apply (groupby_Forall _ _ _
           (fun r => (is_nan (l_area_fazenda_ha r) = true
                      \/ at_least (1 # 10000) (l_area_fazenda_ha r)) /\
                     (is_nan (l_area_floresta_ha r) = true
                      \/ at_least (1 # 10000) (l_area_floresta_ha r)))
           (fun acc => at_least 0 (s_area_fazenda_ha acc) /\
                       at_least 0 (s_area_floresta_ha acc) /\
                       (is_nan (s_weights acc) = true
                        \/ at_least (1 # 10000) (s_weights acc)))).
  - intros a (H1 & H2). cbn [first_sums s_area_fazenda_ha s_area_floresta_ha s_weights].
    split; [|split].
    + apply nanadd_keeps; [assumption|]. apply weaken_floor. assumption.
    + apply nanadd_keeps; [assumption|]. apply weaken_floor. assumption.
    + assumption.
  - intros acc a (A1 & A2 & A3) (H1 & H2).
    cbn [more_sums s_area_fazenda_ha s_area_floresta_ha s_weights].
    split; [|split].
    + apply nanadd_keeps; [assumption|]. apply weaken_floor. assumption.
    + apply nanadd_keeps; [assumption|]. apply weaken_floor. assumption.
    + apply fadd_weights; assumption.
  - apply List.Forall_forall. intros r Hr.
    apply List.in_map_iff in Hr as (r0 & <- & _).
    apply clipped_areas_floor.
Qed.

Lemma not_below_zero x : at_least 0 x -> is_nan x = false /\ flt x (Fin 0) = false.
Proof.
  intros H. apply at_least_inv in H as [->|(q & -> & Hq)]; [split; reflexivity|].
  split; [reflexivity|]. simpl. unfold Qltb.
  apply negb_false_iff. apply Qle_bool_iff. assumption.
Qed.

(** The grouped frame of the driver passes the area checks of
    [_validate_input_data]; the driver frame is refused only for its
    dates. *)
Lemma driver_frame_outcomes raw :
  (exists df, driver_frame raw = Ok df /\ columns df = driver_columns) \/
  (exists e, driver_frame raw = Raise (InvalidDateFormat e)).
Proof.
  unfold driver_frame.
  pose proof (group_landuse_weights raw) as HF.
  rewrite List.Forall_forall in HF.
  destruct (map_result_exists aggregate_row (group_landuse (map clip_areas raw)))
    as [rs Hrs].
  { intros g Hg. destruct (HF g Hg) as (_ & _ & Hw).
    unfold aggregate_row.
    destruct (zero_weights (s_weights (snd g))) eqn:Hz; [|eauto].
    exfalso. unfold zero_weights in Hz.
    destruct (s_weights (snd g)) as [q| | |]; try discriminate Hz.
    apply Qeq_bool_iff in Hz.
    destruct Hw as [Hw|Hw]; [discriminate Hw|].
    apply at_least_inv in Hw as [Hw|(q' & [= <-] & Hq)]; [discriminate Hw|].
    lra. }
  rewrite Hrs. cbn [rbind Ok].
  assert (Hareas : forall r, In r rs ->
            at_least 0 (h_area_fazenda_ha r) /\ at_least 0 (h_area_floresta_ha r)).
  { intros r Hr. destruct (map_result_In _ _ _ Hrs r Hr) as (g & Hg & Hagg).
    apply aggregate_row_areas in Hagg as (-> & -> & _).
    destruct (HF g Hg) as (H1 & H2 & _). auto. }
  unfold _validate_input_data. cbn [columns rows].
  change (List.filter _ _) with (@nil string).
  replace (existsb _ rs) with false.
  2:{ symmetry. apply not_true_is_false. intros Hex.
      apply List.existsb_exists in Hex as (r & Hr & Hnan).
      destruct (Hareas r Hr) as [H1 H2].
      apply not_below_zero in H1 as [N1 _]. apply not_below_zero in H2 as [N2 _].
      rewrite N1, N2 in Hnan. discriminate Hnan. }
  replace (existsb _ rs) with false.
  2:{ symmetry. apply not_true_is_false. intros Hex.
      apply List.existsb_exists in Hex as (r & Hr & Hneg).
      destruct (Hareas r Hr) as [H1 H2].
      apply not_below_zero in H1 as [_ N1]. apply not_below_zero in H2 as [_ N2].
      rewrite N1, N2 in Hneg. discriminate Hneg. }
  destruct (map_result _ rs) as [e|years] eqn:Hy.
  - right. apply map_result_error in Hy as (r & _ & Hr).
    unfold to_datetime_year in Hr. destruct (_ && _); [discriminate Hr|].
    injection Hr as <-. cbn [rbind is_ValueError class_of]. eauto.
  - left. cbn [rbind Ok]. eauto.
Qed.

(** X11: after the clipping of l.64-65 two failures of the driver cannot
    happen, whatever the table: the weighted average of l.71 never meets
    weights that sum to zero, and the negative-area check of
    [_validate_input_data] (l.42-43) never fires. *)
Theorem clipped_table_passes_area_checks raw :
  driver_frame raw <> Raise ZeroWeights /\
  driver_frame raw <> Raise NegativeAreas.
Proof.
  destruct (driver_frame_outcomes raw) as [(df & Hdf & _)|(e & He)].
  - rewrite Hdf. split; discriminate.
  - rewrite He. split; discriminate.
Qed.

Lemma insert_sorted_In x s l : In x (insert_sorted s l) <-> x = s \/ In x l.
Proof.
  clear prophet_sample.
  induction l as [|a l IH]; simpl; [intuition congruence|].
  destruct (String.compare s a) eqn:Hc; simpl.
  - apply String.compare_eq_iff in Hc. subst. intuition congruence.
  - intuition congruence.
  - rewrite IH. intuition congruence.
Qed.

Lemma fit_classes_In x names :
  In x (fold_right insert_sorted [] names) <-> In x names.
Proof.
  clear prophet_sample.
  induction names as [|n names IH]; simpl; [tauto|].
  rewrite insert_sorted_In, IH. intuition congruence.
Qed.


Lemma insert_group_keys {A B : Type} (init : A -> B) (merge : B -> A -> B)
    (k : group_key) (r : A) groups g :
  In g (insert_group init merge k r groups) ->
  fst g = k \/ exists g', In g' groups /\ fst g' = fst g.
Proof.
  induction groups as [|[k' acc] rest IH]; simpl.
  - intros [<-|[]]. left. reflexivity.
  - destruct (key_compare k k'); simpl.
    + intros [<-|H]; right; [exists (k', acc)|exists g]; simpl; auto.
    + intros [<-|[<-|H]]; [left; reflexivity| |];
        right; [exists (k', acc)|exists g]; simpl; auto.
    + intros [<-|H]; [right; exists (k', acc); simpl; auto|].
      destruct (IH H) as [Hk|(g' & Hg' & Hfst)]; [left; assumption|].
      right. exists g'. auto.
Qed.

(** Every group comes from a row with its key. *)
Lemma groupby_keys {A B : Type} (key : A -> group_key) (init : A -> B)
    (merge : B -> A -> B) (rs : list A) g :
  In g (groupby key init merge rs) -> exists r, In r rs /\ key r = fst g.
Proof.
  unfold groupby.
  assert (Hgen : forall groups,
    In g (fold_left (fun groups r => insert_group init merge (key r) r groups) rs groups) ->
    (exists r, In r rs /\ key r = fst g) \/ exists g', In g' groups /\ fst g' = fst g).
  { induction rs as [|r rs IH]; intros groups H; simpl in H.
    - right. exists g. auto.
    - destruct (IH _ H) as [(r' & Hr' & Hk)|(g' & Hg' & Hfst)].
      + left. exists r'. simpl. auto.
      + apply insert_group_keys in Hg' as [Hk|(g'' & Hg'' & Hfst')].
        * left. exists r. simpl. split; [auto|congruence].
        * right. exists g''. split; [assumption|congruence]. }
  intros H. destruct (Hgen [] H) as [Hr|(g' & [] & _)]. assumption.
Qed.




















Lemma train_keeps_encoder self df :
  encoder_estados (snd (train prophet_sample column_stats self df))
  = encoder_estados self.
Proof.
  unfold train, train_try.
  pose proof (preprocess_data_keeps_model column_stats self df) as (_ & _ & _ & He).
  destruct (preprocess_data column_stats self df) as [[e|processed] self1];
    simpl in He; [simpl; assumption|].
  destruct (List.filter _ ("ds" :: "y" :: feature_columns self1));
    [|simpl; assumption].
  destruct (model self1) as [m|]; [|simpl; assumption].
  destruct (add_regressors m _) as [e|m1]; [simpl; assumption|].
  destruct (Prophet_fit prophet_sample m1 _ processed) as [e|m2];
    simpl; assumption.
Qed.

Lemma trained_artifact_loads enc fs path :
  holds_trained_artifact enc fs path ->
  exists forecaster m theta,
    load_model path fs = Ok forecaster /\
    is_trained forecaster = true /\
    encoder_estados forecaster = Some enc /\
    model forecaster = Some m /\ history m = Some theta.
Proof.
  intros (a & m & theta & Hf & He & Hp & Hm & Hh).
  unfold load_model, load_model_try, joblib_load. rewrite Hf.
  cbn [rbind Ok encoder_estados]. rewrite He.
  cbn [preprocessor]. destruct (a_preprocessor a) as [ct|]; [|congruence].
  cbn [has_transform]. exists (set_is_trained
    {| model := a_model a;
       feature_columns := default [] (a_feature_columns a);
       geo_columns := default [] (a_geo_columns a);
       preprocessor := Some ct;
       is_trained := is_trained __init__;
       encoder_estados := Some enc |} true), m, theta.
  repeat split; assumption.
Qed.

Lemma train_states_artifacts enc cs :
  classes_ enc = Some cs ->
  forall frames fs fs',
    train_states prophet_sample column_stats enc frames fs = (Ok tt, fs') ->
    (forall p, holds_trained_artifact enc fs p -> holds_trained_artifact enc fs' p) /\
    (forall estado, In estado (map fst frames) ->
       holds_trained_artifact enc fs' (artifact_path estado)).
Proof.
  intros Hcs. induction frames as [|[estado df] rest IH]; intros fs fs' H.
  - simpl in H. injection H as <-. split; [auto|]. intros estado [].
  - cbn [train_states] in H.
    destruct (LabelEncoder_transform enc (VStr estado)) as [e|code];
      [discriminate H|].
    destruct (train prophet_sample column_stats (set_encoder __init__ enc) df)
      as [[e|[]] trained] eqn:Ht; [discriminate H|].
    pose proof (train_keeps_encoder (set_encoder __init__ enc) df) as Henc.
    rewrite Ht in Henc. cbn [snd encoder_estados set_encoder] in Henc.
    destruct (fresh_train_operational prophet_sample column_stats enc df trained Ht)
      as (Htrained & _ & _ & _ & (params & Hct & _) & (theta & Hm)).
    unfold save_model in H. rewrite Htrained, Hm, Hct, Henc, Hcs in H.
    cbn [negb] in H.
    fold (artifact_path estado) in H.
    set (a := {| a_model := _ |}) in H.
    assert (Hnew : holds_trained_artifact enc (<[artifact_path estado := Pickled a]> fs)
                                          (artifact_path estado)).
    { exists a. eexists. exists theta. rewrite lookup_insert_eq.
      repeat split; try reflexivity. discriminate. }
    assert (Hkeep : forall p, holds_trained_artifact enc fs p ->
              holds_trained_artifact enc (<[artifact_path estado := Pickled a]> fs) p).
    { intros p Hp. destruct (decide (p = artifact_path estado)) as [->|Hne];
        [assumption|].
      destruct Hp as (a' & m' & th' & Hf & Hrest).
      exists a', m', th'. rewrite lookup_insert_ne by congruence. auto. }
    destruct (IH _ _ H) as [IHkeep IHnew]. split.
    + intros p Hp. apply IHkeep. apply Hkeep. assumption.
    + intros e' [<-|Hin]; [apply IHkeep; assumption|apply IHnew; assumption].
Qed.

(** X13: when the driver ends with status 0, the artifact of every state
    of the table is on disk and [load_model] turns it into a forecaster
    marked trained, with a fitted model and the one encoder the driver
    fitted over all the states. *)
Theorem driver_success_leaves_loadable_artifacts raw frames fs fs' :
  training_frames raw = Ok frames ->
  main prophet_sample column_stats raw fs = (0, fs') ->
  forall estado, In estado (map fst frames) ->
    exists forecaster m theta,
      load_model (artifact_path estado) fs' = Ok forecaster /\
      is_trained forecaster = true /\
      encoder_estados forecaster = Some (LabelEncoder_fit (map fst frames)) /\
      model forecaster = Some m /\ history m = Some theta.
Proof.
  intros Hframes Hmain estado Hin.
  unfold main in Hmain. rewrite Hframes in Hmain. cbn [Ok] in Hmain.
  destruct (train_states prophet_sample column_stats _ frames fs)
    as [[e|[]] fs1] eqn:Hts; [discriminate Hmain|].
  injection Hmain as <-.
  eapply trained_artifact_loads.
  eapply (train_states_artifacts (LabelEncoder_fit (map fst frames)));
    [reflexivity|eassumption|assumption].
Qed.

(** *** The order of the groups *)

Lemma ascii_compare_refl a : Ascii.compare a a = Eq.
Proof. unfold Ascii.compare. apply N.compare_refl. Qed.

Lemma ascii_compare_eq a b : Ascii.compare a b = Eq -> a = b.
Proof.
  unfold Ascii.compare. intros H. apply N.compare_eq_iff in H.
  rewrite <- (Ascii.ascii_N_embedding a), <- (Ascii.ascii_N_embedding b).
  congruence.
Qed.

Lemma ascii_compare_lt_trans a b c :
  Ascii.compare a b = Lt -> Ascii.compare b c = Lt -> Ascii.compare a c = Lt.
Proof.
  unfold Ascii.compare. rewrite !N.compare_lt_iff. lia.
Qed.

Lemma string_compare_lt_trans s1 : forall s2 s3,
  String.compare s1 s2 = Lt -> String.compare s2 s3 = Lt -> String.compare s1 s3 = Lt.
Proof.
  induction s1 as [|a s1 IH]; intros [|b s2] [|c s3]; simpl; try congruence.
  destruct (Ascii.compare a b) eqn:Hab; try congruence;
    destruct (Ascii.compare b c) eqn:Hbc; try congruence; intros H1 H2.
  - apply ascii_compare_eq in Hab, Hbc. subst. rewrite ascii_compare_refl. eauto.
  - apply ascii_compare_eq in Hab. subst. rewrite Hbc. reflexivity.
  - apply ascii_compare_eq in Hbc. subst. rewrite Hab. reflexivity.
  - rewrite (ascii_compare_lt_trans a b c Hab Hbc). reflexivity.
Qed.

Lemma string_compare_refl s : String.compare s s = Eq.
Proof.
  induction s as [|a s IH]; simpl; [reflexivity|].
  rewrite ascii_compare_refl. assumption.
Qed.

Lemma key_compare_eq a b : key_compare a b = Eq -> a = b.
Proof.
  destruct a as [[s1 z1] t1], b as [[s2 z2] t2]. unfold key_compare. cbn [fst snd].
  destruct (String.compare s1 s2) eqn:Hs; try discriminate.
  destruct (Z.compare z1 z2) eqn:Hz; try discriminate.
  intros Ht. apply String.compare_eq_iff in Hs, Ht. apply Z.compare_eq_iff in Hz.
  congruence.
Qed.

Lemma key_compare_lt_trans a b c :
  key_compare a b = Lt -> key_compare b c = Lt -> key_compare a c = Lt.
Proof.
  destruct a as [[s1 z1] t1], b as [[s2 z2] t2], c as [[s3 z3] t3].
  unfold key_compare. cbn [fst snd].
  destruct (String.compare s1 s2) eqn:H12; try discriminate;
    destruct (String.compare s2 s3) eqn:H23; try discriminate.
  - apply String.compare_eq_iff in H12, H23. subst.
    rewrite string_compare_refl.
    destruct (Z.compare z1 z2) eqn:Hz12; try discriminate;
      destruct (Z.compare z2 z3) eqn:Hz23; try discriminate.
    + apply Z.compare_eq_iff in Hz12, Hz23. subst. rewrite Z.compare_refl.
      apply string_compare_lt_trans.
    + apply Z.compare_eq_iff in Hz12. subst. rewrite Hz23. reflexivity.
    + apply Z.compare_eq_iff in Hz23. subst. rewrite Hz12. reflexivity.
    + assert (Hz : (z1 ?= z3)%Z = Lt).
      { rewrite Z.compare_lt_iff in *. lia. }
      rewrite Hz. reflexivity.
  - apply String.compare_eq_iff in H12. subst. rewrite H23. reflexivity.
  - apply String.compare_eq_iff in H23. subst. rewrite H12. reflexivity.
  - rewrite (string_compare_lt_trans _ _ _ H12 H23). reflexivity.
Qed.

Lemma key_compare_gt_lt a b : key_compare a b = Gt -> key_compare b a = Lt.
Proof.
  destruct a as [[s1 z1] t1], b as [[s2 z2] t2]. unfold key_compare. cbn [fst snd].
  rewrite (String.compare_antisym s1 s2), (String.compare_antisym t1 t2),
    (Z.compare_antisym z1 z2).
  destruct (String.compare s2 s1); simpl; try congruence.
  destruct (Z.compare z1 z2); simpl; try congruence.
  destruct (String.compare t2 t1); simpl; congruence.
Qed.

Lemma insert_group_sorted {A B : Type} (init : A -> B) (merge : B -> A -> B) k r :
  forall groups,
    StronglySorted (fun a b => key_compare (fst a) (fst b) = Lt) groups ->
    StronglySorted (fun a b : group_key * B => key_compare (fst a) (fst b) = Lt)
      (insert_group init merge k r groups).
Proof.
  induction groups as [|[k' acc] rest IH]; intros Hs; simpl.
  - constructor; constructor.
  - apply StronglySorted_inv in Hs as [Hrest Hall].
    destruct (key_compare k k') eqn:Hc.
    + constructor; assumption.
    + constructor; [constructor; assumption|].
      constructor; [assumption|].
      eapply List.Forall_impl; [|exact Hall]. cbn [fst]. intros g Hg.
      eapply key_compare_lt_trans; eassumption.
    + constructor; [apply IH; assumption|].
      apply List.Forall_forall. intros g Hg. cbn [fst].
      apply insert_group_keys in Hg as [->|(g' & Hg' & <-)].
      * apply key_compare_gt_lt. assumption.
      * rewrite List.Forall_forall in Hall. exact (Hall g' Hg').
Qed.

Lemma groupby_sorted {A B : Type} (key : A -> group_key) (init : A -> B)
    (merge : B -> A -> B) (rs : list A) :
  StronglySorted (fun a b : group_key * B => key_compare (fst a) (fst b) = Lt)
    (groupby key init merge rs).
Proof.
  unfold groupby.
  assert (Hgen : forall groups,
    StronglySorted (fun a b : group_key * B => key_compare (fst a) (fst b) = Lt) groups ->
    StronglySorted (fun a b : group_key * B => key_compare (fst a) (fst b) = Lt)
      (fold_left (fun groups r => insert_group init merge (key r) r groups) rs groups)).
  { induction rs as [|r rs IH]; intros groups Hs; simpl; [assumption|].
    apply IH. apply insert_group_sorted. assumption. }
  apply Hgen. constructor.
Qed.

Lemma key_compare_lt_irrefl a : key_compare a a <> Lt.
Proof.
  destruct a as [[s z] t]. unfold key_compare. cbn [fst snd].
  rewrite !string_compare_refl, Z.compare_refl. discriminate.
Qed.

Lemma sorted_keys_NoDup {B : Type} (groups : list (group_key * B)) :
  StronglySorted (fun a b => key_compare (fst a) (fst b) = Lt) groups ->
  List.NoDup (map fst groups).
Proof.
  induction 1 as [|g groups Hs IH Hall]; simpl; constructor; [|assumption].
  intros Hin. apply List.in_map_iff in Hin as (g' & Heq & Hg').
  rewrite List.Forall_forall in Hall. specialize (Hall g' Hg').
  rewrite Heq in Hall. exact (key_compare_lt_irrefl _ Hall).
Qed.

Lemma insert_group_covers {A B : Type} (init : A -> B) (merge : B -> A -> B) k r :
  forall groups,
    In k (map fst (insert_group init merge k r groups)) /\
    forall k0, In k0 (map fst groups) ->
      In k0 (map fst (insert_group init merge k r groups)).
Proof.
  induction groups as [|[k' acc] rest IH]; simpl; [tauto|].
  destruct (key_compare k k') eqn:Hc; simpl.
  - apply key_compare_eq in Hc. subst. tauto.
  - tauto.
  - destruct IH as [IH1 IH2]. split; [tauto|].
    intros k0 [H|H]; [tauto|]. right. apply IH2. assumption.
Qed.

Lemma groupby_covers {A B : Type} (key : A -> group_key) (init : A -> B)
    (merge : B -> A -> B) (rs : list A) r :
  In r rs -> In (key r) (map fst (groupby key init merge rs)).
Proof.
  unfold groupby.
  assert (Hgen : forall groups k0,
    In k0 (map fst groups) \/ (exists r0, In r0 rs /\ key r0 = k0) ->
    In k0 (map fst
      (fold_left (fun groups r => insert_group init merge (key r) r groups) rs groups))).
  { induction rs as [|r0 rs IH]; intros groups k0 H; simpl.
    - destruct H as [H|(r0 & [] & _)]. assumption.
    - apply IH.
      destruct (insert_group_covers init merge (key r0) r0 groups) as [H1 H2].
      destruct H as [H|(r1 & [->|Hr1] & Hk)].
      + left. apply H2. assumption.
      + left. rewrite <- Hk. assumption.
      + right. eauto. }
  intros Hr. apply Hgen. right. eauto.
Qed.

(** X15: the two groupings, of [preprocess_data] (l.97-101) and of the
    driver (l.68-70), give one group for each combination of state, date and
    biome that occurs in the table: no key is repeated, the keys come in
    ascending order, every key is the key of a row and every row has its
    group. *)
Theorem groups_are_the_distinct_keys (rs : list HistRow) (table : list LandUseRow) :
  (List.NoDup (map fst (group_rows rs)) /\
   StronglySorted (fun a b => key_compare a b = Lt) (map fst (group_rows rs)) /\
   forall k, In k (map fst (group_rows rs)) <->
             exists r, In r rs /\ (h_Estado r, h_ds r, h_bioma r) = k) /\
  (List.NoDup (map fst (group_landuse table)) /\
   StronglySorted (fun a b => key_compare a b = Lt) (map fst (group_landuse table)) /\
   forall k, In k (map fst (group_landuse table)) <->
             exists r, In r table /\ (l_Estado r, l_ano r, l_bioma r) = k).
Proof.
  assert (Hmap : forall (B : Type) (groups : list (group_key * B)),
    StronglySorted (fun a b => key_compare (fst a) (fst b) = Lt) groups ->
    StronglySorted (fun a b => key_compare a b = Lt) (map fst groups)).
  { intros B groups. induction 1 as [|g groups Hs IH Hall]; simpl; constructor.
    - assumption.
    - apply List.Forall_map. assumption. }
  unfold group_rows, group_landuse. split; (split; [|split]).
  - apply sorted_keys_NoDup, groupby_sorted.
  - apply Hmap, groupby_sorted.
  - intros k. split.
    + intros Hin. apply List.in_map_iff in Hin as (g & <- & Hg).
      apply groupby_keys in Hg. exact Hg.
    + intros (r & Hr & <-).
      apply (groupby_covers (fun r => (h_Estado r, h_ds r, h_bioma r))). assumption.
  - apply sorted_keys_NoDup, groupby_sorted.
  - apply Hmap, groupby_sorted.
  - intros k. split.
    + intros Hin. apply List.in_map_iff in Hin as (g & <- & Hg).
      apply groupby_keys in Hg. exact Hg.
    + intros (r & Hr & <-).
      apply (groupby_covers (fun r => (l_Estado r, l_ano r, l_bioma r))). assumption.
Qed.

(** *** State codes *)

Lemma index_of_nth s cs i : index_of s cs = Some i -> nth_error cs i = Some s.
Proof.
  revert i. induction cs as [|c cs IH]; intros i; simpl; [discriminate|].
  destruct (bool_decide (c = s)) eqn:Hc.
  - apply bool_decide_eq_true in Hc. intros [= <-]. simpl. congruence.
  - destruct (index_of s cs) as [j|]; simpl; [|discriminate].
    intros [= <-]. simpl. apply IH. reflexivity.
Qed.

(** X16: the code of a state (predict l.225, [_create_future_dataframe]
    l.326) identifies it: whenever two mappings are encoded by the same
    forecaster, their codes are equal exactly when their states are, and a
    code is a position in the list of classes of the encoder. *)
Theorem state_codes_identify_states self d1 d2 c1 c2 :
  encode_estado self d1 = Ok c1 ->
  encode_estado self d2 = Ok c2 ->
  (c1 = c2 <-> d1 !! "Estado" = d2 !! "Estado") /\
  exists enc cs,
    encoder_estados self = Some enc /\ classes_ enc = Some cs /\
    0 <= c1 < Z.of_nat (length cs).
Proof.
  unfold encode_estado, LabelEncoder_transform, getitem. intros H1 H2.
  destruct (encoder_estados self) as [enc|] eqn:He; [|discriminate H1].
  destruct (d1 !! "Estado") as [v1|]; [|discriminate H1].
  destruct (d2 !! "Estado") as [v2|]; [|discriminate H2].
  cbn [rbind Ok] in H1, H2.
  destruct (classes_ enc) as [cs|] eqn:Hcs; [|discriminate H1].
  destruct v1 as [|?|s1|]; try discriminate H1.
  destruct v2 as [|?|s2|]; try discriminate H2.
  destruct (index_of s1 cs) as [i1|] eqn:E1; [|discriminate H1].
  destruct (index_of s2 cs) as [i2|] eqn:E2; [|discriminate H2].
  injection H1 as <-. injection H2 as <-.
  pose proof (index_of_nth _ _ _ E1) as N1.
  pose proof (index_of_nth _ _ _ E2) as N2.
  split.
  - split.
    + intros Hc. apply Nat2Z.inj in Hc. subst. congruence.
    + intros [= ->]. congruence.
  - exists enc, cs. repeat split; try reflexivity; try assumption; try lia.
    assert (i1 < length cs)%nat; [|lia].
    apply List.nth_error_Some. congruence.
Qed.

Lemma string_compare_gt_lt s t : String.compare s t = Gt -> String.compare t s = Lt.
Proof.
  rewrite (String.compare_antisym t s). intros ->. reflexivity.
Qed.

Lemma insert_sorted_sorted s : forall l,
  StronglySorted (fun a b => String.compare a b = Lt) l ->
  StronglySorted (fun a b => String.compare a b = Lt) (insert_sorted s l).
Proof.
  induction l as [|x l IH]; intros Hs; simpl.
  - constructor; constructor.
  - pose proof Hs as Hs0. apply StronglySorted_inv in Hs as [Hrest Hall].
    destruct (String.compare s x) eqn:Hc.
    + assumption.
    + constructor; [assumption|]. constructor; [assumption|].
      eapply List.Forall_impl; [|exact Hall]. intros y Hy.
      eapply string_compare_lt_trans; eassumption.
    + constructor; [apply IH; assumption|].
      apply List.Forall_forall. intros y Hy.
      apply insert_sorted_In in Hy as [->|Hy].
      * apply string_compare_gt_lt. assumption.
      * rewrite List.Forall_forall in Hall. auto.
Qed.

Lemma fit_classes_sorted names :
  StronglySorted (fun a b => String.compare a b = Lt)
    (fold_right insert_sorted [] names).
Proof.
  induction names as [|n names IH]; simpl; [constructor|].
  apply insert_sorted_sorted. assumption.
Qed.

Lemma sorted_strings_NoDup l :
  StronglySorted (fun a b => String.compare a b = Lt) l -> List.NoDup l.
Proof.
  induction 1 as [|x l Hs IH Hall]; constructor; [|assumption].
  intros Hin. rewrite List.Forall_forall in Hall. specialize (Hall x Hin).
  rewrite string_compare_refl in Hall. discriminate.
Qed.

Lemma index_of_positions cs :
  List.NoDup cs ->
  map (fun s => index_of s cs) cs = map Some (seq 0 (length cs)).
Proof.
  induction 1 as [|c cs Hnotin Hnd IH]; simpl; [reflexivity|].
  rewrite bool_decide_eq_true_2 by reflexivity. f_equal.
  rewrite <- List.seq_shift, List.map_map.
  transitivity (map (fun s => S <$> index_of s cs) cs).
  - apply List.map_ext_in. intros s Hs.
    rewrite bool_decide_eq_false_2; [reflexivity|]. intros ->. contradiction.
  - change (fun s => S <$> index_of s cs)
      with (fun s => (fmap S) ((fun s => index_of s cs) s)).
    rewrite <- (List.map_map (fun s => index_of s cs) (fmap S)), IH, List.map_map.
    reflexivity.
Qed.

Lemma map_result_map {A B : Type} (f : A -> result B) (g : A -> B) l :
  (forall a, In a l -> f a = Ok (g a)) -> map_result f l = Ok (map g l).
Proof.
  induction l as [|a l IH]; intros H; simpl; [reflexivity|].
  rewrite (H a) by (left; reflexivity). cbn [rbind Ok].
  rewrite IH by (intros; apply H; right; assumption). reflexivity.
Qed.

(** X17: the encoder the driver fits on the state names (l.91-92) numbers
    the states of the table: the codes it gives to the states of the loop
    (l.104) are the numbers from 0 to the number of states minus one, each
    taken once. *)
Theorem driver_codes_number_the_states raw frames :
  training_frames raw = Ok frames ->
  exists codes,
    map_result (fun f => LabelEncoder_transform (LabelEncoder_fit (map fst frames))
                           (VStr (fst f))) frames = Ok codes /\
    Permutation codes (map Z.of_nat (seq 0 (length frames))).
Proof.
  intros H. destruct (training_frames_inv raw frames H) as (full & _ & ->).
  rewrite List.map_map. cbn [fst]. rewrite List.map_id.
  set (names := unique (map h_Estado (rows full))).
  set (cs := fold_right insert_sorted [] names).
  set (code := fun s => Z.of_nat (default O (index_of s cs))).
  assert (Hnd : List.NoDup cs) by apply sorted_strings_NoDup, fit_classes_sorted.
  assert (Hperm : Permutation names cs).
  { apply Permutation.NoDup_Permutation; [apply unique_NoDup|assumption|].
    intros x. symmetry. apply fit_classes_In. }
  exists (map code names). split.
  - rewrite (map_result_map _ (fun f => code (fst f))).
    + rewrite List.map_map. reflexivity.
    + intros f Hf. apply List.in_map_iff in Hf as (s & <- & Hs). cbn [fst].
      unfold LabelEncoder_transform, LabelEncoder_fit. cbn [classes_].
      fold cs. unfold code.
      destruct (index_of_elem s cs) as [i Hi].
      { apply list_elem_of_In. apply fit_classes_In. assumption. }
      rewrite Hi. reflexivity.
  - rewrite length_map, (Permutation_length Hperm).
    rewrite (Permutation_map code Hperm).
    unfold code.
    rewrite <- (List.map_map (fun s => index_of s cs)
                             (fun o => Z.of_nat (default O o))).
    rewrite (index_of_positions cs Hnd), List.map_map. cbn [default]. reflexivity.
Qed.

(** *** From training to the artifact *)

Lemma preprocess_ok_components self df processed self1 :
  preprocess_data column_stats self df = (Ok processed, self1) ->
  exists enc cs ct,
    encoder_estados self1 = Some enc /\ classes_ enc = Some cs /\
    preprocessor self1 = Some ct.
Proof.
  unfold preprocess_data.
  destruct (bool_decide _); [discriminate|].
  destruct (List.filter _ required_cols); [|discriminate].
  destruct (negb _); [discriminate|].
  destruct (encoder_estados self) as [enc|] eqn:He; [|discriminate].
  destruct (encode_states enc _) as [e|grouped] eqn:Henc; [discriminate|].
  destruct (scale_features column_stats self grouped) as [e|[ct scaled]] eqn:Hsc;
    [discriminate|].
  intros H. injection H as _ <-.
  cbn [set_preprocessor encoder_estados preprocessor].
  destruct (group_rows (rows df)) as [|g groups].
  - exfalso. unfold encode_states in Henc. simpl in Henc. injection Henc as <-.
    unfold scale_features in Hsc. simpl in Hsc.
    destruct (preprocessor self); discriminate Hsc.
  - destruct (encode_states_fitted enc g groups grouped Henc) as [cs Hcs].
    exists enc, cs, ct. auto.
Qed.

(** X18: a forecaster whose [train] has returned can always be saved, and
    [load_model] on the path gives back the forecaster as trained: none of
    the refusals of [save_model] (l.380-386) can fire after a training that
    succeeded. *)
Theorem trained_forecaster_round_trips self df trained path fs :
  train prophet_sample column_stats self df = (Ok tt, trained) ->
  exists fs',
    save_model trained path fs = (Ok tt, fs') /\
    load_model path fs' = Ok trained.
Proof.
  unfold train, train_try.
  destruct (preprocess_data column_stats self df) as [[e|processed] self1] eqn:Hp;
    [discriminate|].
  destruct (preprocess_ok_components self df processed self1 Hp)
    as (enc & cs & ct & He & Hcs & Hct).
  destruct (List.filter _ ("ds" :: "y" :: feature_columns self1)); [|discriminate].
  destruct (model self1) as [m|]; [|discriminate].
  destruct (add_regressors m _) as [e|m1]; [discriminate|].
  destruct (Prophet_fit prophet_sample m1 _ processed) as [e|m2]; [discriminate|].
  intros H. injection H as <-.
  unfold save_model.
  cbn [is_trained set_is_trained set_model model preprocessor encoder_estados negb
       feature_columns geo_columns].
  rewrite Hct, He, Hcs. eexists. split; [reflexivity|].
  unfold load_model, load_model_try, joblib_load.
  rewrite lookup_insert_eq.
  cbn [rbind Ok a_model a_preprocessor a_encoder_estados a_feature_columns
       a_geo_columns encoder_estados preprocessor has_transform default].
  destruct self1 as [m0 fc gc p0 t0 e0]. simpl in *. subst. reflexivity.
Qed.

(** *** The direction of the projection *)

Lemma round_half_even_mono (x y : Q) :
  (x <= y)%Q -> round_half_even x <= round_half_even y.
Proof.
  intros Hxy. pose proof (Qfloor_resp_le x y Hxy) as Hf.
  unfold round_half_even.
  destruct (Z.eq_dec (Qfloor x) (Qfloor y)) as [Heq|Hne].
  - rewrite <- Heq.
    destruct (Qcompare_spec (x - inject_Z (Qfloor x)) (1 # 2));
      destruct (Qcompare_spec (y - inject_Z (Qfloor x)) (1 # 2));
      try destruct (Z.even (Qfloor x)); try lia; exfalso; lra.
  - destruct (Qcompare (x - inject_Z (Qfloor x)) (1 # 2));
      destruct (Qcompare (y - inject_Z (Qfloor y)) (1 # 2));
      try destruct (Z.even (Qfloor x)); try destruct (Z.even (Qfloor y)); lia.
Qed.

Lemma fle_Fin_inv a b : fle (Fin a) (Fin b) = true -> (a <= b)%Q.
Proof. simpl. apply Qle_bool_iff. Qed.

Lemma fle_between a b x :
  fle (Fin a) x = true -> fle x (Fin b) = true ->
  exists q, x = Fin q /\ (a <= q <= b)%Q.
Proof.
  destruct x as [q| | |]; simpl; try discriminate.
  intros H1 H2. apply Qle_bool_iff in H1, H2. eauto.
Qed.

Lemma fle_not_nan x y : fle x y = true -> is_nan x = false /\ is_nan y = false.
Proof. destruct x, y; simpl; try discriminate; auto. Qed.

Lemma fle_trans x y z : fle x y = true -> fle y z = true -> fle x z = true.
Proof.
  destruct x as [a| | |], y as [b| | |], z as [c| | |]; simpl;
    try discriminate; try reflexivity.
  intros H1 H2. apply Qle_bool_iff in H1, H2. apply Qle_bool_iff. lra.
Qed.

Lemma sorted_map {A B : Type} (R : A -> A -> Prop) (R' : B -> B -> Prop) (g : A -> B)
    (P : A -> Prop) l :
  (forall a b, P a -> P b -> R a b -> R' (g a) (g b)) ->
  Forall P l ->
  StronglySorted R l -> StronglySorted R' (map g l).
Proof.
  intros Hg HP. induction 1 as [|a l Hs IH Hall]; simpl; constructor.
  - apply IH. apply List.Forall_cons_iff in HP as [_ HP]. assumption.
  - apply List.Forall_cons_iff in HP as [Pa HP].
    apply List.Forall_map. rewrite List.Forall_forall in *.
    intros b Hb. apply Hg; auto.
Qed.

Lemma sorted_zip_middle {A B C : Type} (R : B -> B -> Prop) (l2 : list B) :
  StronglySorted R l2 ->
  forall (l1 : list A) (l3 : list C),
    StronglySorted (fun a b => R (snd (fst a)) (snd (fst b))) (zip (zip l1 l2) l3).
Proof.
  induction 1 as [|b l2 Hs IH Hall]; intros l1 l3.
  - destruct l1; simpl; constructor.
  - destruct l1 as [|a l1]; [simpl; constructor|].
    destruct l3 as [|c l3]; [simpl; constructor|].
    simpl. constructor; [apply IH|].
    apply List.Forall_forall. intros [[a' b'] c'] Hin. cbn [fst snd].
    rewrite List.Forall_forall in Hall. apply Hall.
    apply list_elem_of_In in Hin.
    apply elem_of_zip_l in Hin. apply elem_of_zip_r in Hin.
    apply list_elem_of_In. assumption.
Qed.

(** The forest area of an accepted mapping is a number not below 0. *)
Lemma validated_inputs_floor self ic :
  _validate_inputs self ic = Ok tt ->
  exists floresta, ic !! "area_floresta_ha" = Some floresta /\ not_below 0 floresta.
Proof.
  intros Hv. unfold _validate_inputs in Hv.
  destruct (missing_keys self ic); [|discriminate Hv].
  destruct (check_types ic type_checks) as [e|[]]; [discriminate Hv|].
  cbn [rbind] in Hv.
  destruct (check_ranges ic numeric_checks) as [e|[]] eqn:E; [discriminate Hv|].
  unfold numeric_checks in E.
  apply check_range_min in E as (fa & Hfa & Hfa0 & _ & E).
  apply check_range_min in E as (fl & Hfl & Hfl0 & _ & E).
  exists fl. auto.
Qed.

Section Direction.

Hypothesis rounding : monotone_rounding rnd.

Local Set Default Proof Using "Type rounding".

Lemma rnd_mono x y : (x <= y)%Q -> fle (rnd x) (rnd y) = true.
Proof. destruct rounding as (H & _). apply H. Qed.

Lemma rnd_not_nan x : is_nan (rnd x) = false.
Proof.
  pose proof (rnd_mono x x (Qle_refl x)) as H.
  destruct (rnd x); simpl in *; congruence.
Qed.

(** The rounding of a value between two floats lies between them. *)
Lemma rnd_between lo hi x :
  rnd lo = Fin lo -> rnd hi = Fin hi -> (lo <= x <= hi)%Q ->
  float_between rnd lo hi (rnd x).
Proof.
  intros Hlo Hhi [H1 H2].
  pose proof (rnd_mono lo x H1) as M1. pose proof (rnd_mono x hi H2) as M2.
  rewrite Hlo in M1. rewrite Hhi in M2.
  destruct (fle_between lo hi (rnd x) M1 M2) as (q & Hq & Hb).
  exists q. split; [assumption|]. split; [assumption|].
  destruct rounding as (_ & _ & _ & Hidem). eapply Hidem. eassumption.
Qed.

Lemma round4_not_nan x : is_nan x = false -> is_nan (round4 rnd x) = false.
Proof.
  destruct x as [q| | |]; simpl; try discriminate; try reflexivity. intros _.
  pose proof (rnd_not_nan (q * 10000)) as H.
  destruct (rnd (q * 10000)); try discriminate H; try reflexivity.
  apply rnd_not_nan.
Qed.

(** Rounding to four places keeps the order. *)
Lemma round4_mono x y : fle x y = true -> fle (round4 rnd x) (round4 rnd y) = true.
Proof.
  intros H. destruct (fle_not_nan x y H) as [Nx Ny].
  pose proof (round4_not_nan x Nx) as Rx. pose proof (round4_not_nan y Ny) as Ry.
  assert (Hext : forall u v, is_nan u = false -> is_nan v = false ->
                             u = NInf \/ v = PInf -> fle u v = true).
  { intros u v Nu Nv [->| ->]; [destruct v|destruct u]; try discriminate; reflexivity. }
  destruct x as [a| | |], y as [b| | |]; try discriminate H;
    try (apply Hext; [assumption|assumption|auto]; fail).
  apply fle_Fin_inv in H.
  assert (Hm : (a * 10000 <= b * 10000)%Q) by lra.
  pose proof (rnd_mono _ _ Hm) as M.
  unfold round4 in *.
  destruct (rnd (a * 10000)) as [m| | |], (rnd (b * 10000)) as [m'| | |];
    try discriminate M;
    try (apply Hext; [assumption|assumption|auto]; fail).
  apply fle_Fin_inv in M. apply round_half_even_mono in M.
  rewrite Zle_Qle in M. apply rnd_mono.
  unfold Qdiv. change (/ 10000)%Q with (1 # 10000)%Q. lra.
Qed.

Lemma round4_zero : fle (Fin 0) (round4 rnd (Fin 0)) = true.
Proof.
  destruct rounding as (_ & H0 & _).
  unfold round4. change (0 * 10000)%Q with 0%Q. rewrite H0.
  change (round_half_even 0) with 0%Z.
  rewrite <- H0 at 1. apply rnd_mono. vm_compute. discriminate.
Qed.

(** The running product of factors between 0 and 1 never grows. *)
Lemma cumprod_from_bounds c l :
  (0 <= c)%Q -> rnd c = Fin c ->
  Forall (float_between rnd 0 1) l ->
  Forall (float_between rnd 0 c) (cumprod_from rnd (Fin c) l).
Proof.
  destruct rounding as (_ & H0 & _ & _).
  revert c. induction l as [|x l IH]; intros c Hc Hcf HF; simpl; [constructor|].
  apply List.Forall_cons_iff in HF as [(q & -> & [Hq0 Hq1] & Hqf) HF].
  cbn [fmul].
  assert (Hm0 : (0 <= c * q)%Q) by (apply Qmult_le_0_compat; assumption).
  assert (Hm1 : (c * q <= c)%Q).
  { rewrite <- (Qmult_1_r c) at 2. rewrite !(Qmult_comm c).
    apply Qmult_le_compat_r; assumption. }
  destruct (rnd_between 0 c (c * q) H0 Hcf (conj Hm0 Hm1)) as (p & Hp & [Hp0 Hp1] & Hpf).
  rewrite Hp.
  constructor; [exists p; auto|].
  eapply List.Forall_impl; [|apply IH; assumption].
  cbv beta. intros y (r & -> & [Hr0 Hr1] & Hrf).
  exists r. split; [reflexivity|]. split; [split; lra|assumption].
Qed.

Lemma cumprod_from_sorted c l :
  (0 <= c)%Q -> rnd c = Fin c ->
  Forall (float_between rnd 0 1) l ->
  StronglySorted (fun a b => fle b a = true) (cumprod_from rnd (Fin c) l).
Proof.
  destruct rounding as (_ & H0 & _ & _).
  revert c. induction l as [|x l IH]; intros c Hc Hcf HF; simpl; [constructor|].
  pose proof HF as HF0.
  apply List.Forall_cons_iff in HF as [(q & -> & [Hq0 Hq1] & Hqf) HF].
  cbn [fmul].
  assert (Hm0 : (0 <= c * q)%Q) by (apply Qmult_le_0_compat; assumption).
  assert (Hm1 : (c * q <= c)%Q).
  { rewrite <- (Qmult_1_r c) at 2. rewrite !(Qmult_comm c).
    apply Qmult_le_compat_r; assumption. }
  destruct (rnd_between 0 c (c * q) H0 Hcf (conj Hm0 Hm1)) as (p & Hp & [Hp0 Hp1] & Hpf).
  rewrite Hp.
  constructor; [apply IH; assumption|].
  eapply List.Forall_impl; [|apply cumprod_from_bounds; eassumption].
  cbv beta. intros y (r & -> & [Hr0 Hr1] & _).
  simpl. apply Qle_bool_iff. assumption.
Qed.

Lemma cumprod_bounds l :
  Forall (float_between rnd 0 1) l ->
  Forall (float_between rnd 0 1) (cumprod rnd l) /\
  StronglySorted (fun a b => fle b a = true) (cumprod rnd l).
Proof.
  intros HF. destruct l as [|x l]; simpl; [split; constructor|].
  pose proof HF as HF0.
  apply List.Forall_cons_iff in HF as [(q & -> & [Hq0 Hq1] & Hqf) HF].
  pose proof (cumprod_from_bounds q l Hq0 Hqf HF) as Hb.
  split.
  - constructor; [exists q; auto|].
    eapply List.Forall_impl; [|exact Hb].
    cbv beta. intros y (r & -> & [Hr0 Hr1] & Hrf).
    exists r. split; [reflexivity|]. split; [split; lra|assumption].
  - constructor; [apply cumprod_from_sorted; assumption|].
    eapply List.Forall_impl; [|exact Hb].
    cbv beta. intros y (r & -> & [Hr0 Hr1] & _).
    simpl. apply Qle_bool_iff. assumption.
Qed.

(** The farmland of a row, from its forest. *)
Lemma farmland_from_forest fa fl f :
  rnd fa = Fin fa -> rnd fl = Fin fl -> (0 <= f <= fl)%Q ->
  exists d, fsub rnd (Fin fl) (Fin f) = Fin d /\ (0 <= d)%Q /\
            fle (Fin fa) (fadd rnd (Fin fa) (Fin d)) = true.
Proof.
  intros Hfa Hfl [Hf0 Hf1].
  destruct rounding as (_ & H0 & _ & _).
  unfold fsub. cbn [fneg fadd].
  assert (Hd : (0 <= fl + - f <= fl)%Q) by (split; lra).
  destruct (rnd_between 0 fl (fl + - f) H0 Hfl Hd) as (d & Hd' & [Hd0 Hd1] & _).
  exists d. split; [assumption|]. split; [assumption|].
  rewrite <- Hfa at 1. apply rnd_mono. lra.
Qed.

Lemma project_direction fl fa forecast future :
  (0 <= fl)%Q -> rnd fl = Fin fl -> rnd fa = Fin fa ->
  Forall (fun r => 0 <= fst (fst (snd r)) <= 1)%Q forecast ->
  Forall (fun row =>
            fle (Fin 0) (area_floresta_projetada row) = true /\
            fle (area_floresta_projetada row) (round4 rnd (Fin fl)) = true /\
            fle (round4 rnd (Fin fa)) (area_fazenda_projetada row) = true)
         (project rnd (Fin fl) (Fin fa) forecast future) /\
  StronglySorted (fun earlier later =>
                    fle (area_floresta_projetada later)
                        (area_floresta_projetada earlier) = true /\
                    fle (area_fazenda_projetada earlier)
                        (area_fazenda_projetada later) = true)
                 (project rnd (Fin fl) (Fin fa) forecast future).
Proof.
  intros Hfl Hflf Hfaf HF. unfold project.
  pose proof rounding as (_ & H0 & H1 & _).
  set (factors := map (fun y => fsub rnd (Fin 1) (Fin y))
                      (map (fun r => fst (fst (snd r))) forecast)).
  assert (Hfac : Forall (float_between rnd 0 1) factors).
  { unfold factors. rewrite List.map_map. apply List.Forall_map.
    eapply List.Forall_impl; [|exact HF]. cbv beta. intros r [Hr0 Hr1].
    unfold fsub. cbn [fneg fadd]. apply rnd_between; try assumption. split; lra. }
  destruct (cumprod_bounds factors Hfac) as [Hb Hs].
  set (forest := map (fun c => fmul rnd (Fin fl) c) (cumprod rnd factors)).
  assert (Hforest : Forall (float_between rnd 0 fl) forest).
  { unfold forest. apply List.Forall_map.
    eapply List.Forall_impl; [|exact Hb]. cbv beta.
    intros c (q & -> & [Hq0 Hq1] & _). cbn [fmul].
    apply rnd_between; try assumption.
    split; [apply Qmult_le_0_compat; assumption|].
    rewrite <- (Qmult_1_r fl) at 2. rewrite !(Qmult_comm fl).
    apply Qmult_le_compat_r; assumption. }
  assert (Hsorted : StronglySorted (fun a b => fle b a = true) forest).
  { unfold forest.
    apply (sorted_map (fun a b => fle b a = true) (fun a b => fle b a = true)
                      (fun c => fmul rnd (Fin fl) c) (float_between rnd 0 1));
      [|exact Hb|exact Hs].
    intros a b (qa & -> & _) (qb & -> & _) Hab. cbn [fmul].
    apply fle_Fin_inv in Hab. apply rnd_mono.
    rewrite !(Qmult_comm fl). apply Qmult_le_compat_r; assumption. }
  split.
  - apply List.Forall_forall. intros row Hin.
    apply List.in_map_iff in Hin as ([[r f] fu] & <- & Hz).
    cbn [area_floresta_projetada area_fazenda_projetada].
    apply list_elem_of_In in Hz.
    apply elem_of_zip_l in Hz. apply elem_of_zip_r in Hz.
    apply list_elem_of_In in Hz.
    rewrite List.Forall_forall in Hforest.
    destruct (Hforest f Hz) as (q & -> & [Hq0 Hq1] & _).
    destruct (farmland_from_forest fa fl q Hfaf Hflf (conj Hq0 Hq1))
      as (d & Hd & Hd0 & Hfarm).
    rewrite Hd. split; [|split].
    + apply (fle_trans _ (round4 rnd (Fin 0))); [apply round4_zero|].
      apply round4_mono. simpl. apply Qle_bool_iff. assumption.
    + apply round4_mono. simpl. apply Qle_bool_iff. assumption.
    + apply round4_mono. assumption.
  - refine (sorted_map
              (fun a b : Z * (Q * Q * Q) * float * FutureRow =>
                 fle (snd (fst b)) (snd (fst a)) = true)
              _ _
              (fun a => float_between rnd 0 fl (snd (fst a)))
              _ _ _ _).
    + intros [[r1 f1] fu1] [[r2 f2] fu2]. cbn [fst snd].
      intros (q1 & -> & [A0 A1] & _) (q2 & -> & [B0 B1] & _) Hle.
      cbn [area_floresta_projetada area_fazenda_projetada].
      apply fle_Fin_inv in Hle.
      split; [apply round4_mono; simpl; apply Qle_bool_iff; assumption|].
      apply round4_mono.
      destruct (farmland_from_forest fa fl q1 Hfaf Hflf (conj A0 A1))
        as (d1 & Hd1 & _ & _).
      destruct (farmland_from_forest fa fl q2 Hfaf Hflf (conj B0 B1))
        as (d2 & Hd2 & _ & _).
      pose proof Hd1 as Hd1'. pose proof Hd2 as Hd2'.
      unfold fsub in Hd1', Hd2'. cbn [fneg fadd] in Hd1', Hd2'.
      assert (Hdd : fle (Fin d1) (Fin d2) = true).
      { rewrite <- Hd1', <- Hd2'. apply rnd_mono. lra. }
      apply fle_Fin_inv in Hdd.
      rewrite Hd1, Hd2. cbn [fadd]. apply rnd_mono. lra.
    + apply List.Forall_forall. intros [[r f] fu] Hz. cbn [fst snd].
      apply list_elem_of_In in Hz.
      apply elem_of_zip_l in Hz. apply elem_of_zip_r in Hz.
      apply list_elem_of_In in Hz.
      rewrite List.Forall_forall in Hforest. auto.
    + apply (sorted_zip_middle (fun a b : float => fle b a = true)). exact Hsorted.
Qed.

End Direction.

(** The rates a fitted model forecasts on a frame are rates of the
    engine. *)
Lemma Prophet_predict_rates m cols frame forecast (P : Q -> Prop) :
  (forall theta ds regs, P (fst (fst (prophet_forecast theta ds regs)))) ->
  Prophet_predict prophet_forecast m cols frame = inr forecast ->
  Forall (fun r => P (fst (fst (snd r)))) forecast.
Proof.
  intros HP. unfold Prophet_predict.
  destruct (history m) as [theta|]; [|discriminate].
  destruct (existsb _ frame); [discriminate|].
  destruct (check_regressors _ _ _) as [e|[]]; [discriminate|]. cbn [rbind].
  intros H.
  refine (map_result_Forall _ (fun r => P (fst (fst (snd r)))) frame _ forecast H).
  intros row b _ Hb. bind_inv Hb. injection Hb as <-. cbn [fst snd]. apply HP.
Qed.

(** X19: the direction of the projection (predict l.250-253), for finite
    initial areas that are float64 numbers and a rounding that keeps the
    order.  If the engine only forecasts rates between 0 and 1, then in the
    rows of a successful [predict] the projected forest never exceeds the
    rounded initial forest and is never negative, the projected farmland is
    never below the rounded initial farmland, and from one row to any later
    row the forest does not grow and the farmland does not shrink. *)
Theorem projection_only_converts_forest self ic horizon log rows ic' log' fazenda floresta :
  monotone_rounding rnd ->
  (forall theta ds regs,
     0 <= fst (fst (prophet_forecast theta ds regs)) <= 1)%Q ->
  predict rnd prophet_forecast other_date_range self ic horizon log
  = (Ok rows, ic', log') ->
  rbind (getitem ic "area_fazenda_ha") (as_float rnd) = Ok (Fin fazenda) ->
  rbind (getitem ic "area_floresta_ha") (as_float rnd) = Ok (Fin floresta) ->
  rnd fazenda = Fin fazenda -> rnd floresta = Fin floresta ->
  Forall (fun row =>
            fle (Fin 0) (area_floresta_projetada row) = true /\
            fle (area_floresta_projetada row) (round4 rnd (Fin floresta)) = true /\
            fle (round4 rnd (Fin fazenda)) (area_fazenda_projetada row) = true) rows /\
  StronglySorted (fun earlier later =>
                    fle (area_floresta_projetada later)
                        (area_floresta_projetada earlier) = true /\
                    fle (area_fazenda_projetada earlier)
                        (area_fazenda_projetada later) = true)
                 rows.
Proof.
  intros Hrnd Hrate H Hfa Hfl Hfaf Hflf.
  apply predict_ok_inv in H as (h & ic1 & Hv & H1 & H2 & Hf & _).
  destruct (_validate_inputs self ic) as [e|[]] eqn:Hval; [discriminate Hv|].
  destruct (validated_inputs_floor self ic Hval) as (vfl & Hvfl & Hfl0).
  unfold forecast_rows in Hf. bind_inv Hf.
  injection Hf as <-.
  repeat match goal with
         | E : rbind (getitem ic' _) (as_float rnd) = _ |- _ =>
             rewrite (getitem_after_derive rnd self ic ic1 ic') in E
               by (assumption || discriminate)
         end.
  unfold Ok in Hfa, Hfl.
  repeat match goal with
         | E : rbind (getitem ic "area_fazenda_ha") (as_float rnd) = inr ?x |- _ =>
             is_var x; rewrite Hfa in E; injection E as <-
         | E : rbind (getitem ic "area_floresta_ha") (as_float rnd) = inr ?x |- _ =>
             is_var x; rewrite Hfl in E; injection E as <-
         end.
  apply project_direction; try assumption.
  - unfold getitem in Hfl. rewrite Hvfl in Hfl. cbn [rbind Ok] in Hfl.
    destruct vfl as [n|x| |]; try contradiction.
    + simpl in Hfl0. unfold as_float, int_to_float in Hfl.
      pose proof Hrnd as (Hmono & H0 & _).
      pose proof (Hmono _ _ Hfl0) as M. rewrite H0 in M.
      destruct (rnd (inject_Z n)) as [q| | |] eqn:Hq; try discriminate Hfl.
      injection Hfl as ->. apply fle_Fin_inv in M. assumption.
    + simpl in Hfl. injection Hfl as ->. simpl in Hfl0.
      destruct Hfl0 as [Hnan|Hle]; [discriminate Hnan|].
      apply Qle_bool_iff in Hle. assumption.
  - eapply (Prophet_predict_rates _ _ _ _ (fun y => 0 <= y <= 1)%Q); eassumption.
Qed.

End MoreProperties.

(** *** Instances of the further properties *)

Lemma save_then_load_acre :
  load_model "acre.pkl" acre_saved = Ok acre_forecaster /\
  forall other, other <> "acre.pkl" -> acre_saved !! other = models_dir !! other.
Proof.
  apply (save_then_load acre_forecaster "acre.pkl" models_dir acre_saved).
  vm_compute. reflexivity.
Defined.

Lemma failed_train_is_not_saved_acre :
  save_model acre_retrained "acre.pkl" models_dir = (Raise ModelNotTrained, models_dir).
Proof.
  apply (failed_train_is_not_saved sample_ok mean_stats acre_forecaster acre_history
           (TrainingFailure ProphetFitOnce) acre_retrained "acre.pkl" models_dir).
  vm_compute. reflexivity.
Defined.

Lemma validated_inputs_are_in_range_acre :
  exists fazenda floresta prop b,
    acre_conditions !! "area_fazenda_ha" = Some fazenda /\ not_below 0 fazenda /\
    acre_conditions !! "area_floresta_ha" = Some floresta /\ not_below 0 floresta /\
    acre_conditions !! "prop_floresta" = Some prop /\
    not_below 0 prop /\ not_above 1 prop /\
    acre_conditions !! "bioma" = Some (VStr b) /\ In b valid_biomas /\
    contains acre_conditions "y" = true /\ contains acre_conditions "last_year" = true.
Proof.
  apply (validated_inputs_are_in_range acre_forecaster acre_conditions).
  vm_compute. reflexivity.
Defined.

Lemma validation_ignores_rate_value_acre :
  _validate_inputs acre_forecaster (<["y" := VInt 7]> acre_conditions) =
  _validate_inputs acre_forecaster (<["y" := VFloat (1 # 2)]> acre_conditions).
Proof.
  apply (validation_ignores_rate_value acre_forecaster acre_conditions
           (VInt 7) (VFloat (1 # 2))).
  - reflexivity.
  - reflexivity.
Defined.

Lemma invalid_horizon_is_rejected_acre :
  predict binary64 forecast_one_percent short_years acre_forecaster acre_conditions
          (VInt 0) [] =
    (Raise (PredictionFailure InvalidHorizon), acre_conditions,
     ([] ++ [LogError (default (VStr "Estado desconhecido") (acre_conditions !! "Estado"))
                      InvalidHorizon])%list).
Proof.
  apply (invalid_horizon_is_rejected binary64 forecast_one_percent short_years
           acre_forecaster acre_conditions (VInt 0) []).
  - vm_compute. reflexivity.
  - intros h Hh. injection Hh as <-. lia.
Defined.

Lemma predict_leaves_mapping_unchanged_acre :
  snd (fst (predict binary64 forecast_one_percent short_years acre_forecaster
                    acre_conditions (VInt 2) []))
  = acre_conditions.
Proof.
  apply (predict_leaves_mapping_unchanged binary64 forecast_one_percent short_years
           acre_forecaster acre_conditions (VInt 2) []
           (fst (fst (predict binary64 forecast_one_percent short_years
                              acre_forecaster acre_conditions (VInt 2) [])))
           (snd (fst (predict binary64 forecast_one_percent short_years
                              acre_forecaster acre_conditions (VInt 2) [])))
           (snd (predict binary64 forecast_one_percent short_years
                         acre_forecaster acre_conditions (VInt 2) []))).
  - vm_compute. reflexivity.
  - vm_compute. reflexivity.
Defined.

Lemma predict_ok_shape_acre :
  exists h ly enc cs estado dates,
    VInt 2 = VInt h /\ 0 < h /\
    acre_conditions !! "last_year" = Some (VInt ly) /\
    date_range short_years (ly + 1) (Z.to_nat (h + 1)) = Ok dates /\
    map data acre_rows = firstn (Z.to_nat h) dates /\
    (1678 <= ly + 1 -> ly + h + 2 <= 2262 ->
     length acre_rows = Z.to_nat h /\
     map data acre_rows = map (fun i => ly + 1 + Z.of_nat i) (seq 0 (Z.to_nat h))) /\
    encoder_estados acre_forecaster = Some enc /\ classes_ enc = Some cs /\
    acre_conditions !! "Estado" = Some (VStr estado) /\ In estado cs /\
    Forall (fun r => Estado r = VStr estado) acre_rows /\
    @nil log_record = [].
Proof.
  apply (predict_ok_shape binary64 forecast_one_percent short_years acre_forecaster
           acre_conditions (VInt 2) [] acre_rows acre_conditions []).
  vm_compute. reflexivity.
Defined.

Lemma add_regressors_registers_once_repeated :
  List.NoDup ["area_fazenda_ha"; "prop_floresta"; "area_floresta_ha"; "estado_code"] /\
  forall c,
    In c ["area_fazenda_ha"; "prop_floresta"; "area_floresta_ha"; "estado_code"] <->
    In c ["area_fazenda_ha"; "prop_floresta"] \/
    In c ["prop_floresta"; "area_floresta_ha"; "estado_code"; "area_floresta_ha"].
Proof.
  apply (add_regressors_registers_once
           ["prop_floresta"; "area_floresta_ha"; "estado_code"; "area_floresta_ha"]
           {| extra_regressors := ["area_fazenda_ha"; "prop_floresta"]; history := None |}
           {| extra_regressors :=
                ["area_fazenda_ha"; "prop_floresta"; "area_floresta_ha"; "estado_code"];
              history := None |}).
  - constructor; [simpl; intros [H|[]]; discriminate H|].
    constructor; [simpl; intros []|constructor].
  - vm_compute. reflexivity.
Defined.

Lemma training_frames_by_state_sample :
  List.NoDup (map fst landuse_frames) /\
  (forall estado df, In (estado, df) landuse_frames ->
     rows df <> [] /\ Forall (fun r => h_Estado r = estado) (rows df)) /\
  exists full,
    driver_frame landuse_sample = Ok full /\
    forall r, In r (rows full) ->
      exists df, In (h_Estado r, df) landuse_frames /\ In r (rows df).
Proof.
  apply (training_frames_by_state landuse_sample landuse_frames).
  vm_compute. reflexivity.
Defined.


Lemma driver_success_leaves_loadable_artifacts_sample :
  exists forecaster m theta,
    load_model (artifact_path "Bahia") landuse_run = Ok forecaster /\
    is_trained forecaster = true /\
    encoder_estados forecaster = Some (LabelEncoder_fit (map fst landuse_frames)) /\
    model forecaster = Some m /\ history m = Some theta.
Proof.
  apply (driver_success_leaves_loadable_artifacts sample_ok mean_stats landuse_sample
           landuse_frames models_dir landuse_run).
  - vm_compute. reflexivity.
  - vm_compute. reflexivity.
  - vm_compute. right. left. reflexivity.
Defined.

Lemma state_codes_identify_states_acre_bahia :
  (0 = 1 <-> acre_conditions !! "Estado" = bahia_conditions !! "Estado") /\
  exists enc cs,
    encoder_estados acre_forecaster = Some enc /\ classes_ enc = Some cs /\
    0 <= 0 < Z.of_nat (length cs).
Proof.
  apply (state_codes_identify_states acre_forecaster acre_conditions bahia_conditions 0 1).
  - vm_compute. reflexivity.
  - vm_compute. reflexivity.
Defined.

Lemma driver_codes_number_the_states_sample :
  exists codes,
    map_result (fun f => LabelEncoder_transform
                           (LabelEncoder_fit (map fst landuse_frames))
                           (VStr (fst f))) landuse_frames = Ok codes /\
    Permutation codes (map Z.of_nat (seq 0 (length landuse_frames))).
Proof.
  apply (driver_codes_number_the_states landuse_sample landuse_frames).
  vm_compute. reflexivity.
Defined.

Lemma trained_forecaster_round_trips_acre :
  exists fs',
    save_model acre_forecaster "acre.pkl" models_dir = (Ok tt, fs') /\
    load_model "acre.pkl" fs' = Ok acre_forecaster.
Proof.
  apply (trained_forecaster_round_trips sample_ok mean_stats
           (set_encoder __init__ two_states) acre_history acre_forecaster
           "acre.pkl" models_dir).
  vm_compute. reflexivity.
Defined.

Lemma projection_only_converts_forest_acre :
  Forall (fun row =>
            fle (Fin 0) (area_floresta_projetada row) = true /\
            fle (area_floresta_projetada row) (round4 exact (Fin 900000)) = true /\
            fle (round4 exact (Fin 100000)) (area_fazenda_projetada row) = true)
         acre_rows_exact /\
  StronglySorted (fun earlier later =>
                    fle (area_floresta_projetada later)
                        (area_floresta_projetada earlier) = true /\
                    fle (area_fazenda_projetada earlier)
                        (area_fazenda_projetada later) = true)
                 acre_rows_exact.
Proof.
  apply (projection_only_converts_forest exact forecast_one_percent short_years
           acre_forecaster acre_conditions (VInt 2) [] acre_rows_exact acre_conditions []
           100000 900000).
  - split; [|split; [|split]]; try reflexivity.
    intros x y Hxy. apply Qle_bool_iff. assumption.
  - intros theta ds regs. vm_compute. split; discriminate.
  - vm_compute. reflexivity.
  - reflexivity.
  - reflexivity.
  - reflexivity.
  - reflexivity.
Defined.
